(** * Oil-Analysis: the analytics engine of [services/dataProcessor]

    A shallow embedding of the correlation and clustering pipeline
    ([calculatePearson], [detectOutliers], [calculateSilhouette],
    [getSuggestedK], [performClustering]) and of the call site
    [switchClusterMode] of [App.tsx], with the properties the design
    document states about them.

    JavaScript numbers are IEEE 754 binary64 values: they are modelled by
    Rocq's primitive [float], whose operations are the same correctly rounded
    ones.  Objects used as dictionaries are the [gmap]s of their own
    properties, arrays are lists, [undefined] is [None], and a thrown
    exception is the [Throw] branch of [res].  An assignment [obj[name] = v]
    is the insertion of the key [name]: that is what it does for every name
    but [__proto__], the accessor that an object inherits, whose setter adds
    no property.  The statements about the keys that a column name gives to
    the correlation matrix and to the cluster statistics are therefore made
    for the names other than [__proto__] (the names that are [ordinary]);
    for the correlation matrix, [pearsonObject] follows the loops with this
    name as well.

    The packages the engine imports are outside the repository:
    [simple-statistics] is written out after its documentation, [ml-kmeans],
    [ml-pca] and the conversion of strings to numbers are the fields of the
    class [Library].  The text of the run log is left out: two results are
    compared by their other properties.

    The computations of the component [App] that use the engine (the header
    statistics, the column buttons, the clustering button, the marker of
    the scatter plot, the statistics table and the rows of the exported
    sheets) and the completion of the factory names ([fixFactoryNames])
    follow the engine. *)

From Stdlib Require Import ZArith List Floats Bool Lia Ascii String.
From stdpp Require Import base option list strings gmap pretty sorting.
Import ListNotations.

#[local] Open Scope float_scope.

(** ** Exceptions *)

Inductive exn : Type :=
| Error (msg : string)
| TypeError (msg : string).

Inductive res (A : Type) : Type :=
| Ok (a : A)
| Throw (e : exn).
Arguments Ok {A} a.
Arguments Throw {A} e.

#[global] Instance res_ret : MRet res := fun _ a => Ok a.
#[global] Instance res_bind : MBind res := fun _ _ f m =>
  match m with
  | Ok a => f a
  | Throw e => Throw e
  end.

(** [arr.map(f)] when [f] may throw: the first exception escapes. *)
Fixpoint mapM {A B} (f : A -> res B) (l : list A) : res (list B) :=
  match l with
  | [] => Ok []
  | a :: l' => b ← f a; bs ← mapM f l'; Ok (b :: bs)
  end.

(** ** JavaScript numbers *)

Module JS.

(** [ToBoolean] of a number: [0], [-0] and [NaN] are falsy. *)
Definition falsy (x : float) : bool := (x =? 0) || is_nan x.

(** [x || d] on numbers. *)
Definition or_else (x d : float) : float := if falsy x then d else x.

(** An array length (or any small natural number) as a number. *)
Definition ofNat (n : nat) : float :=
  PrimFloat.of_uint63 (Uint63.of_Z (Z.of_nat n)).

(** [a > b]. *)
Definition gt (a b : float) : bool := b <? a.

(** [Math.pow(x, 2)]: the square, correctly rounded. *)
Definition pow2 (x : float) : float := x * x.

(** Is [x] the zero of negative sign? *)
Definition is_neg_zero (x : float) : bool :=
  match classify x with
  | NZero => true
  | _ => false
  end.

(** [Math.min] and [Math.max]: [NaN] is contagious and [-0 < +0]. *)
Definition min (a b : float) : float :=
  if is_nan a || is_nan b then nan
  else if a <? b then a
  else if b <? a then b
  else if is_neg_zero a then a else b.

Definition max (a b : float) : float :=
  if is_nan a || is_nan b then nan
  else if a <? b then b
  else if b <? a then a
  else if is_neg_zero a then b else a.

(** [l[i]] on an array of numbers used in arithmetic: [undefined]
    becomes [NaN]. *)
Definition idx (l : list float) (i : nat) : float := nth i l nan.

(** [arr.filter((_, i) => p(i))]. *)
Definition filteri {A} (p : nat -> bool) (l : list A) : list A :=
  omap (fun '(i, a) => if p i then Some a else None) (imap pair l).

(** [arr.indexOf(x)]: the first position of [x], or [-1]. *)
Fixpoint indexOf (x : Z) (l : list Z) : Z :=
  match l with
  | [] => -1
  | y :: l' =>
      if Z.eqb x y then 0
      else let r := indexOf x l' in if Z.eqb r (-1) then -1 else r + 1
  end%Z.

(** [arr.includes(x)] and [new Set(arr).has(x)]. *)
Definition includes (x : Z) (l : list Z) : bool :=
  existsb (Z.eqb x) l.

(** [arr[i]] for a number [i] that is an index or [-1]. *)
Definition at_ {A} (l : list A) (i : Z) : option A :=
  if (i <? 0)%Z then None else l !! Z.to_nat i.

(** [arr.slice(a, b)]. *)
Definition slice {A} (a b : nat) (l : list A) : list A :=
  take (b - a) (drop a l).

(** [arr.sort((a, b) => a - b)]: a stable sort, in which [y] goes before
    [x] only when the comparator's result [x - y] is positive.  Insertion
    sort is such a sort; on a list with no [NaN] the comparator is
    consistent and every stable sort returns this list. *)
Fixpoint insert_sorted (x : float) (l : list float) : list float :=
  match l with
  | [] => [x]
  | y :: l' => if 0 <? (x - y) then y :: insert_sorted x l' else x :: l
  end.

Definition sort (l : list float) : list float :=
  foldr insert_sorted [] l.

(** [Array.from(new Set(arr))]: first occurrences, in order. *)
Fixpoint dedup_first (seen l : list Z) : list Z :=
  match l with
  | [] => []
  | c :: l' =>
      if existsb (Z.eqb c) seen then dedup_first seen l'
      else c :: dedup_first (c :: seen) l'
  end.

(** [s.split('.')[0]]. *)
Fixpoint before_dot (s : string) : string :=
  match s with
  | EmptyString => EmptyString
  | String c s' =>
      if Ascii.eqb c "."%char then EmptyString else String c (before_dot s')
  end.

End JS.

(** ** simple-statistics

    The functions of the [simple-statistics] package that the engine calls,
    after the package's documented definitions: [mean] and [variance] refuse
    an empty sample; [variance] and [standardDeviation] are the population
    statistics (divisor [n]); the [sample...] functions use Bessel's
    correction (divisor [n - 1]) and refuse samples of fewer than two
    points; [sum] is the Kahan-Babuska compensated sum. *)

Module ss.

Definition sum_step (st : float * float) (xi : float) : float * float :=
  let '(s, correction) := st in
  let transition := s + xi in
  let correction' :=
    if abs xi <=? abs s then correction + ((s - transition) + xi)
    else correction + ((xi - transition) + s) in
  (transition, correction').

Definition sum (x : list float) : float :=
  match x with
  | [] => 0
  | x0 :: tl => let '(s, correction) := fold_left sum_step tl (x0, 0) in
                s + correction
  end.

Definition mean (x : list float) : res float :=
  match x with
  | [] => Throw (Error "mean requires at least one data point")
  | _ => Ok (sum x / JS.ofNat (length x))
  end.

(** [sumNthPowerDeviations(x, 2)]. *)
Definition sumSquaredDeviations (x : list float) : res float :=
  meanValue ← mean x;
  Ok (fold_left (fun s xi => let tempValue := xi - meanValue in
                             s + tempValue * tempValue) x 0).

Definition variance (x : list float) : res float :=
  match x with
  | [] => Throw (Error "variance requires at least one data point")
  | _ => s ← sumSquaredDeviations x; Ok (s / JS.ofNat (length x))
  end.

Definition standardDeviation (x : list float) : res float :=
  if Nat.eqb (length x) 1 then Ok 0
  else v ← variance x; Ok (sqrt v).

Definition sampleVariance (x : list float) : res float :=
  if Nat.ltb (length x) 2
  then Throw (Error "sampleVariance requires at least two data points")
  else s ← sumSquaredDeviations x; Ok (s / JS.ofNat (length x - 1)).

Definition sampleStandardDeviation (x : list float) : res float :=
  v ← sampleVariance x; Ok (sqrt v).

Definition sampleCovariance (x y : list float) : res float :=
  if negb (Nat.eqb (length x) (length y))
  then Throw (Error "sampleCovariance requires samples with equal lengths")
  else if Nat.ltb (length x) 2
  then Throw (Error "sampleCovariance requires at least two data points in each sample")
  else
    xmean ← mean x;
    ymean ← mean y;
    Ok (fold_left (fun s '(xi, yi) => s + (xi - xmean) * (yi - ymean))
                  (combine x y) 0
        / JS.ofNat (length x - 1)).

Definition sampleCorrelation (x y : list float) : res float :=
  cov ← sampleCovariance x y;
  xstd ← sampleStandardDeviation x;
  ystd ← sampleStandardDeviation y;
  Ok (cov / xstd / ystd).

End ss.

(** ** Data model ([types.ts]) *)

(** A cell of a [DataRow]: [string | number | null]. *)
Inductive cell : Type :=
| CNum (x : float)
| CStr (s : string)
| CNull.

(** [DataRow = Record<string, string | number | null>]. *)
Abbreviation DataRow := (gmap string cell).

Record PearsonResult : Type := mkPearsonResult {
  matrix : gmap string (gmap string float);
  columns : list string;
  datasetName : string
}.

(** [KMetric].  The interface declares [wcss] a number; the property holds
    what [res.inertia] reads in [getSuggestedK], and that is [undefined]
    ([None]). *)
Module KMetric.
Record t : Type := mk {
  k : Z;
  wcss : option float;
  silhouette : float
}.
End KMetric.

(** An element of [silhouetteSamples]; [cluster] is [undefined] ([None])
    when the label array is shorter than the matrix. *)
Module Sample.
Record t : Type := mk {
  cluster : option Z;
  value : float
}.
End Sample.

(** An element of [pcaData]; [x], [y] and [cluster] are [undefined]
    ([None]) when the array they are read from is too short. *)
Module PcaPoint.
Record t : Type := mk {
  x : option float;
  y : option float;
  cluster : option Z;
  isOutlier : bool;
  index : Z
}.
End PcaPoint.

(** An entry of [scaledStats]. *)
Module ScaledStat.
Record t : Type := mk {
  mean : float;
  variance : float
}.
End ScaledStat.

(** The value bound to the parameter [excludeOutliers]: declared [boolean],
    but the callers of [App.tsx] hand it a number, and types are erased at
    run time. *)
Inductive flag : Type :=
| FBool (b : bool)
| FNum (n : float).

Definition truthy (f : flag) : bool :=
  match f with
  | FBool b => b
  | FNum n => negb (JS.falsy n)
  end.

(** [ClusterResult], without its [log] text. *)
Module ClusterResult.
Record t : Type := mk {
  k : Z;
  clusters : list Z;
  centroids : list (list float);
  pcaData : list PcaPoint.t;
  outlierIndices : list Z;
  stats : gmap Z (gmap string float);
  scaledStats : gmap Z (gmap string ScaledStat.t);
  metrics : list KMetric.t;
  silhouetteSamples : list Sample.t;
  avgSilhouette : float;
  selectedCols : list string;
  excludeOutliers : flag
}.
End ClusterResult.

(** ** External collaborators

    What the engine calls and this repository does not define: the
    run-time's string-to-number conversion behind [Number(...)], the
    [ml-kmeans] clustering (randomly seeded, so it reads and advances the
    state [rng] of the random source) and the [ml-pca] projection
    [new PCA(m).predict(m).to2DArray()]. *)

Module KMeansResult.

(** The properties of the result of [kmeans] that the engine uses.  The
    result has no property [inertia] (its other properties are [converged],
    [iterations] and [distance]). *)
Record t : Type := mk {
  clusters : list Z;
  centroids : list (list float)
}.

(** [res.inertia]: the read of a property that the result does not have. *)
Definition inertia (res : t) : option float := None.

End KMeansResult.

Class Library : Type := {
  rng : Type;
  StringToNumber : string -> float;
  kmeans : list (list float) -> Z -> rng -> res (KMeansResult.t * rng);
  pcaPredict : list (list float) -> res (list (list float))
}.

(** ** The engine ([services/dataProcessor]) *)

(** [arr.reduce(f, init)] when [f] may throw. *)
Fixpoint foldM {A B} (f : B -> A -> res B) (l : list A) (b : B) : res B :=
  match l with
  | [] => Ok b
  | a :: l' => b' ← f b a; foldM f l' b'
  end.

Section Engine.
Context {L : Library}.

(** [Number(v)] for the value [v] of [d[col]]. *)
Definition Number (v : option cell) : float :=
  match v with
  | None => nan
  | Some CNull => 0
  | Some (CNum n) => n
  | Some (CStr s) => StringToNumber s
  end.

(** [Number(d[col]) || 0]. *)
Definition numeric (d : DataRow) (col : string) : float :=
  JS.or_else (Number (d !! col)) 0.

(** The body of the inner loop of [calculatePearson]: the [try] and its
    [catch]. *)
Definition pearsonEntry (data : list DataRow) (col1 col2 : string) : float :=
  let val1 := map (fun d => numeric d col1) data in
  let val2 := map (fun d => numeric d col2) data in
  match ss.sampleCorrelation val1 val2 with
  | Ok r => r
  | Throw _ => if String.eqb col1 col2 then 1 else 0
  end.

(** [calculatePearson]: the two nested [forEach] loops fill [matrix[col1]]
    and [matrix[col1][col2]].  Each assignment is the insertion of its key,
    as it is for every column name but [__proto__]; [pearsonObject] below
    follows the same loops for that name too. *)
Definition calculatePearson (data : list DataRow) (selectedCols : list string)
    (fileName : string) : PearsonResult :=
  let matrix :=
    fold_left (fun matrix col1 =>
      <[col1 := fold_left (fun row col2 =>
                   <[col2 := pearsonEntry data col1 col2]> row)
                 selectedCols ∅]> matrix)
      selectedCols ∅ in
  {| matrix := matrix; columns := selectedCols;
     datasetName := JS.before_dot fileName |}.

(** [row[col2] = value] on a row that [{}] made.  The name becomes an own
    property of the row, but for [__proto__]: this name is the accessor that
    a plain object inherits, and its setter ignores a number. *)
Definition setEntry (col2 : string) (value : float) (row : gmap string float)
    : gmap string float :=
  if String.eqb col2 "__proto__" then row else <[col2 := value]> row.

(** The matrix of [calculatePearson] as the object it is: its own rows and,
    once [matrix['__proto__'] = {}] has run, the object that this assignment
    put in the place of the prototype of the matrix (the assignments
    [matrix['__proto__'][col2] = value] that follow write to it). *)
Record MatrixObject : Type := mkMatrixObject {
  ownRows : gmap string (gmap string float);
  prototype : option (gmap string float)
}.

(** The two loops of [calculatePearson] over this object. *)
Definition pearsonObject (data : list DataRow) (selectedCols : list string)
    : MatrixObject :=
  fold_left (fun matrix col1 =>
      let row := fold_left (fun row col2 =>
                     setEntry col2 (pearsonEntry data col1 col2) row)
                   selectedCols ∅ in
      if String.eqb col1 "__proto__"
      then mkMatrixObject (ownRows matrix) (Some row)
      else mkMatrixObject (<[col1 := row]> (ownRows matrix)) (prototype matrix))
    selectedCols (mkMatrixObject ∅ None).

(** [euclideanDistance(a, b)] for an array [b]. *)
Definition euclideanDistance (a b : list float) : float :=
  sqrt (fold_left (fun acc '(i, val) => acc + JS.pow2 (val - JS.idx b i))
                  (imap pair a) 0).

(** [euclideanDistance(a, m[idx])]: reading a coordinate of [undefined]
    is a [TypeError], unless [a] has no coordinate to compare. *)
Definition euclideanDistanceAt (a : list float) (b : option (list float))
    : res float :=
  match b with
  | Some b => Ok (euclideanDistance a b)
  | None =>
      match a with
      | [] => Ok (sqrt 0)
      | _ => Throw (TypeError "Cannot read properties of undefined")
      end
  end.

(** The scores of [detectOutliers]: for each projected point, the mean of
    [dists.slice(1, 6)] of its sorted distances. *)
Definition outlierScores (projected : list (list float)) : res (list float) :=
  mapM (fun p1 =>
          let dists := map (fun p2 => euclideanDistance p1 p2) projected in
          ss.mean (JS.slice 1 6 (JS.sort dists)))
       projected.

(** [scores.map((s, i) => s > threshold ? i : -1).filter(i => i !== -1)]. *)
Definition flagged (scores : list float) (threshold : float) : list Z :=
  filter (fun i => i ≠ (-1)%Z)
         (imap (fun i s => if JS.gt s threshold then Z.of_nat i else (-1)%Z)
               scores).

(** The part of [detectOutliers] that follows the projection. *)
Definition outliersOfProjection (projected : list (list float))
    : res (list Z) :=
  scores ← outlierScores projected;
  meanScore ← ss.mean scores;
  stdScore ← ss.standardDeviation scores;
  let threshold := meanScore + 2 * stdScore in
  Ok (flagged scores threshold).

(** [detectOutliers]: nothing is projected or scored below five rows. *)
Definition detectOutliers (matrix : list (list float)) : res (list Z) :=
  if Nat.ltb (length matrix) 5 then Ok []
  else
    projected ← pcaPredict matrix;
    outliersOfProjection projected.

(** [clusters.map((c, idx) => p(c, idx) ? idx : -1).filter(idx => idx !== -1)]. *)
Definition indicesWhere (p : Z -> nat -> bool) (clusters : list Z) : list nat :=
  omap id (imap (fun idx c => if p c idx then Some idx else None) clusters).

(** [idxs.reduce((acc, idx) => acc + euclideanDistance(point, matrix[idx]), 0)
    / idxs.length]. *)
Definition avgDistance (matrix : list (list float)) (point : list float)
    (idxs : list nat) : res float :=
  total ← foldM (fun acc idx =>
                   d ← euclideanDistanceAt point (matrix !! idx);
                   Ok (acc + d))
                idxs 0;
  Ok (total / JS.ofNat (length idxs)).

(** [c === clusterI]. *)
Definition labelIs (clusterI : option Z) (c : Z) : bool :=
  bool_decide (Some c = clusterI).

(** The per-point callback of [calculateSilhouette]. *)
Definition silhouetteSample (matrix : list (list float)) (clusters : list Z)
    (i : nat) (point : list float) : res Sample.t :=
  let clusterI := clusters !! i in
  let sameClusterIndices :=
    indicesWhere (fun c idx => labelIs clusterI c && negb (Nat.eqb idx i))
                 clusters in
  ai ← (if Nat.ltb 0 (length sameClusterIndices)
        then avgDistance matrix point sameClusterIndices
        else Ok 0);
  let otherClusters :=
    List.filter (fun c => negb (labelIs clusterI c)) (JS.dedup_first [] clusters) in
  bi ← foldM (fun bi otherC =>
                let otherClusterIndices :=
                  indicesWhere (fun c _ => Z.eqb c otherC) clusters in
                avgDist ← avgDistance matrix point otherClusterIndices;
                Ok (JS.min bi avgDist))
             otherClusters infinity;
  let si := (bi - ai) / JS.max ai bi in
  Ok (Sample.mk clusterI (if is_nan si then 0 else si)).

(** [calculateSilhouette]: the pair of [avg] and [samples]. *)
Definition calculateSilhouette (matrix : list (list float)) (clusters : list Z)
    : res (float * list Sample.t) :=
  let n := length matrix in
  if Nat.leb n 1 then Ok (0, [])
  else
    samples ← mapM (fun '(i, point) => silhouetteSample matrix clusters i point)
                   (imap pair matrix);
    let avg := fold_left (fun acc s => acc + Sample.value s) samples 0
               / JS.ofNat n in
    Ok (avg, samples).

(** The values [testK] takes in the loop of [getSuggestedK]:
    [2, ..., Math.min(10, matrix.length - 1)]. *)
Definition candidates (n : nat) : list Z :=
  seqZ 2 (Z.min 10 (Z.of_nat n - 1) - 1).

(** The variables of the loop of [getSuggestedK]. *)
Record sweep : Type := mkSweep {
  sw_metrics : list KMetric.t;
  sw_maxSilhouette : float;
  sw_bestK : Z;
  sw_rng : rng
}.

(** One iteration of the loop of [getSuggestedK]. *)
Definition sweepStep (matrix : list (list float)) (st : sweep) (testK : Z)
    : res sweep :=
  '(r, g) ← kmeans matrix testK (sw_rng st);
  '(sil, _) ← calculateSilhouette matrix (KMeansResult.clusters r);
  let metrics := sw_metrics st ++ [KMetric.mk testK (KMeansResult.inertia r) sil] in
  if JS.gt sil (sw_maxSilhouette st)
  then Ok (mkSweep metrics sil testK g)
  else Ok (mkSweep metrics (sw_maxSilhouette st) (sw_bestK st) g).

(** [getSuggestedK]: [bestK] and [metrics], and the random source after the
    sweep. *)
Definition getSuggestedK (matrix : list (list float)) (g : rng)
    : res (Z * list KMetric.t * rng) :=
  st ← foldM (sweepStep matrix) (candidates (length matrix))
             (mkSweep [] neg_infinity 2 g);
  Ok (sw_bestK st, sw_metrics st, sw_rng st).

(** [m.map(row => row[i])]. *)
Definition column (m : list (list float)) (i : nat) : list float :=
  map (fun row => JS.idx row i) m.

(** [ans.clusters[idx] === i]. *)
Definition inCluster (clusters : list Z) (i : Z) (idx : nat) : bool :=
  bool_decide (clusters !! idx = Some i).

(** The body of [selectedCols.forEach((col, colIdx) => ...)] in the
    statistics loop of [performClustering], for the cluster [i]. *)
Definition statsOfColumn (clusterPointsRaw : list DataRow)
    (clusterPointsScaled : list (list float)) (col : string) (colIdx : nat)
    : res (float * ScaledStat.t) :=
  raw ← (if Nat.ltb 0 (length clusterPointsRaw)
         then ss.mean (map (fun d => numeric d col) clusterPointsRaw)
         else Ok 0);
  let colValuesScaled := column clusterPointsScaled colIdx in
  scaled ← (if Nat.ltb 0 (length colValuesScaled)
            then
              m ← ss.mean colValuesScaled;
              v ← (if Nat.ltb 1 (length colValuesScaled)
                   then ss.variance colValuesScaled
                   else Ok 0);
              Ok (ScaledStat.mk m v)
            else Ok (ScaledStat.mk 0 0));
  Ok (raw, scaled).

(** One iteration of the statistics loop: [stats[i]] and [scaledStats[i]].
    The assignments [stats[i][col] = ...] and [scaledStats[i][col] = ...]
    are insertions of the key [col], as they are for every column name but
    [__proto__]. *)
Definition statsOfCluster (finalData : list DataRow)
    (finalMatrix : list (list float)) (clusters : list Z)
    (selectedCols : list string) (i : Z)
    : res (gmap string float * gmap string ScaledStat.t) :=
  let clusterPointsRaw := JS.filteri (inCluster clusters i) finalData in
  let clusterPointsScaled := JS.filteri (inCluster clusters i) finalMatrix in
  foldM (fun '(st, sc) '(colIdx, col) =>
           '(raw, scaled) ← statsOfColumn clusterPointsRaw clusterPointsScaled
                                          col colIdx;
           Ok (<[col := raw]> st, <[col := scaled]> sc))
        (imap pair selectedCols) (∅, ∅).

(** The statistics loop, [for (let i = 0; i < bestK; i++)]. *)
Definition clusterStats (finalData : list DataRow)
    (finalMatrix : list (list float)) (clusters : list Z)
    (selectedCols : list string) (bestK : Z)
    : res (gmap Z (gmap string float) * gmap Z (gmap string ScaledStat.t)) :=
  foldM (fun '(stats, scaledStats) i =>
           '(st, sc) ← statsOfCluster finalData finalMatrix clusters
                                      selectedCols i;
           Ok (<[i := st]> stats, <[i := sc]> scaledStats))
        (seqZ 0 bestK) (∅, ∅).

(** Step 1 of [performClustering]: the matrix of the selected columns. *)
Definition fullMatrixOf (data : list DataRow) (selectedCols : list string)
    : list (list float) :=
  map (fun d => map (fun col => numeric d col) selectedCols) data.

Definition fullMeansOf (fullMatrix : list (list float))
    (selectedCols : list string) : res (list float) :=
  mapM (fun i => ss.mean (column fullMatrix i)) (seq 0 (length selectedCols)).

Definition fullStdsOf (fullMatrix : list (list float))
    (selectedCols : list string) : res (list float) :=
  mapM (fun i => sd ← ss.standardDeviation (column fullMatrix i);
                 Ok (JS.or_else sd 1))
       (seq 0 (length selectedCols)).

Definition scale (fullMatrix : list (list float)) (fullMeans fullStds : list float)
    : list (list float) :=
  map (fun row =>
         imap (fun i val => (val - JS.idx fullMeans i) / JS.idx fullStds i) row)
      fullMatrix.

(** The element of [pcaData] for the projected point [p] of index [i]. *)
Definition pcaPoint (outlierIndices mappingIndices clusters : list Z)
    (i : nat) (p : list float) : PcaPoint.t :=
  let isOutlier := JS.includes (Z.of_nat i) outlierIndices in
  let finalIdx := JS.indexOf (Z.of_nat i) mappingIndices in
  let cluster :=
    if negb (Z.eqb finalIdx (-1)) then JS.at_ clusters finalIdx
    else Some (-1)%Z in
  PcaPoint.mk (p !! 0%nat) (p !! 1%nat) cluster isOutlier (Z.of_nat i).

(** Step 3 of [performClustering]: [mappingIndices], [finalMatrix] and
    [finalData], by the two branches of [if (excludeOutliers)]. *)
Definition selectRows (excludeOutliers : flag) (data : list DataRow)
    (fullScaledMatrix : list (list float)) (outlierIndices : list Z)
    : list Z * list (list float) * list DataRow :=
  let kept (i : nat) := negb (JS.includes (Z.of_nat i) outlierIndices) in
  let allIndices := imap (fun i _ => Z.of_nat i) data in
  if truthy excludeOutliers
  then (List.filter (fun i => negb (JS.includes i outlierIndices)) allIndices,
        JS.filteri kept fullScaledMatrix,
        JS.filteri kept data)
  else (allIndices, fullScaledMatrix, data).

(** [performClustering], called with a third argument (the default [false]
    of the parameter is for a call with two). *)
Definition performClustering (data : list DataRow) (selectedCols : list string)
    (excludeOutliers : flag) (g : rng) : res (ClusterResult.t * rng) :=
  let fullMatrix := fullMatrixOf data selectedCols in
  fullMeans ← fullMeansOf fullMatrix selectedCols;
  fullStds ← fullStdsOf fullMatrix selectedCols;
  let fullScaledMatrix := scale fullMatrix fullMeans fullStds in
  outlierIndices ← detectOutliers fullScaledMatrix;
  let '(mappingIndices, finalMatrix, finalData) :=
    selectRows excludeOutliers data fullScaledMatrix outlierIndices in
  '(bestK, metrics, g1) ← getSuggestedK finalMatrix g;
  '(ans, g2) ← kmeans finalMatrix bestK g1;
  '(avgSilhouette, silhouetteSamples) ←
    calculateSilhouette finalMatrix (KMeansResult.clusters ans);
  fullProjected ← pcaPredict fullScaledMatrix;
  let pcaData :=
    imap (pcaPoint outlierIndices mappingIndices (KMeansResult.clusters ans))
         fullProjected in
  '(stats, scaledStats) ←
    clusterStats finalData finalMatrix (KMeansResult.clusters ans)
                 selectedCols bestK;
  Ok (ClusterResult.mk bestK (KMeansResult.clusters ans)
        (KMeansResult.centroids ans) pcaData outlierIndices stats scaledStats
        metrics silhouetteSamples avgSilhouette selectedCols excludeOutliers,
      g2).

(** [switchClusterMode] of [App.tsx], for a present [clusterResult]: the
    call [performClustering(data, selectedCols, k, mode)] binds its third
    argument [k] to the third parameter [excludeOutliers]; the fourth
    argument has no parameter to go to. *)
Definition switchClusterMode (data : list DataRow) (selectedCols : list string)
    (clusterResult : ClusterResult.t) (mode : bool) (g : rng)
    : res (ClusterResult.t * rng) :=
  let k := ClusterResult.k clusterResult in
  performClustering data selectedCols
    (FNum (PrimFloat.of_uint63 (Uint63.of_Z k))) g.

End Engine.

(** ** A reference library

    A deterministic instance of [Library], to run the engine on concrete
    inputs: Lloyd's iteration seeded with the first [K] rows (the guard is
    the one of [ml-kmeans]), the centred data as projection (all components
    kept, no rotation: the distances between projected points are those a
    principal-component rotation would give), and the conversion of strings
    of decimal digits.  The random source is the number of clusterings run
    so far. *)

Module Ref.

Definition sqDist (a b : list float) : float :=
  fold_left (fun acc '(i, val) => acc + JS.pow2 (val - JS.idx b i))
            (imap pair a) 0.

Fixpoint nearestFrom (p : list float) (cs : list (list float))
    (i best : nat) (bestD : float) : nat :=
  match cs with
  | [] => best
  | c :: cs' =>
      let d := sqDist p c in
      if d <? bestD then nearestFrom p cs' (S i) i d
      else nearestFrom p cs' (S i) best bestD
  end.

Definition nearest (cs : list (list float)) (p : list float) : nat :=
  nearestFrom p cs 0 0 infinity.

Definition columnMean (m : list (list float)) (j : nat) : float :=
  ss.sum (column m j) / JS.ofNat (length m).

Definition centroidOf (m : list (list float)) (labels : list nat)
    (c : nat) (old : list float) : list float :=
  let members := JS.filteri (fun idx => bool_decide (labels !! idx = Some c)) m in
  match members with
  | [] => old
  | _ => imap (fun j _ => columnMean members j) old
  end.

Definition lloydStep (m cs : list (list float)) : list (list float) :=
  imap (centroidOf m (map (nearest cs) m)) cs.

Definition iterations : nat := 10.

Definition kmeans (m : list (list float)) (K : Z) (g : nat)
    : res (KMeansResult.t * nat) :=
  if (K <=? 0)%Z || (Z.of_nat (length m) <? K)%Z
  then Throw (Error "K should be a positive integer smaller than the number of points")
  else
    let cs := Nat.iter iterations (lloydStep m) (take (Z.to_nat K) m) in
    let labels := map (nearest cs) m in
    Ok (KMeansResult.mk (map Z.of_nat labels) cs, S g).

Definition pcaPredict (m : list (list float)) : res (list (list float)) :=
  match m with
  | [] => Throw (Error "Matrix must have at least one row")
  | _ => Ok (map (fun row => imap (fun j val => val - columnMean m j) row) m)
  end.

Definition digit (c : ascii) : option Z :=
  let n := Z.of_nat (nat_of_ascii c) in
  if (48 <=? n)%Z && (n <=? 57)%Z then Some (n - 48)%Z else None.

Fixpoint digits (s : string) (acc : Z) : option Z :=
  match s with
  | EmptyString => Some acc
  | String c s' => d ← digit c; digits s' (10 * acc + d)%Z
  end.

Definition StringToNumber (s : string) : float :=
  match digits s 0 with
  | Some n => PrimFloat.of_uint63 (Uint63.of_Z n)
  | None => nan
  end.

#[global] Instance library : Library :=
  Build_Library nat StringToNumber kmeans pcaPredict.

End Ref.

(** ** The component [App] ([App.tsx])

    The computations of the component that use the engine or prepare its
    arguments: the header statistics, the column buttons, the clustering
    button, the marker of the scatter plot, the rows of the statistics
    table and of the exported sheets.  Rendering and file access are left
    out. *)

(** The [TypeError] of a property read on [undefined]. *)
Definition undefinedRead : exn :=
  TypeError "Cannot read properties of undefined".

(** [Object.keys(obj)] for an object whose keys are array indices: the
    keys in ascending order. *)
Definition keysOf {V} (obj : gmap Z V) : list Z :=
  merge_sort Z.le (map fst (map_to_list obj)).

Module App.

(** [!v] for the value [v] of [r[col]]. *)
Definition not_ (v : option cell) : bool :=
  match v with
  | None | Some CNull => true
  | Some (CNum x) => JS.falsy x
  | Some (CStr s) => String.eqb s ""
  end.

(** [v !== 0]. *)
Definition isNot0 (v : option cell) : bool :=
  match v with
  | Some (CNum x) => negb (x =? 0)
  | _ => true
  end.

(** [r => !r[col] && r[col] !== 0]. *)
Definition missing (col : string) (r : DataRow) : bool :=
  not_ (r !! col) && isNot0 (r !! col).

Record Stats : Type := mkStats {
  totalSamples : nat;
  missingCount : nat
}.

(** The memo [stats]: [null] is [None]. *)
Definition stats (data : list DataRow) (selectedCols : list string)
    : option Stats :=
  if Nat.eqb (length data) 0 || Nat.eqb (length selectedCols) 0 then None
  else Some (mkStats (length data)
               (fold_left (fun acc col =>
                             (acc + length (List.filter (missing col) data))%nat)
                          selectedCols 0%nat)).

(** The updater of [selectedCols] behind the button of the column [col]:
    [prev.includes(col) ? prev.filter(c => c !== col) : [...prev, col]]. *)
Definition toggleColumn (prev : list string) (col : string) : list string :=
  if existsb (String.eqb col) prev
  then List.filter (fun c => negb (String.eqb c col)) prev
  else prev ++ [col].

(** [selectedCols] after the clicks on the column buttons that follow
    [setSelectedCols([])]. *)
Definition clicked (cols : list string) : list string :=
  fold_left toggleColumn cols [].

Section Calls.
Context {L : Library}.

(** The handler of the clustering button, for the number [k] that
    [parseInt] made of the prompt's answer: the call
    [performClustering(data, selectedCols, k, false)] binds [k] to the
    parameter [excludeOutliers]. *)
Definition clusterButton (data : list DataRow) (selectedCols : list string)
    (k : float) (g : rng) : res (ClusterResult.t * rng) :=
  performClustering data selectedCols (FNum k) g.

End Calls.

(** What [CustomScatterDot] draws: the cross of an outlier, or a circle
    with its [fill] ([undefined] is [None]). *)
Inductive dot : Type :=
| Cross
| Circle (fill : option string).

Definition colors : list string :=
  ["#6366f1"; "#10b981"; "#f59e0b"; "#ec4899"; "#8b5cf6"; "#06b6d4";
   "#f97316"].

(** [payload.cluster === -1 ? '#94a3b8' : colors[payload.cluster %
    colors.length]]; the remainder has the sign of the label, and that of
    [undefined] is [NaN]. *)
Definition fillOf (cluster : option Z) : option string :=
  match cluster with
  | Some c =>
      if Z.eqb c (-1) then Some "#94a3b8"
      else JS.at_ colors (Z.rem c (Z.of_nat (length colors)))
  | None => None
  end.

Definition CustomScatterDot (payload : PcaPoint.t) : dot :=
  if PcaPoint.isOutlier payload then Cross
  else Circle (fillOf (PcaPoint.cluster payload)).

(** An element of [formattedVarData]: the [name] and the numeric
    properties (no property of these names is called [name]). *)
Record VarItem : Type := mkVarItem {
  name : string;
  bars : gmap string float
}.

(** The property names [`簇${k}_mean`] and [`簇${k}_var`]. *)
Definition meanKey (k : Z) : string := "簇" +:+ pretty k +:+ "_mean".
Definition varKey (k : Z) : string := "簇" +:+ pretty k +:+ "_var".

(** The body of [Object.keys(scaledStats).forEach(k => ...)] for the column
    [col]: reading [.mean] of a missing entry is a [TypeError]. *)
Definition varStep (scaledStats : gmap Z (gmap string ScaledStat.t))
    (col : string) (item : gmap string float) (k : Z)
    : res (gmap string float) :=
  match scaledStats !! k ≫= (.!! col) with
  | Some s =>
      Ok (<[varKey k := ScaledStat.variance s]>
            (<[meanKey k := ScaledStat.mean s]> item))
  | None => Throw undefinedRead
  end.

(** The memo [formattedVarData]. *)
Definition formattedVarData (clusterResult : option ClusterResult.t)
    : res (list VarItem) :=
  match clusterResult with
  | None => Ok []
  | Some r =>
      mapM (fun col =>
              item ← foldM (varStep (ClusterResult.scaledStats r) col)
                           (keysOf (ClusterResult.scaledStats r)) ∅;
              Ok (mkVarItem col item))
           (ClusterResult.selectedCols r)
  end.

(** [(row[key] as number).toFixed(4)]: the number that is formatted. *)
Definition toFixed (row : VarItem) (key : string) : res float :=
  match bars row !! key with
  | Some v => Ok v
  | None => Throw undefinedRead
  end.

(** The body of the statistics table: for each row of [formattedVarData],
    the mean and the variance of the clusters [0, ..., k - 1]. *)
Definition statsTable (r : ClusterResult.t)
    : res (list (string * list (float * float))) :=
  rows ← formattedVarData (Some r);
  mapM (fun row =>
          cells ← mapM (fun i => m ← toFixed row (meanKey i);
                                 v ← toFixed row (varKey i);
                                 Ok (m, v))
                       (seqZ 0 (ClusterResult.k r));
          Ok (name row, cells))
       rows.

(** A cell of an exported sheet: a string, a number or [null] as in the
    data, a cluster label (a number that is an integer), or [undefined]. *)
Inductive exported : Type :=
| ECell (c : cell)
| ELabel (c : Z)
| EUndefined.

Definition number (x : option float) : exported :=
  match x with
  | Some x => ECell (CNum x)
  | None => EUndefined
  end.

(** The callback of [savePearsonResults]: [{指标: row,
    ...Object.fromEntries(columns.map(col => [col, matrix[row][col]]))}];
    reading [matrix[row][col]] of a missing [matrix[row]] is a
    [TypeError]. *)
Definition pearsonRow (pearsonResult : PearsonResult) (row : string)
    : res (gmap string exported) :=
  entries ← mapM (fun col =>
                    match matrix pearsonResult !! row with
                    | Some r => Ok (col, number (r !! col))
                    | None => Throw undefinedRead
                    end)
                 (columns pearsonResult);
  Ok (fold_left (fun obj '(col, v) => <[col := v]> obj) entries
                (<["指标" := ECell (CStr row)]> ∅)).

(** The rows of the sheet of [savePearsonResults]. *)
Definition pearsonRows (pearsonResult : PearsonResult)
    : res (list (gmap string exported)) :=
  mapM (pearsonRow pearsonResult) (columns pearsonResult).

(** [statsData] in [saveClusterFiles]:
    [Object.keys(stats).map(k => ({Cluster: `簇 ${k}`, ...stats[parseInt(k)]}))]. *)
Definition statsData (clusterResult : ClusterResult.t)
    : list (gmap string exported) :=
  map (fun k =>
         ((fun v => ECell (CNum v))
            <$> default ∅ (ClusterResult.stats clusterResult !! k))
         ∪ {["Cluster" := ECell (CStr ("簇 " +:+ pretty k))]})
      (keysOf (ClusterResult.stats clusterResult)).

Definition label (cluster : option Z) : exported :=
  match cluster with
  | Some c => if Z.eqb c (-1) then ECell (CStr "Excluded (Outlier)")
              else ELabel c
  | None => EUndefined
  end.

(** The callback of [taggedData] in [saveClusterFiles]: the properties
    written after [...d] replace those of [d] of the same name. *)
Definition taggedRow (clusterResult : ClusterResult.t) (i : nat) (d : DataRow)
    : res (gmap string exported) :=
  match ClusterResult.pcaData clusterResult !! i with
  | None => Throw undefinedRead
  | Some pcaItem =>
      Ok (<["PCA_Y" := number (PcaPoint.y pcaItem)]>
         (<["PCA_X" := number (PcaPoint.x pcaItem)]>
         (<["Is_Outlier" := ECell (CStr (if PcaPoint.isOutlier pcaItem
                                         then "Yes" else "No"))]>
         (<["Cluster_Label" := label (PcaPoint.cluster pcaItem)]>
         (ECell <$> d)))))
  end.

Definition taggedData (data : list DataRow) (clusterResult : ClusterResult.t)
    : res (list (gmap string exported)) :=
  mapM (fun '(i, d) => taggedRow clusterResult i d) (imap pair data).

End App.

(** ** The completion of the factory names ([fixFactoryNames])

    The one function of the service that reads the text of the cells and
    writes to the rows it is given.  Here a string is the list of its
    UTF-16 code units, a row is an object of a store, and the array holds
    the references of its rows: two positions of the array may hold the
    same row, and what is written to a row is seen through every reference
    to it. *)

Module Factory.

(** A string: its UTF-16 code units. *)
Abbreviation ustring := (list N).

(** A cell: [string | number | null]. *)
Inductive value : Type :=
| VNum (x : float)
| VStr (s : ustring)
| VNull.

Abbreviation Row := (gmap string value).

(** The identity of a row object, and the rows by identity. *)
Abbreviation ref := nat.
Abbreviation store := (gmap nat (gmap string value)).

(** The code units [String.prototype.trim] removes: [WhiteSpace] and
    [LineTerminator] of ECMAScript. *)
Definition isWhiteSpace (c : N) : bool :=
  existsb (N.eqb c)
    [9; 10; 11; 12; 13; 32; 160; 5760; 8232; 8233; 8239; 8287; 12288; 65279]%N
  || (N.leb 8192 c && N.leb c 8202).

Fixpoint trimStart (s : ustring) : ustring :=
  match s with
  | [] => []
  | c :: s' => if isWhiteSpace c then trimStart s' else s
  end.

Fixpoint trimEnd (s : ustring) : ustring :=
  match s with
  | [] => []
  | c :: s' =>
      match trimEnd s' with
      | [] => if isWhiteSpace c then [] else [c]
      | t => c :: t
      end
  end.

(** [s.trim()]. *)
Definition trim (s : ustring) : ustring := trimEnd (trimStart s).

(** The code units of ['('] and [' ']. *)
Definition paren : N := 40.
Definition space : N := 32.

(** [s.startsWith('(')]. *)
Definition startsWithParen (s : ustring) : bool :=
  match s with
  | c :: _ => N.eqb c paren
  | [] => false
  end.

(** [s.split('(')[0]]. *)
Fixpoint beforeParen (s : ustring) : ustring :=
  match s with
  | [] => []
  | c :: s' => if N.eqb c paren then [] else c :: beforeParen s'
  end.

(** [currentVal.startsWith('(') && currentVal.length <= 5]. *)
Definition abbreviated (currentVal : ustring) : bool :=
  startsWithParen currentVal && Nat.leb (length currentVal) 5.

(** [`${prefix} ${currentVal}`] for [prefix = prevVal.split('(')[0].trim()]. *)
Definition completed (prevVal currentVal : ustring) : ustring :=
  let prefix := trim (beforeParen prevVal) in
  prefix ++ [space] ++ currentVal.

Section Loop.

(** The conversion of a number to a string, by the run-time. *)
Variable NumberToString : float -> ustring.

(** [String(v || '')] for the value [v] of [row[factoryCol]]. *)
Definition toText (v : option value) : ustring :=
  match v with
  | Some (VStr s) => s
  | Some (VNum x) => if JS.falsy x then [] else NumberToString x
  | Some VNull | None => []
  end.

(** [String(row[factoryCol] || '').trim()]. *)
Definition text (factoryCol : string) (row : Row) : ustring :=
  trim (toText (row !! factoryCol)).

(** The body of the loop, for the index [i]. *)
Definition fixStep (factoryCol : string) (newData : list ref) (h : store)
    (i : nat) : store :=
  match newData !! i, newData !! (i - 1)%nat with
  | Some cur, Some prev =>
      let currentVal := text factoryCol (h !!! cur) in
      let prevVal := text factoryCol (h !!! prev) in
      if abbreviated currentVal
      then <[cur := <[factoryCol := VStr (completed prevVal currentVal)]>
                      (h !!! cur)]> h
      else h
  | _, _ => h
  end.

(** [fixFactoryNames]: the array it returns (a copy of [data], with the
    same rows) and the store after the loop. *)
Definition fixFactoryNames (data : list ref) (factoryCol : string) (h : store)
    : list ref * store :=
  let newData := data in
  (newData,
   fold_left (fixStep factoryCol newData) (seq 1 (length newData - 1)) h).

End Loop.

End Factory.

(** ** The vocabulary of the statements *)

(** The documented results of [ml-kmeans] and [ml-pca] that the engine
    relies on: a clustering that returns gives one label per row, each in
    [[0, K)]; a projection that returns has one point per row. *)
Class LibraryContract (L : Library) : Prop := {
  kmeans_labels : forall m K g r g',
    kmeans m K g = Ok (r, g') ->
    length (KMeansResult.clusters r) = length m /\
    Forall (fun c => (0 <= c < K)%Z) (KMeansResult.clusters r);
  pcaPredict_rows : forall m p,
    pcaPredict m = Ok p -> length p = length m
}.

(** Zero of either sign, or [NaN]: the falsy numbers. *)
Definition zeroish (x : float) : Prop :=
  match Prim2SF x with
  | S754_zero _ | S754_nan => True
  | _ => False
  end.

(** An order-preserving key of the numbers that are not [NaN]. *)
Definition float_key (f : spec_float) : Z * Z * Z :=
  match f with
  | S754_nan => (0, 0, 0)
  | S754_infinity true => (-2, 0, 0)
  | S754_infinity false => (2, 0, 0)
  | S754_zero _ => (0, 0, 0)
  | S754_finite true m e => (-1, - e, - Zpos m)
  | S754_finite false m e => (1, e, Zpos m)
  end%Z.

(** The lexicographic order of the keys. *)
Definition lex_lt (a b : Z * Z * Z) : Prop :=
  let '(a1, a2, a3) := a in
  let '(b1, b2, b3) := b in
  (a1 < b1 \/ (a1 = b1 /\ (a2 < b2 \/ (a2 = b2 /\ a3 < b3))))%Z.

(** A name that an assignment [obj[name] = v] makes an own property of an
    object literal: every name but that of the inherited accessor
    [__proto__]. *)
Definition ordinary (name : string) : Prop := name <> "__proto__"%string.

(** [matrix[a][b]], for the own properties [a] of the matrix and [b] of the
    row. *)
Definition entryOf (m : gmap string (gmap string float)) (a b : string)
    : option float :=
  row ← m !! a; row !! b.

(** [m[r][i]]. *)
Definition cellOf (m : list (list float)) (r i : nat) : option float :=
  row ← m !! r; row !! i.

(** The population standard deviation as [ss.standardDeviation] returns it,
    written out: 0 for a single value, else the root of the mean squared
    deviation. *)
Definition populationDeviation (xs : list float) (mean : float) : float :=
  if Nat.eqb (length xs) 1 then 0
  else sqrt (fold_left (fun s xi => s + (xi - mean) * (xi - mean)) xs 0
             / JS.ofNat (length xs)).

(** [ss.variance], written out: the mean squared deviation, divisor [n]. *)
Definition populationVariance (xs : list float) : float :=
  let mean := ss.sum xs / JS.ofNat (length xs) in
  fold_left (fun s xi => s + (xi - mean) * (xi - mean)) xs 0
  / JS.ofNat (length xs).

(** What the statistics loop stores for a column of scaled values. *)
Definition scaledStatOf (vals : list float) : ScaledStat.t :=
  match vals with
  | [] => ScaledStat.mk 0 0
  | _ => ScaledStat.mk (ss.sum vals / JS.ofNat (length vals))
           (if Nat.ltb 1 (length vals) then populationVariance vals else 0)
  end.

(** What the statistics loop stores for a column of raw values. *)
Definition rawStatOf (vals : list float) : float :=
  match vals with
  | [] => 0
  | _ => ss.sum vals / JS.ofNat (length vals)
  end.

(** The intermediate values of a run of [performClustering]. *)
Record run : Type := mkRun {
  r_fullMeans : list float;
  r_fullStds : list float;
  r_fullScaledMatrix : list (list float);
  r_mappingIndices : list Z;
  r_finalMatrix : list (list float);
  r_finalData : list DataRow;
  r_fullProjected : list (list float)
}.

(** The update of [maxSilhouette] and [bestK] in the loop of
    [getSuggestedK], on a recorded pair [(k, silhouette)]. *)
Definition keepBest (st : float * Z) (ks : Z * float) : float * Z :=
  if JS.gt (snd ks) (fst st) then (snd ks, fst ks) else st.

(** What the loop compares of a metric. *)
Definition recorded (m : KMetric.t) : Z * float :=
  (KMetric.k m, KMetric.silhouette m).

(** A metric of the sweep comes from one clustering of the matrix: it holds
    the mean silhouette of its labels, and its [wcss] is [undefined]. *)
Definition measuredOn {L : Library} (matrix : list (list float))
    (m : KMetric.t) : Prop :=
  exists g1 g2 r samples,
    kmeans matrix (KMetric.k m) g1 = Ok (r, g2) /\
    calculateSilhouette matrix (KMeansResult.clusters r)
    = Ok (KMetric.silhouette m, samples) /\
    KMetric.wcss m = None.

(** The number of points of the view with the label [c]. *)
Definition labelCount (view : list PcaPoint.t) (c : Z) : nat :=
  length (filter (fun p => PcaPoint.cluster p = Some c) view).

(** [fullScaledMatrix]: the standardized matrix of a run of
    [performClustering], which it hands to the outlier detector, to the
    projection and, when no row is excluded, to the clusterings. *)
Definition fullScaledMatrixOf {L : Library} (data : list DataRow)
    (selectedCols : list string) : res (list (list float)) :=
  let fullMatrix := fullMatrixOf data selectedCols in
  fullMeans ← fullMeansOf fullMatrix selectedCols;
  fullStds ← fullStdsOf fullMatrix selectedCols;
  Ok (scale fullMatrix fullMeans fullStds).

(** The positions of a list of indices hold increasing values. *)
Definition increasing (l : list Z) : Prop :=
  forall i j x y, (i < j)%nat -> l !! i = Some x -> l !! j = Some y -> (x < y)%Z.

(** [{ ...r, excludeOutliers }]: the result [r] with another flag. *)
Definition withFlag (r : ClusterResult.t) (excludeOutliers : flag)
    : ClusterResult.t :=
  ClusterResult.mk (ClusterResult.k r) (ClusterResult.clusters r)
    (ClusterResult.centroids r) (ClusterResult.pcaData r)
    (ClusterResult.outlierIndices r) (ClusterResult.stats r)
    (ClusterResult.scaledStats r) (ClusterResult.metrics r)
    (ClusterResult.silhouetteSamples r) (ClusterResult.avgSilhouette r)
    (ClusterResult.selectedCols r) excludeOutliers.

(** Two results hold the same analysis: they agree on every property but
    the flag [excludeOutliers] (the text of the log apart, which is not
    modelled). *)
Definition sameAnalysis (r r' : ClusterResult.t) : Prop :=
  ClusterResult.k r = ClusterResult.k r' /\
  ClusterResult.clusters r = ClusterResult.clusters r' /\
  ClusterResult.centroids r = ClusterResult.centroids r' /\
  ClusterResult.pcaData r = ClusterResult.pcaData r' /\
  ClusterResult.outlierIndices r = ClusterResult.outlierIndices r' /\
  ClusterResult.stats r = ClusterResult.stats r' /\
  ClusterResult.scaledStats r = ClusterResult.scaledStats r' /\
  ClusterResult.metrics r = ClusterResult.metrics r' /\
  ClusterResult.silhouetteSamples r = ClusterResult.silhouetteSamples r' /\
  ClusterResult.avgSilhouette r = ClusterResult.avgSilhouette r' /\
  ClusterResult.selectedCols r = ClusterResult.selectedCols r'.

(** What the plot shows of a point of the view, whatever its label. *)
Definition plotted (p : PcaPoint.t) : option float * option float * bool * Z :=
  (PcaPoint.x p, PcaPoint.y p, PcaPoint.isOutlier p, PcaPoint.index p).

(** A text without white space at either end. *)
Definition clean (s : Factory.ustring) : Prop :=
  Factory.trimStart s = s /\ Factory.trimEnd s = s.

(** What the loop body leaves in the row [cur] that follows the row
    [prev]. *)
Definition completedRow (NumberToString : float -> Factory.ustring)
    (factoryCol : string) (prev cur : Factory.Row) : Factory.Row :=
  let currentVal := Factory.text NumberToString factoryCol cur in
  let prevVal := Factory.text NumberToString factoryCol prev in
  if Factory.abbreviated currentVal
  then <[factoryCol := Factory.VStr (Factory.completed prevVal currentVal)]> cur
  else cur.

(** ** Inputs of the examples *)

(** A row over the columns [a] and [b]. *)
Definition row2 (a b : float) : DataRow :=
  <["a" := CNum a]> (<["b" := CNum b]> ∅).

(** A row with the single column [a]. *)
Definition rowA (a : float) : DataRow := <["a" := CNum a]> ∅.

(** The binary64 number nearest to one tenth. *)
Definition tenth : float := 0x1.999999999999ap-4.

(** Three rows of small integers. *)
Definition skewed : list DataRow := [row2 0 0; row2 0 3; row2 1 0].

(** Two rows whose column [a] is constant. *)
Definition flat : list DataRow := [row2 1 1; row2 1 2].

(** Eight rows in two groups of four, over the columns [a] and [b]. *)
Definition blobs : list DataRow :=
  [row2 0 0; row2 1 0; row2 0 1; row2 1 1;
   row2 10 10; row2 11 10; row2 10 11; row2 11 11].

(** Nine points of a grid and one far away, over the columns [a] and [b]. *)
Definition grid : list DataRow :=
  [row2 0 0; row2 1 0; row2 0 1; row2 1 1; row2 0 2;
   row2 1 2; row2 2 0; row2 2 1; row2 2 2; row2 40 40].

(** Seven rows at the point [(x, y)]: six at height 0 and one at height 3. *)
Definition corner (x y : float) : list (list float) :=
  replicate 6 [x; y; 0] ++ [[x; y; 3]].

(** Twenty-eight rows over three uncorrelated columns of decreasing
    variance: the principal axes are the coordinate axes, in order. *)
Definition corners : list (list float) :=
  corner 10 5 ++ corner 10 (-5) ++ corner (-10) 5 ++ corner (-10) (-5).

(** Three rows over the columns [a] and [b]. *)
Definition trio : list DataRow := [row2 0 0; row2 1 2; row2 5 1].

(** A result without points. *)
Definition blank : ClusterResult.t :=
  ClusterResult.mk 2 [] [] [] [] ∅ ∅ [] [] 0 [] (FBool false).

(** A row whose column [f] holds the text of the given code units. *)
Definition named (s : list N) : Factory.Row :=
  <["f" := Factory.VStr s]> (<["n" := Factory.VNum 1]> ∅).

(** Three rows, named [AB (x)], [(y)] and [ (z) ]. *)
Definition names : Factory.store :=
  <[0%nat := named [65; 66; 32; 40; 120; 41]%N]>
  (<[1%nat := named [40; 121; 41]%N]>
  (<[2%nat := named [32; 40; 122; 41; 32]%N]> ∅)).

(** A conversion of numbers that the examples do not reach. *)
Definition noDigits (x : float) : list N := [].

(** * Properties *)

(** ** Facts about binary64 arithmetic

    Derived from the specification of the primitive operations
    ([FloatAxioms]): what the engine's edge cases rest on. *)

Module FloatFacts.

Lemma nan_of_SF x : Prim2SF x = S754_nan -> x = nan.
Proof. intros H. apply Prim2SF_inj. rewrite H. reflexivity. Qed.

Lemma is_nan_SF x : is_nan x = true <-> Prim2SF x = S754_nan.
Proof.
  unfold is_nan. rewrite FloatAxioms.eqb_spec. unfold SFeqb.
  destruct (Prim2SF x) as [[]|[]| |[] m e]; simpl;
    try (intuition congruence).
  all: change (IntDef.Z.compare e e) with (Z.compare e e);
       change (PosDef.Pos.compare_cont Eq m m) with (Pos.compare m m);
       rewrite Z.compare_refl, Pos.compare_refl; simpl;
       intuition congruence.
Qed.

Lemma is_nan_false_SF x : is_nan x = false <-> Prim2SF x <> S754_nan.
Proof.
  rewrite <- is_nan_SF. destruct (is_nan x); intuition congruence.
Qed.

Lemma SFcompare_key a b :
  a <> S754_nan -> b <> S754_nan ->
  match SFcompare a b with
  | Some Lt => lex_lt (float_key a) (float_key b)
  | Some Eq => float_key a = float_key b
  | Some Gt => lex_lt (float_key b) (float_key a)
  | None => False
  end.
Proof.
  intros Ha Hb.
  destruct a as [[]|[]| |[] m e], b as [[]|[]| |[] m' e']; simpl;
    try congruence; try lia.
  all: change (IntDef.Z.compare e e') with (Z.compare e e');
       change (PosDef.Pos.compare_cont Eq m m') with (Pos.compare m m');
       destruct (Z.compare_spec e e'); try lia;
       destruct (Pos.compare_spec m m'); simpl; subst; try lia; try reflexivity.
Qed.

Lemma lex_lt_trans a b c : lex_lt a b -> lex_lt b c -> lex_lt a c.
Proof. destruct a as [[? ?] ?], b as [[? ?] ?], c as [[? ?] ?]; simpl; lia. Qed.

Lemma lex_lt_irrefl a : ~ lex_lt a a.
Proof. destruct a as [[? ?] ?]; simpl; lia. Qed.

(** [a < b] on numbers, read on the keys. *)
Lemma ltb_key a b :
  is_nan a = false -> is_nan b = false ->
  ((a <? b) = true <-> lex_lt (float_key (Prim2SF a)) (float_key (Prim2SF b))).
Proof.
  rewrite !is_nan_false_SF, ltb_spec. unfold SFltb. intros Ha Hb.
  pose proof (SFcompare_key _ _ Ha Hb) as H.
  pose proof (SFcompare_key _ _ Hb Ha) as H'.
  destruct (SFcompare (Prim2SF a) (Prim2SF b)) as [[]|]; try tauto.
  - split; [discriminate|]. rewrite H. intros F. now apply lex_lt_irrefl in F.
  - split; [discriminate|]. intros F.
    destruct (lex_lt_irrefl _ (lex_lt_trans _ _ _ F H)).
Qed.

Lemma ltb_nan_l a b : is_nan a = true -> (a <? b) = false.
Proof.
  rewrite is_nan_SF, ltb_spec. unfold SFltb. intros ->. reflexivity.
Qed.

Lemma ltb_nan_r a b : is_nan b = true -> (a <? b) = false.
Proof.
  rewrite is_nan_SF, ltb_spec. unfold SFltb. intros ->.
  now destruct (Prim2SF a).
Qed.

Lemma ltb_true_not_nan a b :
  (a <? b) = true -> is_nan a = false /\ is_nan b = false.
Proof.
  intros H. split.
  - destruct (is_nan a) eqn:E; [|reflexivity].
    now rewrite (ltb_nan_l _ b E) in H.
  - destruct (is_nan b) eqn:E; [|reflexivity].
    now rewrite (ltb_nan_r a _ E) in H.
Qed.

Lemma ltb_trans a b c : (a <? b) = true -> (b <? c) = true -> (a <? c) = true.
Proof.
  intros Hab Hbc.
  destruct (ltb_true_not_nan _ _ Hab) as [Ha Hb].
  destruct (ltb_true_not_nan _ _ Hbc) as [_ Hc].
  rewrite ltb_key in * by assumption. eauto using lex_lt_trans.
Qed.

(** [a <= b < c] gives [a < c], where [a <= b] is read as "not [b < a]". *)
Lemma nlt_ltb_trans a b c :
  is_nan a = false -> (b <? a) = false -> (b <? c) = true -> (a <? c) = true.
Proof.
  intros Ha Hab Hbc.
  destruct (ltb_true_not_nan _ _ Hbc) as [Hb Hc].
  rewrite ltb_key in Hbc |- * by assumption.
  assert (Hn : ~ lex_lt (float_key (Prim2SF b)) (float_key (Prim2SF a))).
  { rewrite <- ltb_key by assumption. congruence. }
  destruct (float_key (Prim2SF a)) as [[? ?] ?], (float_key (Prim2SF b)) as [[? ?] ?],
    (float_key (Prim2SF c)) as [[? ?] ?]; simpl in *; lia.
Qed.

Lemma ltb_irrefl a : (a <? a) = false.
Proof.
  destruct (is_nan a) eqn:Ha; [now apply ltb_nan_l|].
  destruct (a <? a) eqn:E; [|reflexivity].
  rewrite ltb_key in E by assumption. now apply lex_lt_irrefl in E.
Qed.

(** Nothing but [-Infinity] and [NaN] fails to exceed [-Infinity]. *)
Lemma not_above_neg_infinity a :
  is_nan a = false -> (neg_infinity <? a) = false -> a = neg_infinity.
Proof.
  rewrite is_nan_false_SF, ltb_spec. unfold SFltb. intros Ha H.
  apply Prim2SF_inj. change (Prim2SF neg_infinity) with (S754_infinity true).
  change (Prim2SF neg_infinity) with (S754_infinity true) in H.
  destruct (Prim2SF a) as [[]|[]| |[] m e]; simpl in H; congruence.
Qed.

Lemma falsy_zeroish x : JS.falsy x = true <-> zeroish x.
Proof.
  unfold JS.falsy, zeroish. rewrite orb_true_iff, is_nan_SF.
  rewrite FloatAxioms.eqb_spec. change (Prim2SF 0) with (S754_zero false).
  unfold SFeqb.
  destruct (Prim2SF x) as [[]|[]| |[] m e]; simpl; intuition congruence.
Qed.

Lemma zeroish_sub_diag x : zeroish (x - x).
Proof.
  unfold zeroish. rewrite sub_spec. unfold SF64sub.
  destruct (Prim2SF x) as [[]|[]| |s m e]; simpl; try exact I.
  match goal with
  | |- context [binary_normalize _ _ ?d _ _] =>
      replace d with 0%Z by (symmetry; apply Z.sub_diag)
  end.
  exact I.
Qed.

Lemma sub_diag_finite x : is_finite x = true -> x - x = 0.
Proof.
  unfold is_finite, is_infinity. rewrite negb_true_iff, orb_false_iff.
  rewrite is_nan_false_SF, FloatAxioms.eqb_spec, abs_spec.
  change (Prim2SF infinity) with (S754_infinity false). unfold SFeqb.
  intros [Hn Hi]. apply Prim2SF_inj. rewrite sub_spec. unfold SF64sub.
  change (Prim2SF 0) with (S754_zero false).
  destruct (Prim2SF x) as [[]|[]| |s m e]; simpl in *; try congruence.
  match goal with
  | |- context [binary_normalize _ _ ?d _ _] =>
      replace d with 0%Z by (symmetry; apply Z.sub_diag)
  end.
  reflexivity.
Qed.

Lemma zeroish_mul_l a b : zeroish a -> zeroish (a * b).
Proof.
  unfold zeroish. rewrite mul_spec. unfold SF64mul.
  destruct (Prim2SF a) as [?|?| |? ? ?], (Prim2SF b) as [?|?| |? ? ?];
    simpl; tauto.
Qed.

Lemma zeroish_add a b : zeroish a -> zeroish b -> zeroish (a + b).
Proof.
  unfold zeroish. rewrite add_spec. unfold SF64add.
  destruct (Prim2SF a) as [[]|?| |? ? ?], (Prim2SF b) as [[]|?| |? ? ?];
    simpl; tauto.
Qed.

Lemma zeroish_div_l a b : zeroish a -> zeroish (a / b).
Proof.
  unfold zeroish. rewrite div_spec. unfold SF64div.
  destruct (Prim2SF a) as [?|?| |? ? ?], (Prim2SF b) as [?|?| |? ? ?];
    simpl; tauto.
Qed.

Lemma zeroish_sqrt a : zeroish a -> zeroish (sqrt a).
Proof.
  unfold zeroish. rewrite sqrt_spec. unfold SF64sqrt.
  destruct (Prim2SF a) as [[]|[]| |[] m e]; simpl; tauto.
Qed.

Lemma div_zeroish a b : zeroish a -> zeroish b -> a / b = nan.
Proof.
  unfold zeroish. intros Ha Hb. apply nan_of_SF.
  rewrite div_spec. unfold SF64div.
  destruct (Prim2SF a) as [?|?| |? ? ?], (Prim2SF b) as [?|?| |? ? ?];
    simpl; tauto.
Qed.

Lemma div_nan_l b : nan / b = nan.
Proof.
  apply nan_of_SF. rewrite div_spec. unfold SF64div.
  change (Prim2SF nan) with S754_nan. reflexivity.
Qed.

Lemma zeroish_0 : zeroish 0.
Proof. exact I. Qed.

Lemma mul_comm a b : a * b = b * a.
Proof.
  apply Prim2SF_inj. rewrite !mul_spec. unfold SF64mul.
  destruct (Prim2SF a) as [s|s| |s m e], (Prim2SF b) as [s'|s'| |s' m' e'];
    simpl; rewrite ?(xorb_comm s s'); try reflexivity.
  now rewrite Pos.mul_comm, Z.add_comm.
Qed.

End FloatFacts.

(** ** The correlation engine *)

Section Pearson.
Context {L : Library}.

Lemma fold_insert_lookup {V} (f : string -> V) (l : list string)
    (m0 : gmap string V) (a : string) :
  fold_left (fun m c => <[c := f c]> m) l m0 !! a
  = if bool_decide (a ∈ l) then Some (f a) else m0 !! a.
Proof.
  revert m0. induction l as [|c l IH]; intros m0; simpl.
  - reflexivity.
  - rewrite IH. destruct (decide (a = c)) as [->|Hne].
    + rewrite lookup_insert_eq.
      rewrite (bool_decide_eq_true_2 (c ∈ c :: l)) by (by left).
      now destruct (bool_decide (c ∈ l)).
    + rewrite lookup_insert_ne by congruence.
      destruct (decide (a ∈ l)) as [Hin|Hnin].
      * rewrite !bool_decide_eq_true_2 by (by try right). reflexivity.
      * rewrite !bool_decide_eq_false_2
          by (by try (rewrite not_elem_of_cons; split)).
        reflexivity.
Qed.

(** Every ordered pair of selected columns has its entry, the value the
    [try]/[catch] produced. *)
Lemma pearson_entry (data : list DataRow) (cols : list string)
    (fileName a b : string) :
  a ∈ cols -> b ∈ cols ->
  entryOf (matrix (calculatePearson data cols fileName)) a b
  = Some (pearsonEntry data a b).
Proof.
  intros Ha Hb. unfold entryOf, calculatePearson. simpl.
  rewrite (fold_insert_lookup
             (fun col1 => fold_left (fun row col2 =>
                            <[col2 := pearsonEntry data col1 col2]> row) cols ∅)).
  rewrite bool_decide_eq_true_2 by assumption. simpl.
  rewrite (fold_insert_lookup (fun col2 => pearsonEntry data a col2)).
  now rewrite bool_decide_eq_true_2 by assumption.
Qed.


Lemma covariance_sum_sym (xm ym : float) (x y : list float) (acc : float) :
  fold_left (fun s '(xi, yi) => s + (xi - xm) * (yi - ym)) (combine x y) acc
  = fold_left (fun s '(yi, xi) => s + (yi - ym) * (xi - xm)) (combine y x) acc.
Proof.
  revert y acc. induction x as [|xi x IH]; intros [|yi y] acc; simpl; try reflexivity.
  rewrite IH. now rewrite (FloatFacts.mul_comm (xi - xm)).
Qed.

Lemma mean_nonempty (x : list float) :
  (0 < length x)%nat -> ss.mean x = Ok (ss.sum x / JS.ofNat (length x)).
Proof. destruct x; simpl; [lia|reflexivity]. Qed.

(** With two rows or more nothing throws: the entry is the quotient of
    the covariance by the two sample standard deviations, and the covariance
    does not depend on the order of the columns. *)
Lemma sampleCorrelation_long (x y : list float) :
  (2 <= length x)%nat -> length x = length y ->
  exists cov sx sy,
    ss.sampleCovariance x y = Ok cov /\ ss.sampleCovariance y x = Ok cov /\
    ss.sampleStandardDeviation x = Ok sx /\
    ss.sampleStandardDeviation y = Ok sy /\
    ss.sampleCorrelation x y = Ok (cov / sx / sy) /\
    ss.sampleCorrelation y x = Ok (cov / sy / sx).
Proof.
  intros Hge Hlen.
  assert (Hx : ss.mean x = Ok (ss.sum x / JS.ofNat (length x)))
    by (apply mean_nonempty; lia).
  assert (Hy : ss.mean y = Ok (ss.sum y / JS.ofNat (length y)))
    by (apply mean_nonempty; lia).
  unfold ss.sampleCorrelation, ss.sampleStandardDeviation, ss.sampleVariance,
    ss.sumSquaredDeviations, ss.sampleCovariance.
  rewrite <- !Hlen, !Nat.eqb_refl. simpl.
  destruct (Nat.ltb_spec (length x) 2); [lia|].
  rewrite Hx, Hy. simpl.
  rewrite (covariance_sum_sym _ _ y x).
  eexists _, _, _. repeat split; reflexivity.
Qed.



End Pearson.

Section PearsonClaims.
Context {L : Library}.

Lemma deviations_sum_zeroish (m : float) (x : list float) (acc : float) :
  Forall (fun xi => zeroish (xi - m)) x ->
  zeroish acc ->
  zeroish
    (fold_left (fun s xi => let tempValue := xi - m in s + tempValue * tempValue)
               x acc).
Proof.
  intros Hx. revert acc. induction Hx as [|xi x Hxi _ IH]; intros acc Hacc; simpl.
  - assumption.
  - apply IH. apply FloatFacts.zeroish_add; [assumption|].
    now apply FloatFacts.zeroish_mul_l.
Qed.

Lemma covariance_sum_zeroish (xm ym : float) (x y : list float) (acc : float) :
  Forall (fun xi => zeroish (xi - xm)) x ->
  zeroish acc ->
  zeroish
    (fold_left (fun s '(xi, yi) => s + (xi - xm) * (yi - ym)) (combine x y) acc).
Proof.
  intros Hx. revert y acc.
  induction Hx as [|xi x Hxi _ IH]; intros [|yi y] acc Hacc; simpl;
    try assumption.
  apply IH. apply FloatFacts.zeroish_add; [assumption|].
  now apply FloatFacts.zeroish_mul_l.
Qed.

(** A column without deviation from its mean has a covariance and a sample
    standard deviation that are zero or [NaN]. *)
Lemma zero_deviation_statistics (x y : list float) (xm cov sx : float) :
  ss.mean x = Ok xm ->
  Forall (fun xi => zeroish (xi - xm)) x ->
  ss.sampleCovariance x y = Ok cov ->
  ss.sampleStandardDeviation x = Ok sx ->
  zeroish cov /\ zeroish sx.
Proof.
  intros Hm Hdev Hcov Hsd. split.
  - unfold ss.sampleCovariance in Hcov. rewrite Hm in Hcov.
    destruct (negb _); [discriminate|]. destruct (Nat.ltb _ _); [discriminate|].
    simpl in Hcov. destruct (ss.mean y) as [ym|]; [|discriminate].
    simpl in Hcov. injection Hcov as <-.
    apply FloatFacts.zeroish_div_l, covariance_sum_zeroish;
      [assumption|exact FloatFacts.zeroish_0].
  - unfold ss.sampleStandardDeviation, ss.sampleVariance,
      ss.sumSquaredDeviations in Hsd. rewrite Hm in Hsd.
    destruct (Nat.ltb _ _); [discriminate|]. simpl in Hsd. injection Hsd as <-.
    apply FloatFacts.zeroish_sqrt, FloatFacts.zeroish_div_l,
      deviations_sum_zeroish; [assumption|exact FloatFacts.zeroish_0].
Qed.

(** The entries of a row that the inner loop has filled. *)
Lemma fold_setEntry_lookup (f : string -> float) (l : list string)
    (m0 : gmap string float) (a : string) :
  fold_left (fun row c => setEntry c (f c) row) l m0 !! a
  = if String.eqb a "__proto__" then m0 !! a
    else if bool_decide (a ∈ l) then Some (f a) else m0 !! a.
Proof.
  revert m0. induction l as [|c l IH]; intros m0; simpl.
  - now destruct (String.eqb a "__proto__").
  - rewrite IH. unfold setEntry.
    destruct (String.eqb_spec a "__proto__") as [Ea|Ha]; [subst a|].
    + destruct (String.eqb_spec c "__proto__") as [->|Hc]; [reflexivity|].
      now rewrite lookup_insert_ne.
    + destruct (decide (a = c)) as [->|Hne].
      * rewrite (bool_decide_eq_true_2 (c ∈ c :: l)) by (by left).
        destruct (String.eqb_spec c "__proto__"); [congruence|].
        rewrite lookup_insert_eq. now destruct (bool_decide (c ∈ l)).
      * destruct (decide (a ∈ l)) as [Hin|Hnin].
        -- rewrite !bool_decide_eq_true_2 by (by try right). reflexivity.
        -- rewrite !bool_decide_eq_false_2
             by (by try (rewrite not_elem_of_cons; split)).
           destruct (String.eqb c "__proto__"); [reflexivity|].
           now rewrite lookup_insert_ne by congruence.
Qed.

(** The own rows and the prototype of a matrix that the outer loop has
    filled. *)
Lemma fold_rows_lookup (F : string -> gmap string float) (l : list string)
    (m0 : MatrixObject) (a : string) :
  let object :=
    fold_left (fun matrix col1 =>
        if String.eqb col1 "__proto__"
        then mkMatrixObject (ownRows matrix) (Some (F col1))
        else mkMatrixObject (<[col1 := F col1]> (ownRows matrix))
                            (prototype matrix)) l m0 in
  ownRows object !! a
  = (if String.eqb a "__proto__" then ownRows m0 !! a
     else if bool_decide (a ∈ l) then Some (F a) else ownRows m0 !! a) /\
  prototype object
  = (if bool_decide ("__proto__"%string ∈ l) then Some (F "__proto__"%string)
     else prototype m0).
Proof.
  revert m0. induction l as [|c l IH]; intros m0; simpl.
  - split; [now destruct (String.eqb a "__proto__")|reflexivity].
  - cbv zeta in IH. destruct (IH (if String.eqb c "__proto__"
        then mkMatrixObject (ownRows m0) (Some (F c))
        else mkMatrixObject (<[c := F c]> (ownRows m0)) (prototype m0)))
      as [-> ->]. split.
    + destruct (String.eqb_spec a "__proto__") as [Ea|Ha]; [subst a|].
      * destruct (String.eqb_spec c "__proto__") as [->|Hc]; [reflexivity|].
        simpl. now rewrite lookup_insert_ne.
      * destruct (decide (a = c)) as [->|Hne].
        -- rewrite (bool_decide_eq_true_2 (c ∈ c :: l)) by (by left).
           destruct (String.eqb_spec c "__proto__"); [congruence|]. simpl.
           rewrite lookup_insert_eq. now destruct (bool_decide (c ∈ l)).
        -- destruct (decide (a ∈ l)) as [Hin|Hnin].
           ++ rewrite !bool_decide_eq_true_2 by (by try right). reflexivity.
           ++ rewrite !bool_decide_eq_false_2
                by (by try (rewrite not_elem_of_cons; split)).
              destruct (String.eqb c "__proto__"); [reflexivity|]. simpl.
              now rewrite lookup_insert_ne by congruence.
    + destruct (String.eqb_spec c "__proto__") as [->|Hc].
      * rewrite (bool_decide_eq_true_2 (_ ∈ _ :: l)) by (by left). simpl.
        clear IH. destruct (bool_decide ("__proto__"%string ∈ l)); reflexivity.
      * simpl. destruct (decide ("__proto__"%string ∈ l)) as [Hin|Hnin].
        -- rewrite !bool_decide_eq_true_2 by (by try right). reflexivity.
        -- rewrite !bool_decide_eq_false_2
             by (by try (rewrite not_elem_of_cons; split)). reflexivity.
Qed.

Lemma fold_setEntry_ordinary (f : string -> float) (l : list string)
    (m0 : gmap string float) :
  Forall ordinary l ->
  fold_left (fun row c => setEntry c (f c) row) l m0
  = fold_left (fun row c => <[c := f c]> row) l m0.
Proof.
  intros Hl. revert m0. induction Hl as [|c l Hc _ IH]; intros m0; simpl;
    [reflexivity|].
  rewrite IH. unfold setEntry.
  now destruct (String.eqb_spec c "__proto__").
Qed.

(** For columns of ordinary names the object has the rows of the [matrix]
    of [calculatePearson], and the prototype it was made with. *)
Lemma pearsonObject_ordinary (data : list DataRow) (cols : list string)
    (fileName : string) :
  Forall ordinary cols ->
  pearsonObject data cols
  = mkMatrixObject (matrix (calculatePearson data cols fileName)) None.
Proof.
  intros Hcols. unfold pearsonObject, calculatePearson. simpl.
  generalize (∅ : gmap string (gmap string float)).
  assert (Hgen : forall l, Forall ordinary l -> forall m0 p,
    fold_left (fun matrix col1 =>
      let row := fold_left (fun row col2 =>
                     setEntry col2 (pearsonEntry data col1 col2) row) cols ∅ in
      if String.eqb col1 "__proto__"
      then mkMatrixObject (ownRows matrix) (Some row)
      else mkMatrixObject (<[col1 := row]> (ownRows matrix)) (prototype matrix))
      l (mkMatrixObject m0 p)
    = mkMatrixObject
        (fold_left (fun matrix col1 =>
           <[col1 := fold_left (fun row col2 =>
                        <[col2 := pearsonEntry data col1 col2]> row) cols ∅]>
           matrix) l m0) p).
  { intros l Hl. induction Hl as [|c l Hc _ IH]; intros m0 p; simpl;
      [reflexivity|].
    destruct (String.eqb_spec c "__proto__"); [contradiction|].
    simpl. rewrite IH. now rewrite fold_setEntry_ordinary. }
  intros m0. now apply Hgen.
Qed.

(** The entries of the object: those of the pairs of selected columns of
    ordinary names. *)
Lemma pearsonObject_entry (data : list DataRow) (cols : list string)
    (a b : string) :
  entryOf (ownRows (pearsonObject data cols)) a b
  = if String.eqb a "__proto__" || String.eqb b "__proto__" then None
    else if bool_decide (a ∈ cols) && bool_decide (b ∈ cols)
         then Some (pearsonEntry data a b) else None.
Proof.
  unfold entryOf, pearsonObject.
  destruct (fold_rows_lookup
              (fun col1 => fold_left (fun row col2 =>
                 setEntry col2 (pearsonEntry data col1 col2) row) cols ∅)
              cols (mkMatrixObject ∅ None) a) as [-> _]. simpl.
  rewrite lookup_empty.
  destruct (String.eqb a "__proto__"); [reflexivity|].
  destruct (bool_decide (a ∈ cols)); simpl.
  - rewrite (fold_setEntry_lookup (fun col2 => pearsonEntry data a col2)).
    rewrite lookup_empty. now destruct (String.eqb b "__proto__").
  - now destruct (String.eqb b "__proto__").
Qed.

Lemma pearsonObject_entry_ordinary (data : list DataRow) (cols : list string)
    (a b : string) :
  a ∈ cols -> b ∈ cols -> ordinary a -> ordinary b ->
  entryOf (ownRows (pearsonObject data cols)) a b = Some (pearsonEntry data a b).
Proof.
  intros Ha Hb Oa Ob. rewrite pearsonObject_entry.
  destruct (String.eqb_spec a "__proto__"); [contradiction|].
  destruct (String.eqb_spec b "__proto__"); [contradiction|].
  now rewrite !bool_decide_eq_true_2 by assumption.
Qed.

(** C10: for every list of rows (the empty list and single rows included)
    and every list of selected columns, [calculatePearson] returns, and the
    matrix has an entry for every ordered pair of selected columns whose
    names are ordinary: the correlation when its computation succeeds, and
    the fallback (1 on the diagonal, 0 elsewhere) whenever it throws.  No
    pair with the name [__proto__] has an entry, selected or not: for this
    name the assignments of the two loops add no property.  When every
    selected column has an ordinary name, the object is the [matrix] of
    [calculatePearson]. *)
Theorem calculatePearson_total_dense (data : list DataRow)
    (cols : list string) (fileName : string) :
  let r := calculatePearson data cols fileName in
  let object := pearsonObject data cols in
  columns r = cols /\
  (Forall ordinary cols -> ownRows object = matrix r /\ prototype object = None) /\
  (forall a b, a ∈ cols -> b ∈ cols -> ordinary a -> ordinary b ->
     exists v, entryOf (ownRows object) a b = Some v /\
       match ss.sampleCorrelation (map (fun d => numeric d a) data)
                                  (map (fun d => numeric d b) data) with
       | Ok c => v = c
       | Throw _ => v = if String.eqb a b then 1 else 0
       end) /\
  (forall a b, a = "__proto__"%string \/ b = "__proto__"%string ->
     entryOf (ownRows object) a b = None).
Proof.
  intros r object. split; [reflexivity|]. split.
  { intros Hcols. unfold object.
    now rewrite (pearsonObject_ordinary data cols fileName Hcols). }
  split.
  - intros a b Ha Hb Oa Ob. exists (pearsonEntry data a b). split.
    + now apply pearsonObject_entry_ordinary.
    + unfold pearsonEntry. now destruct (ss.sampleCorrelation _ _).
  - intros a b Hab. unfold object. rewrite pearsonObject_entry.
    destruct Hab as [-> | ->]; [reflexivity|].
    now rewrite orb_true_r.
Qed.


(** C3: a column that never deviates from its computed mean (a constant
    column whose sum is exact) does not get the fallback when there are two
    rows or more: nothing throws, and its entries, the diagonal one
    included, are [NaN]. *)
Theorem constant_column_correlation_is_NaN (data : list DataRow)
    (cols : list string) (fileName c d : string) (v : float) :
  (2 <= length data)%nat ->
  c ∈ cols -> d ∈ cols ->
  Forall (fun row => numeric row c = v) data ->
  ss.mean (map (fun row => numeric row c) data) = Ok v ->
  let m := matrix (calculatePearson data cols fileName) in
  entryOf m c d = Some nan /\ entryOf m d c = Some nan /\
  entryOf m c c = Some nan.
Proof.
  intros Hlen Hc Hd Hconst Hmean m. subst m.
  set (C := map (fun row => numeric row c) data) in *.
  assert (Hdev : Forall (fun xi => zeroish (xi - v)) C).
  { unfold C. apply Forall_map. eapply Forall_impl; [exact Hconst|].
    intros row <-. apply FloatFacts.zeroish_sub_diag. }
  assert (HC : length C = length data) by (unfold C; now rewrite length_map).
  assert (Hpair : forall e, e ∈ cols ->
    entryOf (matrix (calculatePearson data cols fileName)) c e = Some nan /\
    entryOf (matrix (calculatePearson data cols fileName)) e c = Some nan).
  { intros e He. rewrite !pearson_entry by assumption. unfold pearsonEntry.
    fold C. set (E := map (fun row => numeric row e) data).
    assert (HE : length C = length E) by (unfold C, E; now rewrite !length_map).
    destruct (sampleCorrelation_long C E)
      as (cov & sc & se & H1 & H2 & H3 & H4 & H5 & H6); [lia|assumption|].
    rewrite H5, H6.
    destruct (zero_deviation_statistics C E v cov sc Hmean Hdev H1 H3)
      as [Zcov Zsc].
    split; f_equal.
    - rewrite (FloatFacts.div_zeroish cov sc) by assumption.
      apply FloatFacts.div_nan_l.
    - apply FloatFacts.div_zeroish; [|assumption].
      now apply FloatFacts.zeroish_div_l. }
  destruct (Hpair d Hd) as [H1 H2]. destruct (Hpair c Hc) as [H3 _]. auto.
Qed.

End PearsonClaims.

(** The density theorem on a single row and the columns [a] and
    [__proto__]: the matrix has the one row [a], with the one entry [a]. *)
Lemma calculatePearson_total_dense_witness :
  let object := pearsonObject (L := Ref.library) [rowA 1] ["a"; "__proto__"] in
  entryOf (ownRows object) "a" "a" = Some 1 /\
  entryOf (ownRows object) "a" "__proto__" = None /\
  entryOf (ownRows object) "__proto__" "a" = None /\
  ownRows object !! "__proto__"%string = None /\
  prototype object = Some {[ "a"%string := 0 ]}.
Proof.
  destruct (calculatePearson_total_dense (L := Ref.library) [rowA 1]
              ["a"; "__proto__"] "oil.xlsx") as (_ & _ & Hin & Hout).
  split.
  { destruct (Hin "a"%string "a"%string) as (v & -> & Hv);
      try apply list_elem_of_here; try discriminate.
    vm_compute in Hv. now rewrite Hv. }
  split; [apply Hout; now right|]. split; [apply Hout; now left|].
  split; reflexivity.
Defined.



(** The constant-column theorem on the two rows of [flat]. *)
Lemma constant_column_correlation_witness :
  let m := matrix (calculatePearson (L := Ref.library) flat ["a"; "b"]
                                    "oil.xlsx") in
  entryOf m "a" "b" = Some nan /\ entryOf m "b" "a" = Some nan /\
  entryOf m "a" "a" = Some nan.
Proof.
  refine (constant_column_correlation_is_NaN (L := Ref.library) flat
            ["a"; "b"] "oil.xlsx" "a" "b" 1 _ _ _ _ _).
  - simpl. lia.
  - apply list_elem_of_here.
  - apply list_elem_of_further, list_elem_of_here.
  - repeat constructor.
  - reflexivity.
Defined.

(** ** The standardizer (step 1 of [performClustering]) *)

Section ListFacts.

Lemma lookup_map {A B} (f : A -> B) (l : list A) (i : nat) :
  map f l !! i = f <$> (l !! i).
Proof.
  revert i. induction l as [|a l IH]; intros [|i]; simpl; auto.
Qed.

Lemma mapM_lookup {A B} (f : A -> res B) (l : list A) (r : list B) :
  mapM f l = Ok r ->
  length r = length l /\
  forall i a, l !! i = Some a -> exists b, r !! i = Some b /\ f a = Ok b.
Proof.
  revert r. induction l as [|a l IH]; simpl; intros r H.
  - injection H as <-. split; [reflexivity|]. intros i a' Hi. discriminate.
  - destruct (f a) as [b|e] eqn:Hf; [|discriminate]. simpl in H.
    destruct (mapM f l) as [bs|e] eqn:Hbs; [|discriminate]. simpl in H.
    injection H as <-. destruct (IH bs eq_refl) as [Hlen Hall].
    split; [simpl; congruence|].
    intros [|i] a' Hi; simpl in *.
    + injection Hi as <-. eauto.
    + eauto.
Qed.

Lemma mapM_ok {A B} (f : A -> res B) (l : list A) :
  Forall (fun a => exists b, f a = Ok b) l -> exists r, mapM f l = Ok r.
Proof.
  induction 1 as [|a l [b Hb] _ [r Hr]]; simpl.
  - eauto.
  - rewrite Hb. simpl. rewrite Hr. simpl. eauto.
Qed.

End ListFacts.

Section Standardizer.
Context {L : Library}.

Lemma column_fullMatrix (data : list DataRow) (cols : list string)
    (i : nat) (col : string) :
  cols !! i = Some col ->
  column (fullMatrixOf data cols) i = map (fun d => numeric d col) data.
Proof.
  intros Hi. unfold column, fullMatrixOf. rewrite map_map.
  apply map_ext. intros d. unfold JS.idx.
  now rewrite nth_lookup, lookup_map, Hi.
Qed.

Lemma standardDeviation_population (xs : list float) (mean : float) :
  ss.mean xs = Ok mean ->
  ss.standardDeviation xs = Ok (populationDeviation xs mean).
Proof.
  intros Hm. unfold ss.standardDeviation, populationDeviation.
  destruct (Nat.eqb (length xs) 1); [reflexivity|].
  unfold ss.variance, ss.sumSquaredDeviations. rewrite Hm.
  destruct xs; [discriminate|]. reflexivity.
Qed.

Lemma or_else_truthy (x d : float) :
  JS.falsy d = false -> JS.falsy (JS.or_else x d) = false.
Proof.
  intros Hd. unfold JS.or_else. now destruct (JS.falsy x) eqn:E.
Qed.

(** Without deviation from the mean, the deviation that is computed is
    falsy and the substitute 1 is used. *)
Lemma populationDeviation_constant (xs : list float) (mean : float) :
  Forall (fun xi => zeroish (xi - mean)) xs ->
  JS.or_else (populationDeviation xs mean) 1 = 1.
Proof.
  intros Hdev. unfold JS.or_else.
  replace (JS.falsy (populationDeviation xs mean)) with true; [reflexivity|].
  symmetry. apply FloatFacts.falsy_zeroish. unfold populationDeviation.
  destruct (Nat.eqb (length xs) 1); [exact FloatFacts.zeroish_0|].
  apply FloatFacts.zeroish_sqrt, FloatFacts.zeroish_div_l.
  apply (deviations_sum_zeroish mean xs 0 Hdev FloatFacts.zeroish_0).
Qed.

(** C4, amended: for a non-empty row set the fit succeeds and gives, for
    every selected column, the mean and the population standard deviation
    (divisor [n], not [n - 1]), replaced by 1 when it is 0 or [NaN]; the
    scaled cell is [(x - mean) / std]; and a constant column of a finite
    value whose computed mean is that value is scaled to exactly 0 in every
    row. *)
Theorem standardizer_fit_apply (data : list DataRow) (cols : list string)
    (i : nat) (col : string) :
  data <> [] -> cols !! i = Some col ->
  let fullMatrix := fullMatrixOf data cols in
  let xs := map (fun d => numeric d col) data in
  exists fullMeans fullStds mean std,
    fullMeansOf fullMatrix cols = Ok fullMeans /\
    fullStdsOf fullMatrix cols = Ok fullStds /\
    fullMeans !! i = Some mean /\ fullStds !! i = Some std /\
    mean = ss.sum xs / JS.ofNat (length xs) /\
    std = JS.or_else (populationDeviation xs mean) 1 /\
    JS.falsy std = false /\
    (forall r d, data !! r = Some d ->
       cellOf (scale fullMatrix fullMeans fullStds) r i
       = Some ((numeric d col - mean) / std)) /\
    (forall v, Forall (fun d => numeric d col = v) data ->
       mean = v -> is_finite v = true ->
       std = 1 /\
       forall r, (r < length data)%nat ->
         cellOf (scale fullMatrix fullMeans fullStds) r i = Some 0).
Proof.
  intros Hne Hi fullMatrix xs.
  assert (Hcolumn : forall j c, cols !! j = Some c ->
            column fullMatrix j = map (fun d => numeric d c) data)
    by (intros; now apply column_fullMatrix).
  assert (Hpos : forall c, (0 < length (map (fun d => numeric d c) data))%nat).
  { intros c. rewrite length_map. destruct data; [congruence|simpl; lia]. }
  destruct (mapM_ok (fun j => ss.mean (column fullMatrix j))
              (seq 0 (length cols))) as [fullMeans HM].
  { apply Forall_forall. intros j Hj.
    apply list_elem_of_In, in_seq in Hj.
    destruct (lookup_lt_is_Some_2 cols j) as [c Hc]; [lia|].
    rewrite (Hcolumn j c Hc), mean_nonempty by apply Hpos. eauto. }
  destruct (mapM_ok (fun j => sd ← ss.standardDeviation (column fullMatrix j);
                              Ok (JS.or_else sd 1))
              (seq 0 (length cols))) as [fullStds HS].
  { apply Forall_forall. intros j Hj.
    apply list_elem_of_In, in_seq in Hj.
    destruct (lookup_lt_is_Some_2 cols j) as [c Hc]; [lia|].
    rewrite (Hcolumn j c Hc).
    erewrite standardDeviation_population by (apply mean_nonempty, Hpos).
    simpl. eauto. }
  assert (Hlt : (i < length cols)%nat) by (eapply lookup_lt_Some; eassumption).
  destruct (mapM_lookup _ _ _ HM) as [_ HMi].
  destruct (HMi i i) as (mean & Hmean & Hmean'); [now apply lookup_seq_lt|].
  destruct (mapM_lookup _ _ _ HS) as [_ HSi].
  destruct (HSi i i) as (std & Hstd & Hstd'); [now apply lookup_seq_lt|].
  rewrite (Hcolumn i col Hi) in Hmean', Hstd'. fold xs in Hmean', Hstd'.
  pose proof (mean_nonempty xs (Hpos col)) as Hxs.
  rewrite Hxs in Hmean'. injection Hmean' as <-.
  rewrite (standardDeviation_population xs _ Hxs) in Hstd'. simpl in Hstd'.
  injection Hstd' as <-.
  set (mean := ss.sum xs / JS.ofNat (length xs)) in *.
  set (std := JS.or_else (populationDeviation xs mean) 1) in *.
  assert (Hcell : forall r d, data !! r = Some d ->
            cellOf (scale fullMatrix fullMeans fullStds) r i
            = Some ((numeric d col - mean) / std)).
  { intros r d Hr. unfold cellOf, scale, fullMatrix, fullMatrixOf.
    rewrite !lookup_map, Hr. simpl.
    rewrite list_lookup_imap, lookup_map, Hi. simpl.
    unfold JS.idx. now rewrite !nth_lookup, Hmean, Hstd. }
  exists fullMeans, fullStds, mean, std.
  do 7 (split; [first [assumption | reflexivity | now apply or_else_truthy]|]).
  split; [exact Hcell|].
  intros v Hconst Hv Hfin.
  assert (Hone : std = 1).
  { subst std. apply populationDeviation_constant. unfold xs.
    apply Forall_map. eapply Forall_impl; [exact Hconst|].
    intros d <-. simpl. rewrite Hv. apply FloatFacts.zeroish_sub_diag. }
  split; [exact Hone|].
  intros r Hr.
  destruct (lookup_lt_is_Some_2 data r Hr) as [d Hd].
  rewrite (Hcell r d Hd), Hone, Hv. f_equal.
  rewrite Forall_forall in Hconst.
  rewrite (Hconst d) by (eapply list_elem_of_lookup_2; eassumption).
  now rewrite FloatFacts.sub_diag_finite.
Qed.

End Standardizer.

(** C4, as stated, fails on the column [0, 2]: the fitted deviation is the
    population one, 1, where the sample one is the square root of 2; and on
    the constant column of three tenths, whose computed mean is not a tenth:
    its deviation is not 0 and every row is scaled to -1. *)
Lemma standardizer_counterexample :
  let fm := fullMatrixOf (L := Ref.library) [rowA 0; rowA 2] ["a"] in
  let fc := fullMatrixOf (L := Ref.library) [rowA tenth; rowA tenth; rowA tenth]
                         ["a"] in
  fullMeansOf fm ["a"] = Ok [1] /\
  fullStdsOf fm ["a"] = Ok [1] /\
  ss.sampleStandardDeviation (column fm 0) = Ok 0x1.6a09e667f3bcdp+0 /\
  scale fm [1] [1] = [[-1]; [1]] /\
  fullMeansOf fc ["a"] = Ok [0x1.999999999999bp-4] /\
  fullStdsOf fc ["a"] = Ok [0x1p-56] /\
  scale fc [0x1.999999999999bp-4] [0x1p-56] = [[-1]; [-1]; [-1]].
Proof. vm_compute. auto 10. Qed.

(** The standardizer theorem on three rows of the constant 5. *)
Lemma standardizer_witness :
  let data := [rowA 5; rowA 5; rowA 5] in
  let fm := fullMatrixOf (L := Ref.library) data ["a"] in
  exists fullMeans fullStds,
    fullMeansOf fm ["a"] = Ok fullMeans /\
    fullStdsOf fm ["a"] = Ok fullStds /\
    fullStds !! 0%nat = Some 1 /\
    forall r, (r < 3)%nat -> cellOf (scale fm fullMeans fullStds) r 0 = Some 0.
Proof.
  intros data fm.
  destruct (standardizer_fit_apply (L := Ref.library) data ["a"] 0 "a")
    as (fullMeans & fullStds & mean & std & HM & HS & _ & Hstd & Hmean & _ & _
        & _ & Hconst); [discriminate|reflexivity|].
  destruct (Hconst 5) as [Hone Hzero].
  - repeat constructor.
  - rewrite Hmean. reflexivity.
  - reflexivity.
  - exists fullMeans, fullStds. rewrite <- Hone. auto.
Defined.

(** ** The cluster statistics (step 7 of [performClustering]) *)

Section FoldFacts.

Lemma foldM_pure {A B} (f : B -> A -> res B) (g : B -> A -> B) (l : list A)
    (b : B) :
  (forall b a, f b a = Ok (g b a)) -> foldM f l b = Ok (fold_left g l b).
Proof.
  intros Hfg. revert b. induction l as [|a l IH]; intros b; simpl.
  - reflexivity.
  - rewrite Hfg. simpl. apply IH.
Qed.

Lemma fold_left_pair {A B C} (f : B -> A -> B) (g : C -> A -> C) (l : list A)
    (b : B) (c : C) :
  fold_left (fun '(b, c) a => (f b a, g c a)) l (b, c)
  = (fold_left f l b, fold_left g l c).
Proof.
  revert b c. induction l as [|a l IH]; intros b c; simpl; [reflexivity|].
  apply IH.
Qed.

(** A loop that stores [f k] under each key [k] of a list. *)
Lemma fold_insert_key `{Countable K} {V} (f : K -> V) (l : list K)
    (m0 : gmap K V) (a : K) :
  a ∈ l -> fold_left (fun m c => <[c := f c]> m) l m0 !! a = Some (f a).
Proof.
  revert m0. induction l as [|c l IH]; intros m0 Ha; simpl.
  - now apply not_elem_of_nil in Ha.
  - destruct (decide (a ∈ l)) as [Hin|Hnin]; [now apply IH|].
    apply elem_of_cons in Ha as [->|Ha]; [|contradiction].
    clear IH. revert m0. induction l as [|c' l IH]; intros m0; simpl.
    + apply lookup_insert_eq.
    + apply not_elem_of_cons in Hnin as [Hne Hnin].
      rewrite insert_insert_ne by congruence. now apply IH.
Qed.

(** A loop over the indexed columns that stores [F j c] under the name [c]:
    the entry of a column is the one of some position of that name. *)
Lemma fold_insert_indexed {V} (F : nat -> string -> V)
    (l : list (nat * string)) (m0 : gmap string V) (col : string) :
  let m := fold_left (fun m '(j, c) => <[c := F j c]> m) l m0 in
  (exists j, (j, col) ∈ l /\ m !! col = Some (F j col)) \/
  ((forall j, (j, col) ∉ l) /\ m !! col = m0 !! col).
Proof.
  revert m0. induction l as [|[j0 c0] l IH]; intros m0; simpl.
  - right. split; [intros j; apply not_elem_of_nil|reflexivity].
  - destruct (IH (<[c0 := F j0 c0]> m0)) as [(j & Hj & Hm)|[Hno Hm]].
    + left. exists j. split; [now right|assumption].
    + destruct (decide (col = c0)) as [->|Hne].
      * left. exists j0. split; [left|].
        now rewrite Hm, lookup_insert_eq.
      * right. split.
        -- intros j Hj. apply elem_of_cons in Hj as [Heq|Hj];
             [congruence|now apply (Hno j)].
        -- now rewrite Hm, lookup_insert_ne by congruence.
Qed.

Lemma elem_of_imap_pair {A} (l : list A) (j : nat) (a : A) :
  (j, a) ∈ imap pair l <-> l !! j = Some a.
Proof.
  rewrite list_elem_of_lookup. split.
  - intros [i Hi]. rewrite list_lookup_imap in Hi.
    destruct (l !! i) as [a'|] eqn:E; simpl in Hi; [|discriminate].
    injection Hi as <- <-. assumption.
  - intros Hj. exists j. now rewrite list_lookup_imap, Hj.
Qed.

End FoldFacts.

Section ClusterStatistics.
Context {L : Library}.

(** The body of the column loop never throws: both means are taken of
    non-empty samples and the variance of at least two values. *)
Lemma statsOfColumn_ok (raw : list DataRow) (scaled : list (list float))
    (col : string) (colIdx : nat) :
  statsOfColumn raw scaled col colIdx
  = Ok (rawStatOf (map (fun d => numeric d col) raw),
        scaledStatOf (column scaled colIdx)).
Proof.
  unfold statsOfColumn.
  assert (Hraw : (if Nat.ltb 0 (length raw)
                  then ss.mean (map (fun d => numeric d col) raw) else Ok 0)
                 = Ok (rawStatOf (map (fun d => numeric d col) raw))).
  { destruct raw; reflexivity. }
  rewrite Hraw. simpl.
  generalize (column scaled colIdx). intros [|v [|v' vals]]; reflexivity.
Qed.

Lemma statsOfCluster_ok (finalData : list DataRow)
    (finalMatrix : list (list float)) (clusters : list Z)
    (cols : list string) (i : Z) :
  let raw := JS.filteri (inCluster clusters i) finalData in
  let scaled := JS.filteri (inCluster clusters i) finalMatrix in
  statsOfCluster finalData finalMatrix clusters cols i
  = Ok (fold_left (fun st '(colIdx, col) =>
                     <[col := rawStatOf (map (fun d => numeric d col) raw)]> st)
                  (imap pair cols) ∅,
        fold_left (fun sc '(colIdx, col) =>
                     <[col := scaledStatOf (column scaled colIdx)]> sc)
                  (imap pair cols) ∅).
Proof.
  intros raw scaled. unfold statsOfCluster. fold raw scaled.
  rewrite <- fold_left_pair.
  apply foldM_pure. intros [st sc] [colIdx col].
  now rewrite statsOfColumn_ok.
Qed.

(** The statistics loop never throws: it is the two loops that store, under
    each cluster id, what the column loop stores. *)
Lemma clusterStats_ok (finalData : list DataRow)
    (finalMatrix : list (list float)) (clusters : list Z)
    (cols : list string) (bestK : Z) :
  clusterStats finalData finalMatrix clusters cols bestK
  = Ok (fold_left (fun m i =>
          <[i := fold_left (fun st '(colIdx, col) =>
                  <[col := rawStatOf (map (fun d => numeric d col)
                             (JS.filteri (inCluster clusters i) finalData))]> st)
                  (imap pair cols) ∅]> m) (seqZ 0 bestK) ∅,
        fold_left (fun m i =>
          <[i := fold_left (fun sc '(colIdx, col) =>
                  <[col := scaledStatOf (column
                             (JS.filteri (inCluster clusters i) finalMatrix)
                             colIdx)]> sc)
                  (imap pair cols) ∅]> m) (seqZ 0 bestK) ∅).
Proof.
  unfold clusterStats. rewrite <- fold_left_pair.
  apply foldM_pure. intros [stats scaledStats] i.
  now rewrite statsOfCluster_ok.
Qed.

(** C5, amended: the statistics loop never throws, and for every cluster id
    in [[0, k)] and every selected feature it stores the mean of the scaled
    values of the cluster's rows and their population variance (divisor [n],
    not [n - 1]; 0 for a single row), and mean 0 and variance 0 for a
    cluster without rows. *)
Theorem clusterStats_population_variance (finalData : list DataRow)
    (finalMatrix : list (list float)) (clusters : list Z)
    (cols : list string) (bestK : Z) :
  exists stats scaledStats,
    clusterStats finalData finalMatrix clusters cols bestK
    = Ok (stats, scaledStats) /\
    forall i col, (0 <= i < bestK)%Z -> col ∈ cols ->
      exists j row s,
        cols !! j = Some col /\
        scaledStats !! i = Some row /\ row !! col = Some s /\
        let vals := column (JS.filteri (inCluster clusters i) finalMatrix) j in
        match vals with
        | [] => s = ScaledStat.mk 0 0
        | _ =>
            ScaledStat.mean s = ss.sum vals / JS.ofNat (length vals) /\
            ScaledStat.variance s
            = if Nat.ltb 1 (length vals)
              then fold_left (fun acc xi =>
                                acc + (xi - ScaledStat.mean s)
                                      * (xi - ScaledStat.mean s)) vals 0
                   / JS.ofNat (length vals)
              else 0
        end.
Proof.
  eexists _, _. split; [apply clusterStats_ok|].
  intros i col Hi Hcol.
  rewrite (fold_insert_key
             (fun i => fold_left (fun sc '(colIdx, col) =>
                <[col := scaledStatOf (column
                           (JS.filteri (inCluster clusters i) finalMatrix)
                           colIdx)]> sc)
                (imap pair cols) (∅ : gmap string ScaledStat.t)))
    by (apply elem_of_seqZ; lia).
  destruct (fold_insert_indexed
              (fun j (_ : string) => scaledStatOf
                 (column (JS.filteri (inCluster clusters i) finalMatrix) j))
              (imap pair cols) ∅ col) as [(j & Hj & Hm)|[Hno _]].
  - apply elem_of_imap_pair in Hj.
    eexists j, _, _. split; [assumption|]. split; [reflexivity|].
    split; [exact Hm|].
    simpl. unfold scaledStatOf.
    destruct (column _ j) as [|v vals] eqn:E; [reflexivity|].
    split; reflexivity.
  - apply list_elem_of_lookup in Hcol as [j Hj].
    destruct (Hno j). now apply elem_of_imap_pair.
Qed.

End ClusterStatistics.

Section Orchestrator.
Context {L : Library}.

(** A run that returns went through every step, in order. *)
Lemma performClustering_inv (data : list DataRow) (cols : list string)
    (eo : flag) (g g' : rng) (r : ClusterResult.t) :
  performClustering data cols eo g = Ok (r, g') ->
  exists (t : run) (g1 : rng) (ans : KMeansResult.t),
    fullMeansOf (fullMatrixOf data cols) cols = Ok (r_fullMeans t) /\
    fullStdsOf (fullMatrixOf data cols) cols = Ok (r_fullStds t) /\
    r_fullScaledMatrix t
    = scale (fullMatrixOf data cols) (r_fullMeans t) (r_fullStds t) /\
    detectOutliers (r_fullScaledMatrix t) = Ok (ClusterResult.outlierIndices r) /\
    selectRows eo data (r_fullScaledMatrix t) (ClusterResult.outlierIndices r)
    = (r_mappingIndices t, r_finalMatrix t, r_finalData t) /\
    getSuggestedK (r_finalMatrix t) g
    = Ok (ClusterResult.k r, ClusterResult.metrics r, g1) /\
    kmeans (r_finalMatrix t) (ClusterResult.k r) g1 = Ok (ans, g') /\
    ClusterResult.clusters r = KMeansResult.clusters ans /\
    ClusterResult.centroids r = KMeansResult.centroids ans /\
    calculateSilhouette (r_finalMatrix t) (ClusterResult.clusters r)
    = Ok (ClusterResult.avgSilhouette r, ClusterResult.silhouetteSamples r) /\
    pcaPredict (r_fullScaledMatrix t) = Ok (r_fullProjected t) /\
    ClusterResult.pcaData r
    = imap (pcaPoint (ClusterResult.outlierIndices r) (r_mappingIndices t)
                     (ClusterResult.clusters r))
           (r_fullProjected t) /\
    clusterStats (r_finalData t) (r_finalMatrix t) (ClusterResult.clusters r)
                 cols (ClusterResult.k r)
    = Ok (ClusterResult.stats r, ClusterResult.scaledStats r) /\
    ClusterResult.selectedCols r = cols /\
    ClusterResult.excludeOutliers r = eo.
Proof.
  unfold performClustering. intros H.
  destruct (fullMeansOf _ cols) as [fullMeans|] eqn:HM; [|discriminate].
  destruct (fullStdsOf _ cols) as [fullStds|] eqn:HS; [|discriminate].
  simpl in H.
  destruct (detectOutliers _) as [outlierIndices|] eqn:HO; [|discriminate].
  simpl in H.
  destruct (selectRows _ _ _ _) as [[mappingIndices finalMatrix] finalData]
    eqn:Hsel.
  destruct (getSuggestedK _ _) as [[[bestK metrics] g1]|] eqn:HK; [|discriminate].
  simpl in H.
  destruct (kmeans _ _ _) as [[ans g2]|] eqn:Hkm; [|discriminate].
  simpl in H.
  destruct (calculateSilhouette _ _) as [[avg samples]|] eqn:Hsil; [|discriminate].
  simpl in H.
  destruct (pcaPredict _) as [fullProjected|] eqn:Hpca; [|discriminate].
  simpl in H.
  destruct (clusterStats _ _ _ _ _) as [[stats scaledStats]|] eqn:Hst;
    [|discriminate].
  simpl in H. injection H as <- <-.
  exists (mkRun fullMeans fullStds
            (scale (fullMatrixOf data cols) fullMeans fullStds)
            mappingIndices finalMatrix finalData fullProjected), g1, ans.
  simpl. auto 20.
Qed.

End Orchestrator.

(** C5, as stated, fails on the eight rows of [blobs]: the cluster 4 holds
    the last four rows, and the variance stored for its column [a] is the
    population variance of the four scaled values, not their sample
    variance. *)
Lemma clusterStats_counterexample :
  let cols := ["a"; "b"] in
  let fm := fullMatrixOf (L := Ref.library) blobs cols in
  exists means stds r g' s sampleVar,
    fullMeansOf fm cols = Ok means /\ fullStdsOf fm cols = Ok stds /\
    performClustering (L := Ref.library) blobs cols (FBool false) 0%nat
    = Ok (r, g') /\
    ClusterResult.k r = 5%Z /\
    ClusterResult.clusters r = [0; 1; 2; 3; 4; 4; 4; 4]%Z /\
    ClusterResult.scaledStats r !! 4%Z ≫= (.!! "a") = Some s /\
    let vals :=
      column (JS.filteri (inCluster (ClusterResult.clusters r) 4)
                         (scale fm means stds)) 0 in
    length vals = 4%nat /\
    ss.variance vals = Ok (ScaledStat.variance s) /\
    ss.sampleVariance vals = Ok sampleVar /\
    (ScaledStat.variance s =? sampleVar) = false.
Proof.
  intros cols fm. eexists _, _, _, _, _, _.
  split; [vm_compute; reflexivity|].
  split; [vm_compute; reflexivity|].
  split; [vm_compute; reflexivity|].
  vm_compute. auto 10.
Qed.

(** ** The K-selector *)

Section ArgMax.

Lemma ltb_neg_infinity_r (a : float) : (a <? neg_infinity) = false.
Proof.
  rewrite ltb_spec. change (Prim2SF neg_infinity) with (S754_infinity true).
  unfold SFltb. now destruct (Prim2SF a) as [[]|[]| |[] m e].
Qed.

Lemma ltb_asym (a b : float) : (a <? b) = true -> (b <? a) = false.
Proof.
  intros Hab. destruct (b <? a) eqn:Hba; [|reflexivity].
  pose proof (FloatFacts.ltb_trans _ _ _ Hab Hba) as H.
  now rewrite FloatFacts.ltb_irrefl in H.
Qed.

(** The running maximum: either no recorded silhouette exceeded the initial
    value, or the result is the first recorded pair that no later one
    exceeds, and every number recorded before it is strictly smaller. *)
Lemma keepBest_first_maximum (l : list (Z * float)) (M0 : float) (b0 : Z) :
  let '(M, b) := fold_left keepBest l (M0, b0) in
  (M = M0 /\ b = b0 /\ Forall (fun ks => (M0 <? snd ks) = false) l) \/
  (exists l1 l2,
     l = l1 ++ (b, M) :: l2 /\ (M0 <? M) = true /\
     Forall (fun ks => is_nan (snd ks) = false -> (snd ks <? M) = true) l1 /\
     Forall (fun ks => (M <? snd ks) = false) l2).
Proof.
  revert M0 b0. induction l as [|[k s] l IH]; intros M0 b0; simpl.
  - left. auto.
  - unfold keepBest at 2. unfold JS.gt. simpl.
    destruct (M0 <? s) eqn:Hs.
    + specialize (IH s k). destruct (fold_left keepBest l (s, k)) as [M b].
      right. destruct IH as [(-> & -> & Hall)|(l1 & l2 & -> & HM & H1 & H2)].
      * exists [], l. auto.
      * exists ((k, s) :: l1), l2. split; [reflexivity|].
        split; [eauto using FloatFacts.ltb_trans|]. split; [|assumption].
        constructor; [|assumption]. auto.
    + specialize (IH M0 b0). destruct (fold_left keepBest l (M0, b0)) as [M b].
      destruct IH as [(-> & -> & Hall)|(l1 & l2 & -> & HM & H1 & H2)].
      * left. auto.
      * right. exists ((k, s) :: l1), l2. split; [reflexivity|].
        split; [assumption|]. split; [|assumption].
        constructor; [|assumption]. simpl. intros Hnan.
        eauto using FloatFacts.nlt_ltb_trans.
Qed.

Lemma seqZ_split_sorted (m len : Z) (l1 l2 : list Z) (x : Z) :
  seqZ m len = l1 ++ x :: l2 ->
  Forall (fun y => (y < x)%Z) l1 /\ Forall (fun y => (x < y)%Z) l2.
Proof.
  intros Heq.
  assert (Hx : seqZ m len !! length l1 = Some x).
  { rewrite Heq, lookup_app_r by lia. now rewrite Nat.sub_diag. }
  apply lookup_seqZ in Hx as [-> _].
  split; apply Forall_forall; intros y Hy;
    apply list_elem_of_lookup in Hy as [i Hi].
  - assert (Hy : seqZ m len !! i = Some y).
    { rewrite Heq, lookup_app_l; [assumption|].
      eapply lookup_lt_Some; eassumption. }
    apply lookup_seqZ in Hy as [-> _].
    apply lookup_lt_Some in Hi. lia.
  - assert (Hy : seqZ m len !! (length l1 + S i)%nat = Some y).
    { rewrite Heq, lookup_app_r by lia.
      replace (length l1 + S i - length l1)%nat with (S i) by lia.
      assumption. }
    apply lookup_seqZ in Hy as [-> _]. lia.
Qed.

End ArgMax.

Section Silhouette.
Context {L : Library}.

Lemma foldM_ok {A B} (f : B -> A -> res B) (P : A -> Prop) (l : list A)
    (b : B) :
  Forall P l -> (forall b a, P a -> exists b', f b a = Ok b') ->
  exists r, foldM f l b = Ok r.
Proof.
  intros Hl Hf. revert b. induction Hl as [|a l Ha _ IH]; intros b; simpl.
  - eauto.
  - destruct (Hf b a Ha) as [b' ->]. simpl. apply IH.
Qed.

Lemma indicesWhere_lt (p : Z -> nat -> bool) (clusters : list Z) :
  Forall (fun idx => (idx < length clusters)%nat) (indicesWhere p clusters).
Proof.
  apply Forall_forall. intros idx Hin. unfold indicesWhere in Hin.
  apply list_elem_of_omap in Hin as (o & Ho & Hid). simpl in Hid. subst o.
  apply list_elem_of_lookup in Ho as [i Hi].
  rewrite list_lookup_imap in Hi.
  destruct (clusters !! i) as [c|] eqn:E; simpl in Hi; [|discriminate].
  destruct (p c i); [|discriminate]. injection Hi as <-.
  eapply lookup_lt_Some; eassumption.
Qed.

Lemma avgDistance_ok (matrix : list (list float)) (point : list float)
    (idxs : list nat) :
  Forall (fun idx => (idx < length matrix)%nat) idxs ->
  exists d, avgDistance matrix point idxs = Ok d.
Proof.
  intros Hidx. unfold avgDistance.
  destruct (foldM_ok
              (fun acc idx => d ← euclideanDistanceAt point (matrix !! idx);
                              Ok (acc + d))
              (fun idx => (idx < length matrix)%nat) idxs 0 Hidx) as [t ->].
  - intros acc idx Hlt. destruct (lookup_lt_is_Some_2 matrix idx Hlt) as [q ->].
    simpl. eauto.
  - simpl. eauto.
Qed.

(** With no more labels than rows, the silhouette is computed without
    reading a missing row. *)
Lemma calculateSilhouette_ok (matrix : list (list float)) (clusters : list Z) :
  (length clusters <= length matrix)%nat ->
  exists avg samples, calculateSilhouette matrix clusters = Ok (avg, samples).
Proof.
  intros Hlen. unfold calculateSilhouette.
  destruct (Nat.leb (length matrix) 1); [eauto|].
  assert (Hidx : forall p, Forall (fun idx => (idx < length matrix)%nat)
                                  (indicesWhere p clusters)).
  { intros p. eapply Forall_impl; [apply indicesWhere_lt|].
    simpl. intros. lia. }
  destruct (mapM_ok
              (fun '(i, point) => silhouetteSample matrix clusters i point)
              (imap pair matrix)) as [samples ->].
  - apply Forall_forall. intros [i point] _. unfold silhouetteSample.
    assert (Hai : exists ai,
      (if Nat.ltb 0 (length (indicesWhere
            (fun c idx => labelIs (clusters !! i) c && negb (Nat.eqb idx i))
            clusters))
       then avgDistance matrix point (indicesWhere
            (fun c idx => labelIs (clusters !! i) c && negb (Nat.eqb idx i))
            clusters)
       else Ok 0) = Ok ai).
    { destruct (Nat.ltb 0 _); [apply avgDistance_ok, Hidx|eauto]. }
    destruct Hai as [ai ->]. simpl.
    destruct (foldM_ok
                (fun bi otherC =>
                   avgDist ← avgDistance matrix point
                               (indicesWhere (fun c _ => Z.eqb c otherC) clusters);
                   Ok (JS.min bi avgDist))
                (fun _ => True)
                (List.filter (fun c => negb (labelIs (clusters !! i) c))
                             (JS.dedup_first [] clusters))
                infinity) as [bi ->].
    + apply Forall_forall. auto.
    + intros bi otherC _.
      destruct (avgDistance_ok matrix point
                  (indicesWhere (fun c _ => Z.eqb c otherC) clusters) (Hidx _))
        as [d ->]. simpl. eauto.
    + simpl. eauto.
  - simpl. eauto.
Qed.

End Silhouette.

Section KSelector.
Context {L : Library}.

(** One iteration that returns has clustered at [testK], taken the mean
    silhouette and recorded it, with [res.inertia] beside it. *)
Lemma sweepStep_inv (matrix : list (list float)) (st st1 : sweep) (testK : Z) :
  sweepStep matrix st testK = Ok st1 ->
  exists m,
    KMetric.k m = testK /\ measuredOn matrix m /\
    sw_metrics st1 = sw_metrics st ++ [m] /\
    (sw_maxSilhouette st1, sw_bestK st1)
    = keepBest (sw_maxSilhouette st, sw_bestK st) (recorded m).
Proof.
  unfold sweepStep. intros H.
  destruct (kmeans matrix testK (sw_rng st)) as [[r g]|] eqn:Hkm;
    simpl in H; [|discriminate].
  destruct (calculateSilhouette matrix (KMeansResult.clusters r))
    as [[sil samples]|] eqn:Hsil; simpl in H; [|discriminate].
  exists (KMetric.mk testK (KMeansResult.inertia r) sil).
  split; [reflexivity|]. split.
  { exists (sw_rng st), g, r, samples. auto. }
  unfold keepBest, recorded. simpl.
  destruct (JS.gt sil (sw_maxSilhouette st)); injection H as <-; auto.
Qed.

(** The loop of [getSuggestedK], run over the candidates [ks]: it appends
    one measured metric per candidate, in order, and its maximum and best
    [k] are the running maximum of what it appended. *)
Lemma sweep_inv (matrix : list (list float)) (ks : list Z) (st st' : sweep) :
  foldM (sweepStep matrix) ks st = Ok st' ->
  exists ms,
    sw_metrics st' = sw_metrics st ++ ms /\
    map KMetric.k ms = ks /\
    Forall (measuredOn matrix) ms /\
    (sw_maxSilhouette st', sw_bestK st')
    = fold_left keepBest (map recorded ms) (sw_maxSilhouette st, sw_bestK st).
Proof.
  revert st. induction ks as [|testK ks IH]; intros st H; simpl in H.
  - injection H as <-. exists []. rewrite app_nil_r. auto.
  - destruct (sweepStep matrix st testK) as [st1|] eqn:Hstep;
      simpl in H; [|discriminate].
    destruct (sweepStep_inv _ _ _ _ Hstep) as (m & Hk & Hm & Hms1 & Hbest1).
    destruct (IH _ H) as (ms & Hms & Hks & Hall & Hbest).
    exists (m :: ms). rewrite Hms, Hms1, <- app_assoc. simpl.
    split; [reflexivity|]. split; [now rewrite Hk, Hks|].
    split; [now constructor|]. now rewrite Hbest, Hbest1.
Qed.

Lemma sweepStep_ok (matrix : list (list float)) (st : sweep) (K : Z) :
  (forall g, exists r g',
     kmeans matrix K g = Ok (r, g') /\
     length (KMeansResult.clusters r) = length matrix) ->
  exists st1, sweepStep matrix st K = Ok st1.
Proof.
  intros HK. unfold sweepStep.
  destruct (HK (sw_rng st)) as (r & g' & -> & Hlen). simpl.
  destruct (calculateSilhouette_ok matrix (KMeansResult.clusters r))
    as (avg & samples & ->); [lia|]. simpl.
  destruct (JS.gt avg (sw_maxSilhouette st)); eauto.
Qed.

(** The loop returns when every clustering it asks for does, with a label
    per row. *)
Lemma sweep_ok (matrix : list (list float)) (ks : list Z) (st : sweep) :
  Forall (fun K => forall g, exists r g',
            kmeans matrix K g = Ok (r, g') /\
            length (KMeansResult.clusters r) = length matrix) ks ->
  exists st', foldM (sweepStep matrix) ks st = Ok st'.
Proof.
  intros Hks. revert st. induction Hks as [|K ks HK _ IH]; intros st.
  - simpl. eauto.
  - destruct (sweepStep_ok matrix st K HK) as [st1 Hst1].
    change (foldM (sweepStep matrix) (K :: ks) st)
      with (sweepStep matrix st K ≫= foldM (sweepStep matrix) ks).
    rewrite Hst1. simpl. apply IH.
Qed.

(** C8: on a matrix of [n >= 3] rows, whenever the clusterings of the sweep
    succeed with a label per row, the K-selector returns; the [k] it returns
    lies in [[2, min(10, n - 1)]]; it records one metric per candidate [k]
    of that range, in order, each with the mean silhouette of the labels of
    a clustering at that [k], and each with [wcss] undefined instead of the
    inertia of that clustering ([res.inertia] reads a property the result
    does not have); no candidate has a mean silhouette greater than the one
    of the returned [k], and every smaller candidate that has a number for
    its silhouette has a strictly smaller one. *)
Theorem getSuggestedK_first_maximum (matrix : list (list float)) (g : rng) :
  (3 <= length matrix)%nat ->
  (forall K g0, (2 <= K <= Z.min 10 (Z.of_nat (length matrix) - 1))%Z ->
     exists r g1, kmeans matrix K g0 = Ok (r, g1) /\
                  length (KMeansResult.clusters r) = length matrix) ->
  exists bestK metrics g',
    getSuggestedK matrix g = Ok (bestK, metrics, g') /\
    (2 <= bestK <= Z.min 10 (Z.of_nat (length matrix) - 1))%Z /\
    map KMetric.k metrics
    = seqZ 2 (Z.min 10 (Z.of_nat (length matrix) - 1) - 1) /\
    Forall (measuredOn matrix) metrics /\
    exists best,
      best ∈ metrics /\ KMetric.k best = bestK /\
      forall m, m ∈ metrics ->
        (KMetric.silhouette best <? KMetric.silhouette m) = false /\
        ((KMetric.k m < bestK)%Z -> is_nan (KMetric.silhouette m) = false ->
         (KMetric.silhouette m <? KMetric.silhouette best) = true).
Proof.
  intros Hn Hkm. unfold getSuggestedK, candidates.
  set (top := Z.min 10 (Z.of_nat (length matrix) - 1)) in *.
  assert (Htop : (2 <= top)%Z) by (unfold top; lia).
  destruct (sweep_ok matrix (seqZ 2 (top - 1)) (mkSweep [] neg_infinity 2 g))
    as [st Hst].
  { apply Forall_forall. intros K HK g0. apply elem_of_seqZ in HK.
    apply Hkm. lia. }
  rewrite Hst. simpl.
  destruct (sweep_inv _ _ _ _ Hst) as (ms & Hms & Hks & Hall & Hbest).
  simpl in Hms, Hbest. rewrite Hms.
  exists (sw_bestK st), ms, (sw_rng st). split; [reflexivity|].
  assert (Hfirst : exists m0 ms', ms = m0 :: ms' /\ KMetric.k m0 = 2%Z).
  { destruct ms as [|m0 ms'].
    - simpl in Hks. symmetry in Hks. apply (f_equal length) in Hks.
      rewrite length_seqZ in Hks. simpl in Hks. lia.
    - exists m0, ms'. split; [reflexivity|].
      assert (H0 : seqZ 2 (top - 1) !! 0%nat = Some (KMetric.k m0))
        by now rewrite <- Hks.
      apply lookup_seqZ in H0. lia. }
  assert (Hrange : forall m, m ∈ ms -> (2 <= KMetric.k m <= top)%Z).
  { intros m Hm. assert (Hk : KMetric.k m ∈ seqZ 2 (top - 1)).
    { rewrite <- Hks. apply list_elem_of_In, in_map, list_elem_of_In, Hm. }
    apply elem_of_seqZ in Hk. lia. }
  pose proof (keepBest_first_maximum (map recorded ms) neg_infinity 2) as Hmax.
  rewrite <- Hbest in Hmax.
  destruct Hmax as [(HM & Hb & Hno)|(l1 & l2 & Hsplit & HM & H1 & H2)].
  - (* nothing exceeded -Infinity: the default 2, the first candidate *)
    destruct Hfirst as (m0 & ms' & -> & Hk0). rewrite Hb.
    split; [lia|]. split; [assumption|]. split; [assumption|].
    exists m0. split; [left|]. split; [assumption|].
    intros m Hm. split; [|intros Hlt; specialize (Hrange m Hm); lia].
    rewrite Forall_forall in Hno.
    assert (Hm' : (neg_infinity <? KMetric.silhouette m) = false).
    { apply (Hno (recorded m)).
      apply list_elem_of_In, in_map, list_elem_of_In, Hm. }
    destruct (is_nan (KMetric.silhouette m)) eqn:Hnan.
    + now apply FloatFacts.ltb_nan_r.
    + rewrite (FloatFacts.not_above_neg_infinity _ Hnan Hm').
      apply ltb_neg_infinity_r.
  - (* the first candidate that no later one exceeds *)
    apply map_eq_app in Hsplit as (ms1 & ms2' & -> & <- & Hcons).
    apply map_eq_cons in Hcons as (best & ms2 & -> & Hrec & <-).
    unfold recorded in Hrec. injection Hrec as Hkb Hsb.
    rewrite Forall_map in H1, H2. rewrite Forall_forall in H1, H2.
    rewrite map_app in Hks. simpl in Hks.
    destruct (seqZ_split_sorted _ _ _ _ _ (eq_sym Hks)) as [Hlow Hhigh].
    rewrite Forall_map, Forall_forall in Hlow, Hhigh.
    assert (Hin : best ∈ ms1 ++ best :: ms2)
      by (apply elem_of_app; right; left).
    split; [specialize (Hrange best Hin); lia|].
    split; [now rewrite map_app|]. split; [assumption|].
    exists best. split; [assumption|]. split; [assumption|].
    intros m Hm. rewrite <- Hkb, <- Hsb in *.
    apply elem_of_app in Hm as [Hm|Hm];
      [|apply elem_of_cons in Hm as [->|Hm]].
    + specialize (H1 m Hm). simpl in H1. split; [|auto].
      destruct (is_nan (KMetric.silhouette m)) eqn:Hnan;
        [now apply FloatFacts.ltb_nan_r|]. apply ltb_asym. auto.
    + split; [apply FloatFacts.ltb_irrefl|lia].
    + split; [apply (H2 m Hm)|]. specialize (Hhigh m Hm). simpl in Hhigh. lia.
Qed.

End KSelector.

Section ReferenceLibrary.

Lemma nearestFrom_bound (p : list float) (cs : list (list float))
    (i best : nat) (bestD : float) :
  let r := Ref.nearestFrom p cs i best bestD in
  r = best \/ (i <= r < i + length cs)%nat.
Proof.
  revert i best bestD. induction cs as [|c cs IH]; intros i best bestD; simpl.
  - auto.
  - destruct (Ref.sqDist p c <? bestD).
    + destruct (IH (S i) i (Ref.sqDist p c)) as [->|H]; right; lia.
    + destruct (IH (S i) best bestD) as [->|H]; [auto|right; lia].
Qed.

Lemma nearest_bound (cs : list (list float)) (p : list float) :
  (0 < length cs)%nat -> (Ref.nearest cs p < length cs)%nat.
Proof.
  intros Hpos. unfold Ref.nearest.
  destruct (nearestFrom_bound p cs 0 0 infinity) as [->|H]; lia.
Qed.

Lemma lloyd_length (m cs : list (list float)) (n : nat) :
  length (Nat.iter n (Ref.lloydStep m) cs) = length cs.
Proof.
  induction n as [|n IH]; simpl; [reflexivity|].
  unfold Ref.lloydStep at 1. now rewrite length_imap.
Qed.

(** The reference clustering returns exactly when [0 < K <= n], with a
    label in [[0, K)] per row. *)
Lemma Ref_kmeans_ok (m : list (list float)) (K : Z) (g : nat) :
  (0 < K <= Z.of_nat (length m))%Z ->
  exists r, Ref.kmeans m K g = Ok (r, S g) /\
            length (KMeansResult.clusters r) = length m /\
            Forall (fun c => (0 <= c < K)%Z) (KMeansResult.clusters r).
Proof.
  intros HK. unfold Ref.kmeans.
  destruct (Z.leb_spec K 0); [lia|].
  destruct (Z.ltb_spec (Z.of_nat (length m)) K); [lia|]. simpl.
  eexists. split; [reflexivity|].
  cbn [KMeansResult.clusters]. rewrite !length_map.
  split; [reflexivity|].
  apply Forall_map, Forall_map, Forall_forall. intros p _.
  set (cs := Nat.iter Ref.iterations (Ref.lloydStep m) (take (Z.to_nat K) m)).
  assert (Hb : (Ref.nearest cs p < length cs)%nat).
  { apply nearest_bound. unfold cs. rewrite lloyd_length, length_take. lia. }
  unfold cs in Hb at 2. rewrite lloyd_length, length_take in Hb.
  change (0 <= Z.of_nat (Ref.nearest cs p) < K)%Z. lia.
Qed.

Lemma Ref_kmeans_inv (m : list (list float)) (K : Z) (g g' : nat)
    (r : KMeansResult.t) :
  Ref.kmeans m K g = Ok (r, g') -> (0 < K <= Z.of_nat (length m))%Z.
Proof.
  unfold Ref.kmeans.
  destruct (Z.leb_spec K 0), (Z.ltb_spec (Z.of_nat (length m)) K); simpl;
    try discriminate. lia.
Qed.

#[global] Instance Ref_contract : LibraryContract Ref.library.
Proof.
  split.
  - intros m K g r g' H. pose proof (Ref_kmeans_inv _ _ _ _ _ H) as HK.
    destruct (Ref_kmeans_ok m K g HK) as (r' & Hr & Hlen & Hall).
    change (Ref.kmeans m K g = Ok (r, g')) in H.
    rewrite Hr in H. injection H as <- _. auto.
  - intros m p H. change (Ref.pcaPredict m = Ok p) in H.
    unfold Ref.pcaPredict in H.
    destruct m; [discriminate|]. injection H as <-.
    simpl. f_equal. apply length_map.
Qed.

End ReferenceLibrary.

(** The K-selector theorem on the ten rows of [grid], with the reference
    library. *)
Lemma getSuggestedK_witness :
  let matrix := fullMatrixOf (L := Ref.library) grid ["a"; "b"] in
  exists bestK metrics g',
    getSuggestedK (L := Ref.library) matrix 0%nat = Ok (bestK, metrics, g') /\
    (2 <= bestK <= Z.min 10 (Z.of_nat (length matrix) - 1))%Z /\
    map KMetric.k metrics
    = seqZ 2 (Z.min 10 (Z.of_nat (length matrix) - 1) - 1) /\
    Forall (measuredOn matrix) metrics /\
    exists best,
      best ∈ metrics /\ KMetric.k best = bestK /\
      forall m, m ∈ metrics ->
        (KMetric.silhouette best <? KMetric.silhouette m) = false /\
        ((KMetric.k m < bestK)%Z -> is_nan (KMetric.silhouette m) = false ->
         (KMetric.silhouette m <? KMetric.silhouette best) = true).
Proof.
  intros matrix.
  apply (getSuggestedK_first_maximum (L := Ref.library) matrix 0%nat).
  - simpl. lia.
  - intros K g0 HK.
    destruct (Ref_kmeans_ok matrix K g0) as (r & Hr & Hlen & _).
    + change (length matrix) with 10%nat in *. lia.
    + exists r, (S g0). auto.
Defined.

(** ** The full-population view *)

Section IndexFacts.

Lemma includes_elem_of (x : Z) (l : list Z) :
  JS.includes x l = true <-> x ∈ l.
Proof.
  unfold JS.includes. rewrite existsb_exists. split.
  - intros (y & Hy & Heq). apply Z.eqb_eq in Heq as ->.
    now apply list_elem_of_In.
  - intros Hx. exists x. split; [now apply list_elem_of_In|apply Z.eqb_refl].
Qed.

Lemma includes_not_elem_of (x : Z) (l : list Z) :
  JS.includes x l = false <-> x ∉ l.
Proof.
  rewrite <- includes_elem_of. destruct (JS.includes x l); intuition congruence.
Qed.

Lemma indexOf_not_elem_of (x : Z) (l : list Z) :
  x ∉ l -> JS.indexOf x l = (-1)%Z.
Proof.
  induction l as [|y l IH]; simpl; intros Hx; [reflexivity|].
  apply not_elem_of_cons in Hx as [Hne Hx].
  destruct (Z.eqb_spec x y); [contradiction|]. now rewrite IH.
Qed.

(** [indexOf] finds a position that holds the value. *)
Lemma indexOf_elem_of (x : Z) (l : list Z) :
  x ∈ l -> exists n, JS.indexOf x l = Z.of_nat n /\ l !! n = Some x.
Proof.
  induction l as [|y l IH]; simpl; intros Hx.
  - now apply not_elem_of_nil in Hx.
  - destruct (Z.eqb_spec x y) as [->|Hne]; [exists 0%nat; auto|].
    apply elem_of_cons in Hx as [?|Hx]; [contradiction|].
    destruct (IH Hx) as (n & -> & Hn). exists (S n).
    destruct (Z.eqb_spec (Z.of_nat n) (-1)); [lia|]. split; [lia|assumption].
Qed.

Lemma at_of_nat {A} (l : list A) (n : nat) : JS.at_ l (Z.of_nat n) = l !! n.
Proof.
  unfold JS.at_. destruct (Z.ltb_spec (Z.of_nat n) 0); [lia|].
  now rewrite Nat2Z.id.
Qed.

Lemma elem_of_indices {A} (data : list A) (i : nat) :
  (i < length data)%nat -> Z.of_nat i ∈ imap (fun i _ => Z.of_nat i) data.
Proof.
  intros Hi. destruct (lookup_lt_is_Some_2 data i Hi) as [a Ha].
  apply list_elem_of_lookup. exists i. now rewrite list_lookup_imap, Ha.
Qed.

(** [filter((_, i) => p(i))] keeps as many elements as the filter of the
    indices does. *)
Lemma length_filteri_indices {A B} (p : nat -> bool) (q : Z -> bool)
    (h : nat -> nat) (l1 : list A) (l2 : list B) :
  length l1 = length l2 -> (forall i, q (Z.of_nat i) = p i) ->
  length (omap (fun '(i, a) => if p i then Some a else None)
               (imap (fun i a => (h i, a)) l1))
  = length (List.filter q (imap (fun i _ => Z.of_nat (h i)) l2)).
Proof.
  intros Hlen Hpq. revert l2 h Hlen.
  induction l1 as [|a l1 IH]; intros [|b l2] h Hlen; try discriminate;
    [reflexivity|].
  rewrite !imap_cons. simpl. rewrite Hpq.
  injection Hlen as Hlen. specialize (IH l2 (h ∘ S) Hlen).
  destruct (p (h 0%nat)); simpl; [f_equal|]; exact IH.
Qed.

Lemma elem_of_List_filter {A} (q : A -> bool) (l : list A) (x : A) :
  x ∈ List.filter q l <-> x ∈ l /\ q x = true.
Proof. now rewrite !list_elem_of_In, filter_In. Qed.

(** Every label of the view in [[0, k)]: the counts per label add up to
    the size of the view. *)
Lemma labelCount_sum (view : list PcaPoint.t) (k : Z) :
  Forall (fun p => exists c, PcaPoint.cluster p = Some c /\ (0 <= c < k)%Z)
         view ->
  sum_list (map (labelCount view) (seqZ 0 k)) = length view.
Proof.
  induction 1 as [|p view (c & Hc & Hrange) _ IH]; simpl.
  - induction (seqZ 0 k) as [|c l IHl]; simpl; [reflexivity|exact IHl].
  - rewrite <- IH. clear IH.
    assert (Hin : c ∈ seqZ 0 k) by (apply elem_of_seqZ; lia).
    pose proof (NoDup_seqZ 0 k) as Hnd.
    induction (seqZ 0 k) as [|c' l IHl]; [now apply not_elem_of_nil in Hin|].
    apply NoDup_cons in Hnd as [Hnotin Hnd]. simpl.
    unfold labelCount at 1 3. rewrite filter_cons.
    destruct (decide (PcaPoint.cluster p = Some c')) as [Heq|Hne].
    + assert (c' = c) by congruence. subst c'. simpl. f_equal. f_equal.
      clear IHl Hin Hnd. induction l as [|c2 l IHl2]; simpl; [reflexivity|].
      apply not_elem_of_cons in Hnotin as [Hne Hnotin].
      unfold labelCount at 1 3. rewrite filter_cons.
      destruct (decide (PcaPoint.cluster p = Some c2)); [congruence|].
      f_equal. now apply IHl2.
    + apply elem_of_cons in Hin as [->|Hin]; [congruence|].
      rewrite (IHl Hin Hnd). lia.
Qed.

End IndexFacts.

Lemma elem_of_flagged (scores : list float) (threshold : float) (x : Z) :
  x ∈ flagged scores threshold <->
  exists i s, scores !! i = Some s /\ (threshold <? s) = true /\ x = Z.of_nat i.
Proof.
  unfold flagged. rewrite list_elem_of_filter, elem_of_lookup_imap.
  unfold JS.gt. split.
  - intros (Hne & i & s & -> & Hs). exists i, s.
    destruct (threshold <? s); [auto|congruence].
  - intros (i & s & Hs & Hgt & ->). split; [lia|].
    exists i, s. now rewrite Hgt.
Qed.

Section FullView.
Context {L : Library} {C : LibraryContract L}.

Lemma length_scale (fullMatrix : list (list float)) (means stds : list float) :
  length (scale fullMatrix means stds) = length fullMatrix.
Proof. unfold scale. apply length_map. Qed.

Lemma length_fullMatrixOf (data : list DataRow) (cols : list string) :
  length (fullMatrixOf data cols) = length data.
Proof. unfold fullMatrixOf. apply length_map. Qed.

(** The detector returns positions of rows. *)
Lemma detectOutliers_range (matrix : list (list float)) (outliers : list Z) :
  detectOutliers matrix = Ok outliers ->
  Forall (fun i => (0 <= i < Z.of_nat (length matrix))%Z) outliers.
Proof.
  unfold detectOutliers, outliersOfProjection.
  destruct (Nat.ltb (length matrix) 5); [intros [= <-]; constructor|].
  destruct (pcaPredict matrix) as [projected|] eqn:Hpca; [|discriminate].
  simpl. unfold outlierScores.
  destruct (mapM _ projected) as [scores|] eqn:Hscores; [|discriminate].
  simpl. destruct (ss.mean scores) as [meanScore|]; [|discriminate].
  simpl. destruct (ss.standardDeviation scores) as [stdScore|]; [|discriminate].
  simpl. intros [= <-]. apply Forall_forall. intros i Hi.
  apply elem_of_flagged in Hi as (n & s & Hn & _ & ->).
  apply lookup_lt_Some in Hn.
  apply mapM_lookup in Hscores as [Hlen _].
  apply pcaPredict_rows in Hpca. lia.
Qed.

(** The label of a point that [mappingIndices] holds at a position the
    label array covers. *)
Lemma pcaPoint_kept (outliers mapping clusters : list Z) (i : nat)
    (q : list float) (k : Z) :
  Z.of_nat i ∈ mapping -> length clusters = length mapping ->
  Forall (fun c => (0 <= c < k)%Z) clusters ->
  exists c, PcaPoint.cluster (pcaPoint outliers mapping clusters i q) = Some c
            /\ (0 <= c < k)%Z.
Proof.
  intros Hin Hlen Hall. unfold pcaPoint. simpl.
  destruct (indexOf_elem_of _ _ Hin) as (n & -> & Hn).
  destruct (Z.eqb_spec (Z.of_nat n) (-1)); [lia|]. simpl.
  rewrite at_of_nat.
  destruct (lookup_lt_is_Some_2 clusters n) as [c Hc].
  { rewrite Hlen. eapply lookup_lt_Some; eassumption. }
  exists c. split; [assumption|].
  rewrite Forall_forall in Hall. apply Hall.
  eapply list_elem_of_lookup_2; eassumption.
Qed.

(** C9: in the view of a run that returns there is one point per row; when
    [excludeOutliers] is false every point has a label in [[0, k)] and the
    counts per label add up to the number of rows; when it is true the
    points of the returned outlier indices, and only they, have the label
    -1 and the outlier mark, and every other point has a label in
    [[0, k)]. *)
Theorem performClustering_view_labels (data : list DataRow)
    (cols : list string) (eo : flag) (g g' : rng) (r : ClusterResult.t) :
  performClustering data cols eo g = Ok (r, g') ->
  let view := ClusterResult.pcaData r in
  let k := ClusterResult.k r in
  let outliers := ClusterResult.outlierIndices r in
  length view = length data /\
  Forall (fun i => (0 <= i < Z.of_nat (length data))%Z) outliers /\
  (truthy eo = false ->
     Forall (fun p => exists c, PcaPoint.cluster p = Some c /\ (0 <= c < k)%Z)
            view /\
     sum_list (map (labelCount view) (seqZ 0 k)) = length data) /\
  (truthy eo = true ->
     forall i p, view !! i = Some p ->
       (Z.of_nat i ∈ outliers ->
          PcaPoint.cluster p = Some (-1)%Z /\ PcaPoint.isOutlier p = true) /\
       (Z.of_nat i ∉ outliers ->
          PcaPoint.isOutlier p = false /\
          exists c, PcaPoint.cluster p = Some c /\ (0 <= c < k)%Z)).
Proof.
  intros Hrun view k outliers.
  destruct (performClustering_inv _ _ _ _ _ _ Hrun)
    as (t & g1 & ans & _ & _ & Hscaled & Hdet & Hsel & _ & Hkm & Hcl & _ & _
        & Hpca & Hview & _).
  destruct (kmeans_labels _ _ _ _ _ Hkm) as [Hlen Hall].
  rewrite <- Hcl in Hlen, Hall.
  apply pcaPredict_rows in Hpca.
  rewrite Hscaled, length_scale, length_fullMatrixOf in Hpca.
  assert (Hsize : length view = length data).
  { unfold view. now rewrite Hview, length_imap. }
  assert (Hpoint : forall i p, view !! i = Some p ->
            (i < length data)%nat /\
            exists q, p = pcaPoint outliers (r_mappingIndices t)
                                   (ClusterResult.clusters r) i q).
  { intros i p Hp. split.
    - rewrite <- Hsize. eapply lookup_lt_Some; eassumption.
    - unfold view in Hp. rewrite Hview, list_lookup_imap in Hp.
      destruct (r_fullProjected t !! i) as [q|]; [|discriminate].
      injection Hp as <-. eauto. }
  split; [assumption|]. split.
  { apply detectOutliers_range in Hdet.
    now rewrite Hscaled, length_scale, length_fullMatrixOf in Hdet. }
  unfold selectRows in Hsel. split; intros Heo;
    rewrite Heo in Hsel; injection Hsel as Hmap Hfin _.
  - assert (Hlabels : Forall (fun p => exists c,
              PcaPoint.cluster p = Some c /\ (0 <= c < k)%Z) view).
    { apply Forall_forall. intros p Hp.
      apply list_elem_of_lookup in Hp as [i Hi].
      destruct (Hpoint i p Hi) as [Hlt [q ->]].
      apply pcaPoint_kept; [|rewrite Hlen|assumption].
      - rewrite <- Hmap. now apply elem_of_indices.
      - now rewrite <- Hfin, <- Hmap, Hscaled, length_scale,
          length_fullMatrixOf, length_imap. }
    split; [assumption|]. rewrite <- Hsize. now apply labelCount_sum.
  - intros i p Hi. destruct (Hpoint i p Hi) as [Hlt [q ->]].
    split; intros Hout.
    + unfold pcaPoint. simpl. split; [|now apply includes_elem_of].
      rewrite indexOf_not_elem_of; [reflexivity|].
      rewrite <- Hmap. intros Hin.
      apply elem_of_List_filter in Hin as [_ Hin].
      apply negb_true_iff, includes_not_elem_of in Hin. contradiction.
    + split; [now apply includes_not_elem_of|].
      apply pcaPoint_kept; [|rewrite Hlen|assumption].
      * rewrite <- Hmap. apply elem_of_List_filter. split.
        -- now apply elem_of_indices.
        -- now apply negb_true_iff, includes_not_elem_of.
      * rewrite <- Hfin, <- Hmap. unfold JS.filteri.
        apply (length_filteri_indices
                 (fun i => negb (JS.includes (Z.of_nat i) outliers))
                 (fun i => negb (JS.includes i outliers)) id).
        -- now rewrite Hscaled, length_scale, length_fullMatrixOf.
        -- reflexivity.
Qed.

End FullView.

(** The view theorem on the run over [grid] that excludes outliers: the
    row 9 is the outlier. *)
Lemma performClustering_view_witness :
  exists r g',
    performClustering (L := Ref.library) grid ["a"; "b"] (FBool true) 0%nat
    = Ok (r, g') /\
    ClusterResult.outlierIndices r = [9%Z] /\
    let view := ClusterResult.pcaData r in
    let k := ClusterResult.k r in
    let outliers := ClusterResult.outlierIndices r in
    length view = length grid /\
    Forall (fun i => (0 <= i < Z.of_nat (length grid))%Z) outliers /\
    (truthy (FBool true) = false ->
       Forall (fun p => exists c, PcaPoint.cluster p = Some c /\ (0 <= c < k)%Z)
              view /\
       sum_list (map (labelCount view) (seqZ 0 k)) = length grid) /\
    (truthy (FBool true) = true ->
       forall i p, view !! i = Some p ->
         (Z.of_nat i ∈ outliers ->
            PcaPoint.cluster p = Some (-1)%Z /\ PcaPoint.isOutlier p = true) /\
         (Z.of_nat i ∉ outliers ->
            PcaPoint.isOutlier p = false /\
            exists c, PcaPoint.cluster p = Some c /\ (0 <= c < k)%Z)).
Proof.
  destruct (performClustering (L := Ref.library) grid ["a"; "b"] (FBool true)
              0%nat) as [[r g']|e] eqn:E; [|vm_compute in E; discriminate].
  exists r, g'. split; [reflexivity|]. split.
  - vm_compute in E. injection E as <- _. reflexivity.
  - exact (performClustering_view_labels (L := Ref.library) grid ["a"; "b"]
             (FBool true) 0%nat g' r E).
Defined.

(** ** Small inputs *)

Section SmallInputs.
Context {L : Library}.

Lemma filteri_all {A} (p : nat -> bool) (l : list A) :
  (forall i, p i = true) -> JS.filteri p l = l.
Proof.
  intros Hp. unfold JS.filteri.
  change (imap pair l) with (imap (fun i a => (id i, a)) l).
  generalize (@id nat). induction l as [|a l IH]; intros h; [reflexivity|].
  rewrite imap_cons. simpl. rewrite Hp. f_equal. apply (IH (h ∘ S)).
Qed.

Lemma List_filter_all {A} (q : A -> bool) (l : list A) :
  (forall x, q x = true) -> List.filter q l = l.
Proof.
  intros Hq. induction l as [|a l IH]; simpl; [reflexivity|].
  now rewrite Hq, IH.
Qed.

(** Without outliers both branches of the selection keep every row. *)
Lemma selectRows_no_outliers (eo : flag) (data : list DataRow)
    (scaled : list (list float)) :
  selectRows eo data scaled []
  = (imap (fun i _ => Z.of_nat i) data, scaled, data).
Proof.
  unfold selectRows. destruct (truthy eo); [|reflexivity].
  now rewrite List_filter_all, !filteri_all.
Qed.

(** The fit succeeds on every non-empty row set. *)
Lemma fit_ok (data : list DataRow) (cols : list string) :
  data <> [] ->
  exists fullMeans fullStds,
    fullMeansOf (fullMatrixOf data cols) cols = Ok fullMeans /\
    fullStdsOf (fullMatrixOf data cols) cols = Ok fullStds.
Proof.
  intros Hne.
  assert (Hpos : forall j, (0 < length (column (fullMatrixOf data cols) j))%nat).
  { intros j. unfold column. rewrite length_map, length_fullMatrixOf.
    destruct data; [congruence|simpl; lia]. }
  destruct (mapM_ok (fun j => ss.mean (column (fullMatrixOf data cols) j))
              (seq 0 (length cols))) as [fullMeans HM].
  { apply Forall_forall. intros j _. rewrite mean_nonempty by apply Hpos. eauto. }
  destruct (mapM_ok
              (fun j => sd ← ss.standardDeviation
                              (column (fullMatrixOf data cols) j);
                        Ok (JS.or_else sd 1))
              (seq 0 (length cols))) as [fullStds HS].
  { apply Forall_forall. intros j _.
    erewrite standardDeviation_population by (apply mean_nonempty, Hpos).
    simpl. eauto. }
  eauto.
Qed.

(** Below three rows the sweep has no candidate: the K-selector returns its
    initial values without clustering. *)
Lemma getSuggestedK_small (matrix : list (list float)) (g : rng) :
  (length matrix < 3)%nat -> getSuggestedK matrix g = Ok (2%Z, [], g).
Proof.
  intros Hlen. unfold getSuggestedK, candidates.
  replace (seqZ 2 _) with (@nil Z); [reflexivity|].
  symmetry. apply seqZ_nil. lia.
Qed.

Lemma detectOutliers_small (matrix : list (list float)) :
  (length matrix < 5)%nat -> detectOutliers matrix = Ok [].
Proof.
  intros Hlen. unfold detectOutliers.
  now destruct (Nat.ltb_spec (length matrix) 5); [|lia].
Qed.

(** C1, amended: [performClustering] checks nothing itself, and fails only
    where a call it makes throws.  On an empty row set with a selected
    column the first call, [ss.mean], throws.  On one or two rows the fit
    succeeds, the outlier detection is skipped and the K-selector, whose
    sweep is empty, returns its default [k = 2] with no metric; the run then
    clusters at [k = 2]: it fails with the exception of that clustering when
    it throws, and returns a complete result with [k = 2] when the
    clustering (with no more labels than rows) and the projection
    succeed. *)
Theorem performClustering_small_inputs (data : list DataRow)
    (cols : list string) (eo : flag) (g : rng) :
  (data = [] -> cols <> [] ->
   performClustering data cols eo g
   = Throw (Error "mean requires at least one data point")) /\
  ((0 < length data < 3)%nat ->
   exists fullMeans fullStds,
     fullMeansOf (fullMatrixOf data cols) cols = Ok fullMeans /\
     fullStdsOf (fullMatrixOf data cols) cols = Ok fullStds /\
     let matrix := scale (fullMatrixOf data cols) fullMeans fullStds in
     length matrix = length data /\
     detectOutliers matrix = Ok [] /\
     getSuggestedK matrix g = Ok (2%Z, [], g) /\
     (forall e, kmeans matrix 2 g = Throw e ->
        performClustering data cols eo g = Throw e) /\
     (forall ans g2 projected,
        kmeans matrix 2 g = Ok (ans, g2) ->
        (length (KMeansResult.clusters ans) <= length matrix)%nat ->
        pcaPredict matrix = Ok projected ->
        exists r,
          performClustering data cols eo g = Ok (r, g2) /\
          ClusterResult.k r = 2%Z /\ ClusterResult.metrics r = [] /\
          ClusterResult.clusters r = KMeansResult.clusters ans /\
          ClusterResult.outlierIndices r = [])).
Proof.
  split.
  - intros -> Hcols. unfold performClustering, fullMeansOf.
    destruct cols as [|c cols]; [congruence|]. reflexivity.
  - intros Hlen.
    destruct (fit_ok data cols) as (fullMeans & fullStds & HM & HS).
    { destruct data; [simpl in Hlen; lia|congruence]. }
    exists fullMeans, fullStds. split; [assumption|]. split; [assumption|].
    intros matrix.
    assert (Hrows : length matrix = length data)
      by (unfold matrix; now rewrite length_scale, length_fullMatrixOf).
    assert (HO : detectOutliers matrix = Ok [])
      by (apply detectOutliers_small; lia).
    assert (HK : getSuggestedK matrix g = Ok (2%Z, [], g))
      by (apply getSuggestedK_small; lia).
    split; [assumption|]. split; [assumption|]. split; [assumption|].
    unfold performClustering. rewrite HM, HS. simpl. fold matrix.
    rewrite HO. simpl. rewrite selectRows_no_outliers, HK. simpl.
    split.
    + intros e ->. reflexivity.
    + intros ans g2 projected -> Hlabels ->. simpl.
      destruct (calculateSilhouette_ok matrix (KMeansResult.clusters ans)
                  Hlabels) as (avg & samples & ->). simpl.
      rewrite clusterStats_ok. simpl.
      eexists. split; [reflexivity|]. simpl. auto.
Qed.

End SmallInputs.

(** C1, as stated, fails on two rows: the run is not rejected, it returns a
    result with [k = 2], one cluster per row and no metric. *)
Lemma performClustering_two_rows_counterexample :
  exists r g',
    performClustering (L := Ref.library) [row2 0 0; row2 1 2] ["a"; "b"]
                      (FBool false) 0%nat
    = Ok (r, g') /\
    ClusterResult.k r = 2%Z /\ ClusterResult.clusters r = [0; 1]%Z /\
    ClusterResult.metrics r = [] /\ length (ClusterResult.pcaData r) = 2%nat.
Proof.
  eexists _, _. split; [vm_compute; reflexivity|]. vm_compute. auto.
Qed.

(** ** The mode switch *)

Section ModeSwitch.
Context {L : Library}.

(** C2: the call of [switchClusterMode] hands [k] to the parameter
    [excludeOutliers]: a run that returns carries the number [k] as its
    flag, whatever the mode asked for; the mode has no effect on the result;
    and the [k] of the result is the one the K-selector chose on the
    clustered matrix, not the one supplied. *)
Theorem switchClusterMode_binds_k_to_flag (data : list DataRow)
    (cols : list string) (clusterResult : ClusterResult.t) (mode : bool)
    (g g' : rng) (r : ClusterResult.t) :
  switchClusterMode data cols clusterResult mode g = Ok (r, g') ->
  ClusterResult.excludeOutliers r
  = FNum (PrimFloat.of_uint63 (Uint63.of_Z (ClusterResult.k clusterResult))) /\
  ClusterResult.excludeOutliers r <> FBool mode /\
  switchClusterMode data cols clusterResult (negb mode) g = Ok (r, g') /\
  exists matrix g1,
    getSuggestedK matrix g
    = Ok (ClusterResult.k r, ClusterResult.metrics r, g1).
Proof.
  unfold switchClusterMode. intros Hrun.
  destruct (performClustering_inv _ _ _ _ _ _ Hrun)
    as (t & g1 & ans & _ & _ & _ & _ & _ & HK & _ & _ & _ & _ & _ & _ & _ & _
        & Heo).
  rewrite Heo. split; [reflexivity|]. split; [discriminate|].
  split; [assumption|]. eauto.
Qed.

End ModeSwitch.

(** The mode-switch theorem on [grid]: after a run that chose [k = 2], the
    switch to the mode that keeps outliers excludes them, with the flag 2,
    and chooses [k = 8]. *)
Lemma switchClusterMode_witness :
  exists prev g1 r g2,
    performClustering (L := Ref.library) grid ["a"; "b"] (FBool false) 0%nat
    = Ok (prev, g1) /\
    switchClusterMode (L := Ref.library) grid ["a"; "b"] prev false g1
    = Ok (r, g2) /\
    ClusterResult.k prev = 2%Z /\ ClusterResult.k r = 8%Z /\
    truthy (ClusterResult.excludeOutliers r) = true /\
    PcaPoint.cluster <$> ClusterResult.pcaData r !! 9%nat = Some (Some (-1)%Z) /\
    ClusterResult.excludeOutliers r
    = FNum (PrimFloat.of_uint63 (Uint63.of_Z (ClusterResult.k prev))) /\
    ClusterResult.excludeOutliers r <> FBool false /\
    switchClusterMode (L := Ref.library) grid ["a"; "b"] prev (negb false) g1
    = Ok (r, g2) /\
    exists matrix g3,
      getSuggestedK (L := Ref.library) matrix g1
      = Ok (ClusterResult.k r, ClusterResult.metrics r, g3).
Proof.
  destruct (performClustering (L := Ref.library) grid ["a"; "b"] (FBool false)
              0%nat) as [[prev g1]|e] eqn:E1; [|vm_compute in E1; discriminate].
  pose proof E1 as E1'. vm_compute in E1'. injection E1' as Hprev Hg1.
  destruct (switchClusterMode (L := Ref.library) grid ["a"; "b"] prev false g1)
    as [[r g2]|e] eqn:E2.
  - exists prev, g1, r, g2. split; [reflexivity|]. split; [exact E2|].
    pose proof E2 as E2'. rewrite <- Hprev, <- Hg1 in E2'.
    vm_compute in E2'. injection E2' as Hr Hg2.
    split; [now rewrite <- Hprev|]. split; [now rewrite <- Hr|].
    split; [now rewrite <- Hr|]. split; [now rewrite <- Hr|].
    exact (switchClusterMode_binds_k_to_flag (L := Ref.library) grid
             ["a"; "b"] prev false g1 g2 r E2).
  - rewrite <- Hprev, <- Hg1 in E2. vm_compute in E2. discriminate.
Defined.

(** ** The outlier detector *)

(** C7: the detector skips populations of fewer than 5 rows and otherwise
    flags exactly the points whose score exceeds the threshold, but the
    distances behind the scores run over every coordinate of the projected
    points, not over two: on [corners] the four raised rows are flagged,
    while in the first two coordinates of the same projection every score
    is 0 and no row exceeds the threshold. *)
Theorem detectOutliers_measures_every_component :
  (forall (L : Library) (matrix : list (list float)),
     (length matrix < 5)%nat -> detectOutliers matrix = Ok []) /\
  (forall (scores : list float) (threshold : float) (x : Z),
     x ∈ flagged scores threshold <->
     exists i s,
       scores !! i = Some s /\ (threshold <? s) = true /\ x = Z.of_nat i) /\
  detectOutliers (L := Ref.library) corners = Ok [6; 13; 20; 27]%Z /\
  exists projected,
    Ref.pcaPredict corners = Ok projected /\
    Forall (fun p => length p = 3%nat) projected /\
    outliersOfProjection projected = Ok [6; 13; 20; 27]%Z /\
    outlierScores (List.map (take 2) projected) = Ok (replicate 28 0) /\
    outliersOfProjection (List.map (take 2) projected) = Ok [].
Proof.
  split; [intros L matrix; apply detectOutliers_small|].
  split; [apply elem_of_flagged|].
  split; [vm_compute; reflexivity|].
  eexists. split; [vm_compute; reflexivity|].
  split; [repeat constructor|]. vm_compute. auto.
Qed.

(** * The rest of the engine

    What the source shows about the functions of the engine beyond the
    statements of the design document. *)

(** ** The feature matrix and the distance *)

Section FeatureMatrix.
Context {L : Library}.

Lemma numeric_not_nan (d : DataRow) (col : string) :
  is_nan (numeric d col) = false.
Proof.
  unfold numeric, JS.or_else.
  destruct (JS.falsy (Number (d !! col))) eqn:E; [reflexivity|].
  unfold JS.falsy in E. now apply orb_false_iff in E.
Qed.

(** X1: the feature matrix [data.map(d => selectedCols.map(c => Number(d[c])
    || 0))] has one row for each row of the data and one entry for each
    selected column, and no entry is [NaN]: a missing or [null] cell gives
    [0], a number that is [NaN] or zero gives [0], and any other number
    gives itself. *)
Theorem fullMatrixOf_cells (data : list DataRow) (cols : list string) :
  let m := fullMatrixOf data cols in
  length m = length data /\
  Forall (fun row => length row = length cols) m /\
  forall r i d col, data !! r = Some d -> cols !! i = Some col ->
    exists v,
      cellOf m r i = Some v /\ is_nan v = false /\
      (d !! col = None \/ d !! col = Some CNull -> v = 0) /\
      (forall x, d !! col = Some (CNum x) -> v = if JS.falsy x then 0 else x).
Proof.
  intros m. split; [apply length_map|]. split.
  - apply Forall_forall. intros row Hrow. unfold m, fullMatrixOf in Hrow.
    apply list_elem_of_In, in_map_iff in Hrow as (d & <- & _).
    apply length_map.
  - intros r i d col Hr Hi. exists (numeric d col).
    split; [|split; [apply numeric_not_nan|split]].
    + unfold cellOf, m, fullMatrixOf. rewrite lookup_map, Hr. simpl.
      now rewrite lookup_map, Hi.
    + unfold numeric. intros [-> | ->]; reflexivity.
    + unfold numeric. intros x ->. reflexivity.
Qed.

End FeatureMatrix.

Section Distance.

Lemma fold_squares_zeroish (b : list float) (l : list (nat * float)) (acc : float) :
  Forall (fun '(i, val) => zeroish (val - JS.idx b i)) l -> zeroish acc ->
  zeroish (fold_left (fun acc '(i, val) => acc + JS.pow2 (val - JS.idx b i)) l acc).
Proof.
  intros Hl. revert acc. induction Hl as [|[i val] l Hx _ IH]; intros acc Hacc;
    simpl; [assumption|].
  apply IH, FloatFacts.zeroish_add; [assumption|].
  now apply FloatFacts.zeroish_mul_l.
Qed.

Lemma fold_squares_zero (b : list float) (l : list (nat * float)) :
  Forall (fun '(i, val) => val - JS.idx b i = 0) l ->
  fold_left (fun acc '(i, val) => acc + JS.pow2 (val - JS.idx b i)) l 0 = 0.
Proof.
  induction 1 as [|[i val] l Hx _ IH]; simpl; [reflexivity|].
  rewrite Hx. exact IH.
Qed.

Lemma idx_imap_pair (p : list float) (i : nat) (val : float) :
  (i, val) ∈ imap pair p -> JS.idx p i = val.
Proof.
  intros H. apply elem_of_imap_pair in H. unfold JS.idx.
  now rewrite nth_lookup, H.
Qed.

(** X2: the distance of a point to itself is a zero or [NaN], and it is
    [0] when every coordinate of the point is finite. *)
Theorem euclideanDistance_self (p : list float) :
  zeroish (euclideanDistance p p) /\
  (Forall (fun v => is_finite v = true) p -> euclideanDistance p p = 0).
Proof.
  unfold euclideanDistance. split.
  - apply FloatFacts.zeroish_sqrt, fold_squares_zeroish;
      [|exact FloatFacts.zeroish_0].
    apply Forall_forall. intros [i val] Hin.
    rewrite (idx_imap_pair _ _ _ Hin). apply FloatFacts.zeroish_sub_diag.
  - intros Hfin. rewrite fold_squares_zero; [reflexivity|].
    apply Forall_forall. intros [i val] Hin.
    rewrite (idx_imap_pair _ _ _ Hin). apply FloatFacts.sub_diag_finite.
    rewrite Forall_forall in Hfin. apply Hfin.
    apply elem_of_imap_pair in Hin. eapply list_elem_of_lookup_2; eassumption.
Qed.

End Distance.

(** ** The silhouette *)

Section SilhouetteFacts.
Context {L : Library}.

Lemma silhouetteSample_inv (matrix : list (list float)) (clusters : list Z)
    (i : nat) (point : list float) (s : Sample.t) :
  silhouetteSample matrix clusters i point = Ok s ->
  Sample.cluster s = clusters !! i /\ is_nan (Sample.value s) = false.
Proof.
  unfold silhouetteSample. intros H.
  destruct (if Nat.ltb 0 _ then _ else _) as [ai|]; simpl in H; [|discriminate].
  destruct (foldM _ _ _) as [bi|]; simpl in H; [|discriminate].
  injection H as <-. simpl. split; [reflexivity|].
  destruct (is_nan ((bi - ai) / JS.max ai bi)) eqn:E; [reflexivity|exact E].
Qed.

(** What a run of [calculateSilhouette] that returns has done. *)
Lemma calculateSilhouette_inv (matrix : list (list float)) (clusters : list Z)
    (avg : float) (samples : list Sample.t) :
  calculateSilhouette matrix clusters = Ok (avg, samples) ->
  ((length matrix <= 1)%nat /\ avg = 0 /\ samples = []) \/
  ((2 <= length matrix)%nat /\ length samples = length matrix /\
   avg = fold_left (fun acc s => acc + Sample.value s) samples 0
         / JS.ofNat (length matrix) /\
   forall i s, samples !! i = Some s ->
     Sample.cluster s = clusters !! i /\ is_nan (Sample.value s) = false).
Proof.
  unfold calculateSilhouette. intros H.
  destruct (Nat.leb_spec (length matrix) 1) as [Hn|Hn].
  - injection H as <- <-. left. auto.
  - destruct (mapM _ _) as [samples'|] eqn:Hmap; simpl in H; [|discriminate].
    injection H as <- <-. right.
    destruct (mapM_lookup _ _ _ Hmap) as [Hlen Hall].
    rewrite length_imap in Hlen.
    split; [lia|]. split; [assumption|]. split; [reflexivity|].
    intros i s Hs.
    destruct (lookup_lt_is_Some_2 matrix i) as [point Hp].
    { rewrite <- Hlen. eapply lookup_lt_Some; eassumption. }
    destruct (Hall i (i, point)) as (s' & Hs' & Hrun).
    { now rewrite list_lookup_imap, Hp. }
    rewrite Hs in Hs'. injection Hs' as <-.
    now apply (silhouetteSample_inv matrix clusters i point).
Qed.

(** X3: when [calculateSilhouette] returns, it returns no sample and the
    average [0] for a matrix of at most one row; otherwise it returns one
    sample for each row, the average is the sum of the sample values in
    order divided by the number of rows, no sample value is [NaN], and the
    sample of the row [i] carries [clusters[i]] (which is [undefined] when
    the labels are too few). *)
Theorem calculateSilhouette_samples (matrix : list (list float))
    (clusters : list Z) (avg : float) (samples : list Sample.t) :
  calculateSilhouette matrix clusters = Ok (avg, samples) ->
  length samples = (if Nat.leb (length matrix) 1 then 0 else length matrix)%nat /\
  avg = (if Nat.leb (length matrix) 1 then 0
         else fold_left (fun acc s => acc + Sample.value s) samples 0
              / JS.ofNat (length matrix)) /\
  Forall (fun s => is_nan (Sample.value s) = false) samples /\
  forall i s, samples !! i = Some s -> Sample.cluster s = clusters !! i.
Proof.
  intros E.
  destruct (calculateSilhouette_inv _ _ _ _ E)
    as [(Hn & -> & ->)|(Hn & Hlen & Havg & Hall)].
  - destruct (Nat.leb_spec (length matrix) 1); [|lia].
    split; [reflexivity|]. split; [reflexivity|]. split; [constructor|].
    intros i s Hs. discriminate.
  - destruct (Nat.leb_spec (length matrix) 1); [lia|].
    split; [assumption|]. split; [assumption|]. split.
    + apply Forall_forall. intros s Hs.
      apply list_elem_of_lookup in Hs as [i Hi]. now apply (Hall i s).
    + intros i s Hs. now apply (Hall i s).
Qed.

(** *** One label for every row *)

Lemma dedup_first_elem_of (seen l : list Z) (x : Z) :
  x ∈ JS.dedup_first seen l <-> x ∈ l /\ x ∉ seen.
Proof.
  revert seen. induction l as [|c l IH]; intros seen; simpl.
  - split; [intros H; now apply not_elem_of_nil in H|].
    intros [H _]. now apply not_elem_of_nil in H.
  - destruct (existsb (Z.eqb c) seen) eqn:E.
    + apply (includes_elem_of c seen) in E.
      rewrite IH, elem_of_cons. split; [tauto|].
      intros [[->|Hx] Hn]; [contradiction|tauto].
    + apply (includes_not_elem_of c seen) in E.
      rewrite elem_of_cons, IH, !elem_of_cons. split.
      * intros [->|[Hx Hn]]; [tauto|]. split; [tauto|]. tauto.
      * intros [[->|Hx] Hn]; [tauto|].
        destruct (decide (x = c)); [tauto|]. right. tauto.
Qed.

Lemma max_infinity_nan (ai : float) :
  is_nan ((infinity - ai) / JS.max ai infinity) = true.
Proof.
  unfold JS.max.
  destruct (is_nan ai) eqn:Hnan.
  - simpl. apply FloatFacts.is_nan_SF. rewrite div_spec.
    change (Prim2SF nan) with S754_nan.
    unfold SF64div, SFdiv. now destruct (Prim2SF (infinity - ai)).
  - change (is_nan infinity) with false. simpl.
    apply FloatFacts.is_nan_false_SF in Hnan.
    assert (Hdiv : forall x, Prim2SF x = S754_infinity false ->
              is_nan ((infinity - ai) / x) = true).
    { intros x Hx. apply FloatFacts.is_nan_SF.
      rewrite div_spec, sub_spec, Hx.
      change (Prim2SF infinity) with (S754_infinity false).
      unfold SF64div, SF64sub.
      destruct (Prim2SF ai) as [[]|[]| |[] m e]; simpl; congruence. }
    destruct (ai <? infinity) eqn:Hlt; [now apply Hdiv|].
    destruct (infinity <? ai) eqn:Hgt.
    + rewrite ltb_spec in Hgt.
      change (Prim2SF infinity) with (S754_infinity false) in Hgt.
      unfold SFltb in Hgt.
      destruct (Prim2SF ai) as [[]|[]| |[] m e]; simpl in Hgt; discriminate.
    + rewrite ltb_spec in Hlt.
      change (Prim2SF infinity) with (S754_infinity false) in Hlt.
      unfold SFltb in Hlt.
      assert (Hai : Prim2SF ai = S754_infinity false).
      { destruct (Prim2SF ai) as [[]|[]| |[] m e]; simpl in Hlt;
          congruence. }
      assert (Hneg : JS.is_neg_zero ai = false).
      { unfold JS.is_neg_zero. rewrite classify_spec, Hai. reflexivity. }
      rewrite Hneg. now apply Hdiv.
Qed.

Lemma List_filter_none {A} (q : A -> bool) (l : list A) :
  (forall x, x ∈ l -> q x = false) -> List.filter q l = [].
Proof.
  induction l as [|a l IH]; intros Hq; simpl; [reflexivity|].
  rewrite (Hq a) by left. apply IH. intros x Hx. apply Hq. now right.
Qed.

Lemma mapM_const {A B} (f : A -> res B) (l : list A) (v : B) :
  Forall (fun a => f a = Ok v) l -> mapM f l = Ok (replicate (length l) v).
Proof.
  induction 1 as [|a l Ha _ IH]; simpl; [reflexivity|].
  now rewrite Ha, IH.
Qed.

Lemma fold_values_zero (c : option Z) (n : nat) :
  fold_left (fun acc s => acc + Sample.value s) (replicate n (Sample.mk c 0)) 0
  = 0.
Proof. induction n as [|n IH]; simpl; [reflexivity|exact IH]. Qed.

(** X4: when every row carries the same label, every sample value is [0]
    and the average is [0 / n]: no other cluster exists to compare with. *)
Theorem calculateSilhouette_single_cluster (matrix : list (list float))
    (clusters : list Z) (c : Z) :
  (2 <= length matrix)%nat -> length clusters = length matrix ->
  Forall (fun x => x = c) clusters ->
  calculateSilhouette matrix clusters
  = Ok (0 / JS.ofNat (length matrix),
        replicate (length matrix) (Sample.mk (Some c) 0)).
Proof.
  intros Hn Hlen Hall. unfold calculateSilhouette.
  destruct (Nat.leb_spec (length matrix) 1); [lia|].
  rewrite (mapM_const _ _ (Sample.mk (Some c) 0)).
  - simpl. rewrite length_imap, fold_values_zero. reflexivity.
  - apply Forall_forall. intros [i point] Hin.
    apply elem_of_imap_pair in Hin.
    assert (Hi : clusters !! i = Some c).
    { destruct (lookup_lt_is_Some_2 clusters i) as [x Hx].
      - rewrite Hlen. eapply lookup_lt_Some; eassumption.
      - rewrite Forall_forall in Hall.
        rewrite (Hall x) in Hx by (eapply list_elem_of_lookup_2; eassumption).
        assumption. }
    unfold silhouetteSample. rewrite Hi.
    assert (Hai : exists ai,
      (if Nat.ltb 0 (length (indicesWhere
            (fun c' idx => labelIs (Some c) c' && negb (Nat.eqb idx i))
            clusters))
       then avgDistance matrix point (indicesWhere
            (fun c' idx => labelIs (Some c) c' && negb (Nat.eqb idx i))
            clusters)
       else Ok 0) = Ok ai).
    { destruct (Nat.ltb 0 _); [|eauto]. apply avgDistance_ok.
      rewrite <- Hlen. apply indicesWhere_lt. }
    destruct Hai as [ai ->]. simpl.
    replace (List.filter (fun c' => negb (labelIs (Some c) c'))
               (JS.dedup_first [] clusters)) with (@nil Z).
    + simpl. now rewrite max_infinity_nan.
    + symmetry. apply List_filter_none. intros x Hx.
      apply dedup_first_elem_of in Hx as [Hx _].
      rewrite Forall_forall in Hall. rewrite (Hall x Hx).
      unfold labelIs. now rewrite bool_decide_eq_true_2.
Qed.

End SilhouetteFacts.

Lemma calculateSilhouette_samples_witness :
  let matrix := [[0]; [1]; [5]] in
  let clusters := [0; 0; 1]%Z in
  exists avg samples,
    calculateSilhouette matrix clusters = Ok (avg, samples) /\
    length samples = 3%nat /\
    Forall (fun s => is_nan (Sample.value s) = false) samples.
Proof.
  intros matrix clusters.
  destruct (calculateSilhouette matrix clusters)
    as [[avg samples]|e] eqn:E; [|vm_compute in E; discriminate E].
  exists avg, samples. split; [reflexivity|].
  destruct (calculateSilhouette_samples matrix clusters avg
              samples E) as (Hlen & _ & Hnan & _).
  auto.
Defined.

Lemma calculateSilhouette_single_cluster_witness :
  calculateSilhouette [[0]; [1]; [5]] [4; 4; 4]%Z
  = Ok (0, replicate 3 (Sample.mk (Some 4%Z) 0)).
Proof.
  apply (calculateSilhouette_single_cluster
           [[0]; [1]; [5]] [4; 4; 4]%Z 4).
  - simpl. lia.
  - reflexivity.
  - repeat constructor.
Defined.

Section SilhouetteThrows.
Context {L : Library}.

(** A loop whose steps can only fail with [e], and one step of which always
    does, fails with [e]. *)
Lemma foldM_throws {A B} (f : B -> A -> res B) (e : exn) (l : list A) (b : B) :
  (forall b a, a ∈ l -> (exists b', f b a = Ok b') \/ f b a = Throw e) ->
  (exists a, a ∈ l /\ forall b, f b a = Throw e) ->
  foldM f l b = Throw e.
Proof.
  revert b. induction l as [|a l IH]; intros b Hstep (a0 & Hin & Hthrow).
  - now apply not_elem_of_nil in Hin.
  - simpl. destruct (Hstep b a) as [[b' Hb']| ->]; [left| |reflexivity].
    rewrite Hb'. simpl. apply elem_of_cons in Hin as [->|Hin].
    + rewrite Hthrow in Hb'. discriminate.
    + apply IH; [|eauto]. intros b0 a1 Ha1. apply Hstep. now right.
Qed.

Lemma elem_of_indicesWhere (p : Z -> nat -> bool) (clusters : list Z)
    (idx : nat) :
  idx ∈ indicesWhere p clusters <->
  exists c, clusters !! idx = Some c /\ p c idx = true.
Proof.
  unfold indicesWhere. rewrite list_elem_of_omap. split.
  - intros (o & Ho & Hid). simpl in Hid. subst o.
    apply list_elem_of_lookup in Ho as [i Hi].
    rewrite list_lookup_imap in Hi.
    destruct (clusters !! i) as [c|] eqn:E; simpl in Hi; [|discriminate].
    destruct (p c i) eqn:Hp; [|discriminate]. injection Hi as <-. eauto.
  - intros (c & Hc & Hp). exists (Some idx). split; [|reflexivity].
    apply list_elem_of_lookup. exists idx.
    now rewrite list_lookup_imap, Hc; simpl; rewrite Hp.
Qed.

Lemma distanceStep_cases (matrix : list (list float)) (point : list float)
    (acc : float) (idx : nat) :
  point <> [] ->
  ((idx < length matrix)%nat /\
   exists acc', (d ← euclideanDistanceAt point (matrix !! idx); Ok (acc + d))
                = Ok acc') \/
  ((length matrix <= idx)%nat /\
   (d ← euclideanDistanceAt point (matrix !! idx); Ok (acc + d))
   = Throw undefinedRead).
Proof.
  intros Hne. destruct (matrix !! idx) as [q|] eqn:E.
  - left. split; [eapply lookup_lt_Some; eassumption|]. simpl. eauto.
  - right. split; [now apply lookup_ge_None|].
    destruct point; [congruence|reflexivity].
Qed.

(** The mean distance to the rows of [idxs], one of which is missing. *)
Lemma avgDistance_cases (matrix : list (list float)) (point : list float)
    (idxs : list nat) :
  point <> [] ->
  ((exists d, avgDistance matrix point idxs = Ok d) \/
   avgDistance matrix point idxs = Throw undefinedRead) /\
  ((exists idx, idx ∈ idxs /\ (length matrix <= idx)%nat) ->
   avgDistance matrix point idxs = Throw undefinedRead).
Proof.
  intros Hne. unfold avgDistance.
  assert (Hstep : forall (acc : float) (idx : nat),
            (exists acc', (d ← euclideanDistanceAt point (matrix !! idx);
                           Ok (acc + d)) = Ok acc') \/
            (d ← euclideanDistanceAt point (matrix !! idx); Ok (acc + d))
            = Throw undefinedRead).
  { intros acc idx.
    destruct (distanceStep_cases matrix point acc idx Hne) as [[_ H]|[_ H]];
      auto. }
  split.
  - assert (Hloop : forall acc,
              (exists t, foldM (fun acc idx =>
                           d ← euclideanDistanceAt point (matrix !! idx);
                           Ok (acc + d)) idxs acc = Ok t) \/
              foldM (fun acc idx =>
                       d ← euclideanDistanceAt point (matrix !! idx);
                       Ok (acc + d)) idxs acc = Throw undefinedRead).
    { induction idxs as [|idx idxs IH]; intros acc; simpl; [eauto|].
      destruct (Hstep acc idx) as [[acc' ->]| ->]; simpl; [apply IH|auto]. }
    destruct (Hloop 0) as [[t ->]| ->]; simpl; eauto.
  - intros (idx & Hin & Hge).
    rewrite (foldM_throws _ undefinedRead); [reflexivity| |].
    + intros acc a _. apply Hstep.
    + exists idx. split; [assumption|]. intros acc.
      destruct (distanceStep_cases matrix point acc idx Hne) as [[Hlt _]|[_ H]];
        [lia|assumption].
Qed.

(** X5: with more labels than rows (and at least two rows, of at least one
    column), [calculateSilhouette] throws the [TypeError] of a property
    read on [undefined]: the members of a cluster are looked up in the
    matrix by the positions of the labels. *)
Theorem calculateSilhouette_extra_labels (matrix : list (list float))
    (clusters : list Z) (point : list float) :
  (2 <= length matrix)%nat -> matrix !! 0%nat = Some point -> point <> [] ->
  (length matrix < length clusters)%nat ->
  calculateSilhouette matrix clusters = Throw undefinedRead.
Proof.
  intros Hn H0 Hne Hlen. unfold calculateSilhouette.
  destruct (Nat.leb_spec (length matrix) 1); [lia|].
  assert (Hfirst : silhouetteSample matrix clusters 0 point
                   = Throw undefinedRead).
  { destruct (lookup_lt_is_Some_2 clusters 0) as [c0 Hc0]; [lia|].
    destruct (lookup_lt_is_Some_2 clusters (length matrix)) as [cn Hcn];
      [lia|].
    destruct (avgDistance_cases matrix point
                (indicesWhere
                   (fun c idx => labelIs (Some c0) c && negb (Nat.eqb idx 0))
                   clusters) Hne) as [Hsame Hsame'].
    unfold silhouetteSample. rewrite Hc0.
    destruct (decide (cn = c0)) as [->|Hother].
    - (* the extra label is the one of the first row *)
      assert (Hin : length matrix ∈ indicesWhere
                (fun c idx => labelIs (Some c0) c && negb (Nat.eqb idx 0))
                clusters).
      { apply elem_of_indicesWhere. exists c0. split; [assumption|].
        unfold labelIs. rewrite bool_decide_eq_true_2 by reflexivity.
        destruct (Nat.eqb_spec (length matrix) 0); [lia|reflexivity]. }
      destruct (indicesWhere _ clusters) as [|i0 same] eqn:E;
        [now apply not_elem_of_nil in Hin|].
      simpl. rewrite Hsame'; [reflexivity|]. exists (length matrix). auto.
    - (* the extra label is another cluster *)
      assert (Hai : (exists ai,
        (if Nat.ltb 0 (length (indicesWhere
              (fun c idx => labelIs (Some c0) c && negb (Nat.eqb idx 0))
              clusters))
         then avgDistance matrix point (indicesWhere
              (fun c idx => labelIs (Some c0) c && negb (Nat.eqb idx 0))
              clusters)
         else Ok 0) = Ok ai) \/
        (if Nat.ltb 0 (length (indicesWhere
              (fun c idx => labelIs (Some c0) c && negb (Nat.eqb idx 0))
              clusters))
         then avgDistance matrix point (indicesWhere
              (fun c idx => labelIs (Some c0) c && negb (Nat.eqb idx 0))
              clusters)
         else Ok 0) = Throw undefinedRead).
      { destruct (Nat.ltb 0 _); [exact Hsame|eauto]. }
      destruct Hai as [[ai ->]| ->]; [|reflexivity]. simpl.
      rewrite (foldM_throws _ undefinedRead); [reflexivity| |].
      + intros bi otherC _.
        destruct (avgDistance_cases matrix point
                    (indicesWhere (fun c _ => Z.eqb c otherC) clusters) Hne)
          as [[[d ->]| ->] _]; simpl; eauto.
      + exists cn. split.
        * apply elem_of_List_filter. split.
          -- apply dedup_first_elem_of. split; [|apply not_elem_of_nil].
             eapply list_elem_of_lookup_2; eassumption.
          -- unfold labelIs. rewrite bool_decide_eq_false_2; [reflexivity|].
             congruence.
        * intros bi.
          destruct (avgDistance_cases matrix point
                      (indicesWhere (fun c _ => Z.eqb c cn) clusters) Hne)
            as [_ ->]; [reflexivity|].
          exists (length matrix). split; [|lia].
          apply elem_of_indicesWhere. exists cn. split; [assumption|].
          apply Z.eqb_refl. }
  destruct matrix as [|p0 rest]; [discriminate|].
  injection H0 as ->. rewrite imap_cons. simpl. now rewrite Hfirst.
Qed.

End SilhouetteThrows.

Lemma calculateSilhouette_extra_labels_witness :
  calculateSilhouette [[0]; [1]] [0; 1; 1]%Z
  = Throw undefinedRead.
Proof.
  apply (calculateSilhouette_extra_labels
           [[0]; [1]] [0; 1; 1]%Z [0]).
  - simpl. lia.
  - reflexivity.
  - discriminate.
  - simpl. lia.
Defined.

(** ** The order of the outliers and the bounds of the suggested K *)

Section OutlierOrder.

Lemma increasing_cons (x : Z) (l : list Z) :
  Forall (fun y => (x < y)%Z) l -> increasing l -> increasing (x :: l).
Proof.
  intros Hx Hl [|i] [|j] a b Hij Ha Hb; simpl in *; try lia.
  - injection Ha as <-. rewrite Forall_forall in Hx. apply Hx.
    eapply list_elem_of_lookup_2; eassumption.
  - apply (Hl i j); [lia|assumption..].
Qed.

Lemma increasing_NoDup (l : list Z) : increasing l -> NoDup l.
Proof.
  intros Hl. apply NoDup_alt. intros i j x Hi Hj.
  destruct (Nat.lt_trichotomy i j) as [Hlt|[->|Hlt]]; [|reflexivity|].
  - specialize (Hl i j x x Hlt Hi Hj). lia.
  - specialize (Hl j i x x Hlt Hj Hi). lia.
Qed.

(** The flagged positions, counted from [h 0]: increasing and not below. *)
Lemma flagged_from (h : nat -> nat) (scores : list float) (threshold : float) :
  (forall i j, (i < j)%nat -> (h i < h j)%nat) ->
  let l := filter (fun i => i ≠ (-1)%Z)
             (imap (fun i s => if JS.gt s threshold then Z.of_nat (h i)
                               else (-1)%Z) scores) in
  increasing l /\ Forall (fun y => (Z.of_nat (h 0%nat) <= y)%Z) l.
Proof.
  revert h. induction scores as [|s scores IH]; intros h Hh; simpl.
  - split; [intros i j x y _ Hi; discriminate|constructor].
  - destruct (IH (h ∘ S)) as [Hinc Hlow].
    { intros i j Hij. simpl. apply Hh. lia. }
    assert (Hlow' : Forall (fun y => (Z.of_nat (h 0%nat) < y)%Z)
              (filter (fun i => i ≠ (-1)%Z)
                 (imap ((fun i s => if JS.gt s threshold then Z.of_nat (h i)
                                    else (-1)%Z) ∘ S) scores))).
    { eapply Forall_impl; [exact Hlow|]. simpl. intros y Hy.
      specialize (Hh 0%nat 1%nat). lia. }
    rewrite filter_cons. destruct (JS.gt s threshold).
    + destruct (decide (Z.of_nat (h 0%nat) ≠ (-1)%Z)) as [_|Hn]; [|lia].
      split.
      * apply increasing_cons; assumption.
      * constructor; [lia|]. eapply Forall_impl; [exact Hlow'|].
        simpl. intros. lia.
    + destruct (decide ((-1)%Z ≠ (-1)%Z)) as [Hn|_]; [congruence|].
      split; [assumption|]. eapply Forall_impl; [exact Hlow'|].
      simpl. intros. lia.
Qed.

Lemma flagged_increasing (scores : list float) (threshold : float) :
  increasing (flagged scores threshold).
Proof.
  apply (flagged_from id scores threshold). intros i j Hij. exact Hij.
Qed.

Lemma flagged_length (scores : list float) (threshold : float) :
  (length (flagged scores threshold) <= length scores)%nat.
Proof.
  unfold flagged. etransitivity; [apply length_filter|].
  now rewrite length_imap.
Qed.

End OutlierOrder.

Section DetectorOrder.
Context {L : Library}.

(** What a run of the detector that returns has done. *)
Lemma detectOutliers_inv (matrix : list (list float)) (outliers : list Z) :
  detectOutliers matrix = Ok outliers ->
  ((length matrix < 5)%nat /\ outliers = []) \/
  ((5 <= length matrix)%nat /\
   exists projected scores meanScore stdScore,
     pcaPredict matrix = Ok projected /\
     outlierScores projected = Ok scores /\
     length scores = length projected /\
     ss.mean scores = Ok meanScore /\
     ss.standardDeviation scores = Ok stdScore /\
     outliers = flagged scores (meanScore + 2 * stdScore)).
Proof.
  unfold detectOutliers, outliersOfProjection.
  destruct (Nat.ltb_spec (length matrix) 5) as [Hn|Hn];
    [intros [= <-]; auto|].
  destruct (pcaPredict matrix) as [projected|] eqn:Hpca; [|discriminate].
  simpl.
  destruct (outlierScores projected) as [scores|] eqn:Hscores; [|discriminate].
  simpl. destruct (ss.mean scores) as [meanScore|] eqn:Hmean; [|discriminate].
  simpl. destruct (ss.standardDeviation scores) as [stdScore|] eqn:Hstd;
    [|discriminate].
  simpl. intros [= <-]. right. split; [assumption|].
  exists projected, scores, meanScore, stdScore.
  destruct (mapM_lookup _ _ _ Hscores) as [Hlen _]. auto 10.
Qed.

Lemma detectOutliers_increasing (matrix : list (list float))
    (outliers : list Z) :
  detectOutliers matrix = Ok outliers -> increasing outliers.
Proof.
  intros H. destruct (detectOutliers_inv _ _ H)
    as [[_ ->]|(_ & p & scores & m & s & _ & _ & _ & _ & _ & ->)].
  - intros i j x y _ Hi. discriminate.
  - apply flagged_increasing.
Qed.

(** X6: the indices [detectOutliers] returns are strictly increasing, hence
    pairwise distinct; there is none for a matrix of fewer than five rows,
    and otherwise each is the position of a projected point, so that they
    are at most as many as the projected points. *)
Theorem detectOutliers_sorted_distinct (matrix : list (list float))
    (outliers : list Z) :
  detectOutliers matrix = Ok outliers ->
  increasing outliers /\ NoDup outliers /\
  ((length matrix < 5)%nat -> outliers = []) /\
  forall projected, pcaPredict matrix = Ok projected ->
    (length outliers <= length projected)%nat /\
    Forall (fun i => (0 <= i < Z.of_nat (length projected))%Z) outliers.
Proof.
  intros H. pose proof (detectOutliers_increasing _ _ H) as Hinc.
  split; [assumption|]. split; [now apply increasing_NoDup|].
  destruct (detectOutliers_inv _ _ H)
    as [[Hn ->]|(Hn & p & scores & m & s & Hp & _ & Hlen & _ & _ & ->)].
  - split; [reflexivity|]. intros projected _. split; [simpl; lia|constructor].
  - split; [lia|]. intros projected Hp'. rewrite Hp in Hp'.
    injection Hp' as <-. rewrite <- Hlen. split; [apply flagged_length|].
    apply Forall_forall. intros x Hx.
    apply elem_of_flagged in Hx as (i & sc & Hi & _ & ->).
    apply lookup_lt_Some in Hi. lia.
Qed.

End DetectorOrder.

Lemma detectOutliers_sorted_distinct_witness :
  let matrix := fullMatrixOf (L := Ref.library) grid ["a"; "b"] in
  exists outliers,
    detectOutliers (L := Ref.library) matrix = Ok outliers /\
    increasing outliers /\ NoDup outliers.
Proof.
  intros matrix.
  destruct (detectOutliers (L := Ref.library) matrix) as [outliers|e] eqn:E;
    [|vm_compute in E; discriminate E].
  exists outliers. split; [reflexivity|].
  destruct (detectOutliers_sorted_distinct (L := Ref.library) matrix outliers E)
    as (Hinc & Hnd & _).
  auto.
Defined.

Section KBounds.
Context {L : Library}.

Lemma keepBest_from (l : list (Z * float)) (M0 : float) (b0 : Z) :
  snd (fold_left keepBest l (M0, b0)) = b0 \/
  snd (fold_left keepBest l (M0, b0)) ∈ map fst l.
Proof.
  revert M0 b0. induction l as [|[k s] l IH]; intros M0 b0;
    [left; reflexivity|].
  simpl fold_left. destruct (keepBest (M0, b0) (k, s)) as [M1 b1] eqn:E.
  destruct (IH M1 b1) as [H|H].
  - unfold keepBest in E. simpl in E.
    destruct (JS.gt s M0); injection E as <- <-.
    + right. rewrite H. left.
    + left. exact H.
  - right. simpl. right. exact H.
Qed.

(** What a sweep that returns has recorded: a metric per candidate, and a
    best [k] that is the initial 2 or a candidate. *)
Lemma getSuggestedK_inv (matrix : list (list float)) (g g' : rng)
    (bestK : Z) (metrics : list KMetric.t) :
  getSuggestedK matrix g = Ok (bestK, metrics, g') ->
  map KMetric.k metrics = candidates (length matrix) /\
  (bestK = 2%Z \/ bestK ∈ candidates (length matrix)) /\
  (candidates (length matrix) = [] -> g' = g).
Proof.
  unfold getSuggestedK. intros H.
  destruct (foldM _ _ _) as [st|] eqn:Hst; simpl in H; [|discriminate].
  injection H as <- <- <-.
  destruct (sweep_inv _ _ _ _ Hst) as (ms & Hms & Hks & _ & Hbest).
  simpl in Hms, Hbest. rewrite Hms.
  split; [assumption|]. split.
  - pose proof (keepBest_from (map recorded ms) neg_infinity 2) as Hfrom.
    rewrite <- Hbest in Hfrom. simpl in Hfrom.
    destruct Hfrom as [Hfrom|Hfrom]; [auto|right].
    rewrite <- Hks. rewrite map_map in Hfrom. exact Hfrom.
  - intros Hnil. rewrite Hnil in Hst. simpl in Hst. now injection Hst as <-.
Qed.

Lemma candidates_range (n : nat) (K : Z) :
  K ∈ candidates n -> (2 <= K <= 10 /\ K < Z.of_nat n)%Z.
Proof. unfold candidates. rewrite elem_of_seqZ. lia. Qed.

(** X7: the K that [getSuggestedK] suggests lies between 2 and 10, and is 2
    or smaller than the number of rows; the metrics are those of the
    candidates [2, ..., min(10, n - 1)] in this order (at most nine), and a
    suggested K other than 2 is the K of one of them.  With fewer than
    three rows the suggestion is 2, without metrics and without a run of
    K-means. *)
Theorem getSuggestedK_bounds (matrix : list (list float)) (g g' : rng)
    (bestK : Z) (metrics : list KMetric.t) :
  getSuggestedK matrix g = Ok (bestK, metrics, g') ->
  (2 <= bestK <= 10)%Z /\
  (bestK = 2%Z \/ (bestK < Z.of_nat (length matrix))%Z) /\
  map KMetric.k metrics = candidates (length matrix) /\
  (length metrics <= 9)%nat /\
  (bestK = 2%Z \/ exists m, m ∈ metrics /\ KMetric.k m = bestK) /\
  ((length matrix < 3)%nat -> bestK = 2%Z /\ metrics = [] /\ g' = g).
Proof.
  intros H. destruct (getSuggestedK_inv _ _ _ _ _ H) as (Hks & Hb & Hg).
  split; [destruct Hb as [->|Hb]; [lia|apply candidates_range in Hb; lia]|].
  split; [destruct Hb as [->|Hb];
          [auto|apply candidates_range in Hb; right; lia]|].
  split; [assumption|].
  split.
  { rewrite <- (length_map KMetric.k), Hks. unfold candidates.
    rewrite length_seqZ. lia. }
  split.
  { destruct Hb as [Hb|Hb]; [auto|right].
    rewrite <- Hks in Hb. apply list_elem_of_In, in_map_iff in Hb
      as (m & Hm & Hin). exists m. split; [now apply list_elem_of_In|assumption]. }
  intros Hn.
  assert (Hnil : candidates (length matrix) = []).
  { unfold candidates. apply seqZ_nil. lia. }
  rewrite Hnil in Hks, Hb. split.
  - destruct Hb as [Hb|Hb]; [assumption|now apply not_elem_of_nil in Hb].
  - split; [now destruct metrics|auto].
Qed.

End KBounds.

Lemma getSuggestedK_bounds_witness :
  let matrix := [[0]; [1]; [10]; [11]] in
  exists bestK metrics g',
    getSuggestedK (L := Ref.library) matrix 0%nat = Ok (bestK, metrics, g') /\
    (2 <= bestK <= 10)%Z /\ (length metrics <= 9)%nat.
Proof.
  intros matrix.
  destruct (getSuggestedK (L := Ref.library) matrix 0%nat)
    as [[[bestK metrics] g']|e] eqn:E; [|vm_compute in E; discriminate E].
  exists bestK, metrics, g'. split; [reflexivity|].
  destruct (getSuggestedK_bounds (L := Ref.library) matrix 0%nat g' bestK
              metrics E) as (Hb & _ & _ & Hlen & _).
  auto.
Defined.

(** ** When the engine returns *)

Section Sorting.

Lemma length_insert_sorted (x : float) (l : list float) :
  length (JS.insert_sorted x l) = S (length l).
Proof.
  induction l as [|y l IH]; simpl; [reflexivity|].
  destruct (0 <? x - y); simpl; [now rewrite IH|reflexivity].
Qed.

Lemma length_sort (l : list float) : length (JS.sort l) = length l.
Proof.
  unfold JS.sort. induction l as [|x l IH]; simpl; [reflexivity|].
  now rewrite length_insert_sorted, IH.
Qed.

Lemma length_slice {A} (a b : nat) (l : list A) :
  length (JS.slice a b l) = Nat.min (b - a) (length l - a).
Proof. unfold JS.slice. now rewrite length_take, length_drop. Qed.

End Sorting.

Section Returns.
Context {L : Library} {C : LibraryContract L}.

Lemma standardDeviation_ok (xs : list float) :
  xs <> [] -> exists sd, ss.standardDeviation xs = Ok sd.
Proof.
  intros Hne.
  rewrite (standardDeviation_population xs (ss.sum xs / JS.ofNat (length xs))).
  - eauto.
  - apply mean_nonempty. destruct xs; [congruence|simpl; lia].
Qed.

(** From two points on, the part of the detector that follows the
    projection returns. *)
Lemma outliersOfProjection_ok (projected : list (list float)) :
  (2 <= length projected)%nat ->
  exists outliers, outliersOfProjection projected = Ok outliers.
Proof.
  intros Hn. unfold outliersOfProjection, outlierScores.
  destruct (mapM_ok
              (fun p1 =>
                 ss.mean (JS.slice 1 6 (JS.sort
                   (map (fun p2 => euclideanDistance p1 p2) projected))))
              projected) as [scores Hscores].
  { apply Forall_forall. intros p1 _. rewrite mean_nonempty; [eauto|].
    rewrite length_slice, length_sort, length_map. lia. }
  rewrite Hscores. simpl.
  destruct (mapM_lookup _ _ _ Hscores) as [Hlen _].
  assert (Hne : scores <> []) by (destruct scores; [simpl in Hlen; lia|congruence]).
  rewrite mean_nonempty by (destruct scores; [congruence|simpl; lia]). simpl.
  destruct (standardDeviation_ok scores Hne) as [sd ->]. simpl. eauto.
Qed.

(** X8: [detectOutliers] returns no index for fewer than five rows without
    consulting the projection; from five rows on it throws what the
    projection throws, and it returns whenever the projection does. *)
Theorem detectOutliers_throws_with_projection (matrix : list (list float)) :
  ((length matrix < 5)%nat -> detectOutliers matrix = Ok []) /\
  ((5 <= length matrix)%nat ->
   (forall e, pcaPredict matrix = Throw e -> detectOutliers matrix = Throw e) /\
   (forall projected, pcaPredict matrix = Ok projected ->
      exists outliers, detectOutliers matrix = Ok outliers)).
Proof.
  split; [apply detectOutliers_small|]. intros Hn. unfold detectOutliers.
  destruct (Nat.ltb_spec (length matrix) 5); [lia|]. split.
  - intros e ->. reflexivity.
  - intros projected Hp. rewrite Hp. simpl.
    apply outliersOfProjection_ok. apply pcaPredict_rows in Hp. lia.
Qed.

(** X9: for at least two rows and a falsy flag, the standardization of
    [performClustering] returns its matrix, of one row for each row of the
    data, and the run returns a result provided that the projection of this
    very matrix returns and that K-means returns on it for the K between 2
    and max(2, min(10, n - 1)): no other step of the pipeline throws. *)
Theorem performClustering_returns (data : list DataRow) (cols : list string)
    (eo : flag) (g : rng) :
  (2 <= length data)%nat -> truthy eo = false ->
  exists scaled,
    fullScaledMatrixOf data cols = Ok scaled /\
    length scaled = length data /\
    forall projected,
      pcaPredict scaled = Ok projected ->
      (forall K g0,
         (2 <= K <= Z.max 2 (Z.min 10 (Z.of_nat (length data) - 1)))%Z ->
         exists r g1, kmeans scaled K g0 = Ok (r, g1)) ->
      exists r g', performClustering data cols eo g = Ok (r, g').
Proof.
  intros Hn Heo.
  destruct (fit_ok data cols) as (fullMeans & fullStds & HM & HS).
  { destruct data; [simpl in Hn; lia|congruence]. }
  set (scaled := scale (fullMatrixOf data cols) fullMeans fullStds).
  assert (Hrows : length scaled = length data)
    by (unfold scaled; now rewrite length_scale, length_fullMatrixOf).
  exists scaled. split.
  { unfold fullScaledMatrixOf. rewrite HM, HS. reflexivity. }
  split; [assumption|]. intros projected Hproj Hkm.
  assert (Hdet : exists outliers, detectOutliers scaled = Ok outliers).
  { unfold detectOutliers. destruct (Nat.ltb (length scaled) 5); [eauto|].
    rewrite Hproj. simpl. apply outliersOfProjection_ok.
    apply pcaPredict_rows in Hproj. lia. }
  destruct Hdet as [outliers Hdet].
  assert (Hlabels : forall K g0,
            (2 <= K <= Z.max 2 (Z.min 10 (Z.of_nat (length data) - 1)))%Z ->
            exists r g1, kmeans scaled K g0 = Ok (r, g1) /\
                         length (KMeansResult.clusters r) = length scaled).
  { intros K g0 HK. destruct (Hkm K g0 HK) as (r & g1 & Hr).
    exists r, g1. split; [assumption|].
    now destruct (kmeans_labels _ _ _ _ _ Hr). }
  assert (HK : exists bestK metrics g1,
            getSuggestedK scaled g = Ok (bestK, metrics, g1)).
  { unfold getSuggestedK.
    destruct (sweep_ok scaled (candidates (length scaled))
                (mkSweep [] neg_infinity 2 g)) as [st ->].
    - apply Forall_forall. intros K HK g0. apply candidates_range in HK.
      apply Hlabels. lia.
    - simpl. eauto. }
  destruct HK as (bestK & metrics & g1 & HK).
  assert (Hbest : (2 <= bestK <= Z.max 2 (Z.min 10 (Z.of_nat (length data) - 1)))%Z).
  { destruct (getSuggestedK_inv _ _ _ _ _ HK) as (_ & [->|Hb] & _); [lia|].
    apply candidates_range in Hb. lia. }
  destruct (Hlabels bestK g1 Hbest) as (ans & g2 & Hans & Hlen).
  destruct (calculateSilhouette_ok scaled (KMeansResult.clusters ans))
    as (avg & samples & Hsil); [lia|].
  unfold performClustering. rewrite HM, HS. simpl. fold scaled.
  rewrite Hdet. simpl. unfold selectRows. rewrite Heo, HK. simpl.
  rewrite Hans. simpl. rewrite Hsil. simpl. rewrite Hproj. simpl.
  rewrite clusterStats_ok. simpl. eauto.
Qed.

End Returns.

Lemma detectOutliers_throws_with_projection_witness :
  detectOutliers (L := Ref.library) [] = Ok [] /\
  exists outliers,
    detectOutliers (L := Ref.library) (fullMatrixOf grid ["a"; "b"])
    = Ok outliers.
Proof.
  destruct (detectOutliers_throws_with_projection (L := Ref.library) [])
    as [Hsmall _].
  split; [apply Hsmall; simpl; lia|].
  destruct (detectOutliers_throws_with_projection (L := Ref.library)
              (fullMatrixOf grid ["a"; "b"])) as [_ Hbig].
  destruct Hbig as [_ Hok]; [simpl; lia|].
  destruct (Ref.pcaPredict (fullMatrixOf (L := Ref.library) grid ["a"; "b"]))
    as [projected|e] eqn:E; [|vm_compute in E; discriminate E].
  exact (Hok projected E).
Defined.

Lemma performClustering_returns_witness :
  exists scaled projected r g',
    fullScaledMatrixOf (L := Ref.library) trio ["a"; "b"] = Ok scaled /\
    Ref.pcaPredict scaled = Ok projected /\
    performClustering (L := Ref.library) trio ["a"; "b"] (FBool false) 0%nat
    = Ok (r, g').
Proof.
  destruct (performClustering_returns (L := Ref.library) trio ["a"; "b"]
              (FBool false) 0%nat) as (scaled & Hscaled & Hlen & Hrun).
  - simpl. lia.
  - reflexivity.
  - destruct (Ref.pcaPredict scaled) as [projected|e] eqn:Hp.
    + destruct (Hrun projected Hp) as (r & g' & Hr).
      * intros K g0 HK.
        destruct (Ref_kmeans_ok scaled K g0) as (r & Hr & _).
        -- rewrite Hlen. simpl in *. lia.
        -- exists r, (S g0). exact Hr.
      * exists scaled, projected, r, g'. auto.
    + destruct scaled; [discriminate Hlen|discriminate Hp].
Defined.

(** ** The result of [performClustering] *)

Section Modes.
Context {L : Library}.

(** The flag matters through its truthiness only, and not at all when no
    outlier was detected. *)
Lemma performClustering_flag_change (data : list DataRow) (cols : list string)
    (eo eo' : flag) (g g' : rng) (r : ClusterResult.t) :
  performClustering data cols eo g = Ok (r, g') ->
  truthy eo' = truthy eo \/ ClusterResult.outlierIndices r = [] ->
  performClustering data cols eo' g = Ok (withFlag r eo', g').
Proof.
  intros Hrun Hsame.
  destruct (performClustering_inv _ _ _ _ _ _ Hrun)
    as (t & g1 & ans & HM & HS & Hscaled & Hdet & Hsel & HK & Hkm & Hcl & Hce
        & Hsil & Hpca & Hview & Hst & Hcols & Heo).
  assert (Hsel' : selectRows eo' data (r_fullScaledMatrix t)
                    (ClusterResult.outlierIndices r)
                  = (r_mappingIndices t, r_finalMatrix t, r_finalData t)).
  { rewrite <- Hsel. destruct Hsame as [Ht|Hnil].
    - unfold selectRows. now rewrite Ht.
    - rewrite Hnil. now rewrite !selectRows_no_outliers. }
  unfold performClustering. rewrite HM, HS. simpl.
  rewrite <- Hscaled, Hdet. simpl. rewrite Hsel', HK. simpl.
  rewrite Hkm. simpl. rewrite <- Hcl, Hsil. simpl. rewrite Hpca. simpl.
  rewrite Hst. simpl. rewrite <- Hview, <- Hce, <- Hcols. reflexivity.
Qed.

(** X10: [performClustering] depends on its flag only through its
    truthiness: a run with another flag of the same truthiness returns the
    same result, but for the flag recorded in it, and the same generator.
    When no outlier is detected (in particular for fewer than five rows), a
    run with any other flag returns the same analysis: the same K, labels,
    centroids, points, outlier indices, statistics, metrics, silhouettes
    and columns. *)
Theorem performClustering_flag_truthiness (data : list DataRow)
    (cols : list string) (eo : flag) (g g' : rng) (r : ClusterResult.t) :
  performClustering data cols eo g = Ok (r, g') ->
  ((length data < 5)%nat -> ClusterResult.outlierIndices r = []) /\
  (forall eo', truthy eo' = truthy eo ->
     performClustering data cols eo' g = Ok (withFlag r eo', g')) /\
  (forall eo', ClusterResult.outlierIndices r = [] ->
     exists r', performClustering data cols eo' g = Ok (r', g') /\
                ClusterResult.excludeOutliers r' = eo' /\
                sameAnalysis r r').
Proof.
  intros Hrun. split; [|split].
  - intros Hn.
    destruct (performClustering_inv _ _ _ _ _ _ Hrun)
      as (t & g1 & ans & _ & _ & Hscaled & Hdet & _).
    rewrite detectOutliers_small in Hdet; [now injection Hdet|].
    now rewrite Hscaled, length_scale, length_fullMatrixOf.
  - intros eo' Heo. apply (performClustering_flag_change _ _ eo); auto.
  - intros eo' Hnil. exists (withFlag r eo'). split.
    + apply (performClustering_flag_change _ _ eo); auto.
    + split; [reflexivity|]. unfold sameAnalysis. simpl. auto 12.
Qed.

(** X11: whatever the flag and the state of the generator, two runs on the
    same data and columns return the same outlier indices and the same
    coordinates, positions and outlier marks of the plotted points; the
    point at the position [i] has the index [i] and is marked as an outlier
    exactly when [i] is among the outlier indices. *)
Theorem performClustering_outliers_any_mode (data : list DataRow)
    (cols : list string) (eo1 eo2 : flag) (g1 g2 g1' g2' : rng)
    (r1 r2 : ClusterResult.t) :
  performClustering data cols eo1 g1 = Ok (r1, g1') ->
  performClustering data cols eo2 g2 = Ok (r2, g2') ->
  ClusterResult.outlierIndices r1 = ClusterResult.outlierIndices r2 /\
  map plotted (ClusterResult.pcaData r1) = map plotted (ClusterResult.pcaData r2) /\
  forall i p, ClusterResult.pcaData r1 !! i = Some p ->
    PcaPoint.index p = Z.of_nat i /\
    (PcaPoint.isOutlier p = true <->
     Z.of_nat i ∈ ClusterResult.outlierIndices r1).
Proof.
  intros H1 H2.
  destruct (performClustering_inv _ _ _ _ _ _ H1)
    as (t1 & ga & ans1 & HM1 & HS1 & Hscaled1 & Hdet1 & _ & _ & _ & _ & _ & _
        & Hpca1 & Hview1 & _).
  destruct (performClustering_inv _ _ _ _ _ _ H2)
    as (t2 & gb & ans2 & HM2 & HS2 & Hscaled2 & Hdet2 & _ & _ & _ & _ & _ & _
        & Hpca2 & Hview2 & _).
  rewrite HM1 in HM2. injection HM2 as HM. rewrite HS1 in HS2.
  injection HS2 as HS. rewrite <- HM, <- HS, <- Hscaled1 in Hscaled2.
  rewrite Hscaled2, Hdet1 in Hdet2. injection Hdet2 as Hout.
  rewrite Hscaled2, Hpca1 in Hpca2. injection Hpca2 as Hproj.
  split; [assumption|]. split.
  - rewrite Hview1, Hview2, <- Hproj, <- Hout. apply list_eq. intros i.
    rewrite !lookup_map, !list_lookup_imap.
    now destruct (r_fullProjected t1 !! i).
  - intros i p Hp. rewrite Hview1, list_lookup_imap in Hp.
    destruct (r_fullProjected t1 !! i) as [q|]; [|discriminate].
    injection Hp as <-. unfold pcaPoint. simpl.
    split; [reflexivity|apply includes_elem_of].
Qed.

End Modes.

Lemma performClustering_flag_truthiness_witness :
  exists r g' r',
    performClustering (L := Ref.library) trio ["a"; "b"] (FBool false) 0%nat
    = Ok (r, g') /\
    ClusterResult.outlierIndices r = [] /\
    performClustering (L := Ref.library) trio ["a"; "b"] (FNum 0) 0%nat
    = Ok (withFlag r (FNum 0), g') /\
    performClustering (L := Ref.library) trio ["a"; "b"] (FBool true) 0%nat
    = Ok (r', g') /\
    sameAnalysis r r'.
Proof.
  destruct (performClustering (L := Ref.library) trio ["a"; "b"] (FBool false)
              0%nat) as [[r g']|e] eqn:E; [|vm_compute in E; discriminate E].
  destruct (performClustering_flag_truthiness (L := Ref.library) trio
              ["a"; "b"] (FBool false) 0%nat g' r E) as (Hsmall & Hsame & Hany).
  assert (Hnil : ClusterResult.outlierIndices r = [])
    by (apply Hsmall; simpl; lia).
  destruct (Hany (FBool true) Hnil) as (r' & Hr' & _ & Heq).
  exists r, g', r'. split; [reflexivity|]. split; [assumption|].
  split; [apply Hsame; vm_compute; reflexivity|]. auto.
Defined.

Lemma performClustering_outliers_any_mode_witness :
  exists r1 g1 r2 g2,
    performClustering (L := Ref.library) trio ["a"; "b"] (FBool false) 0%nat
    = Ok (r1, g1) /\
    performClustering (L := Ref.library) trio ["a"; "b"] (FBool true) 7%nat
    = Ok (r2, g2) /\
    ClusterResult.outlierIndices r1 = ClusterResult.outlierIndices r2 /\
    map plotted (ClusterResult.pcaData r1) = map plotted (ClusterResult.pcaData r2).
Proof.
  destruct (performClustering (L := Ref.library) trio ["a"; "b"] (FBool false)
              0%nat) as [[r1 g1]|e] eqn:E1; [|vm_compute in E1; discriminate E1].
  destruct (performClustering (L := Ref.library) trio ["a"; "b"] (FBool true)
              7%nat) as [[r2 g2]|e] eqn:E2; [|vm_compute in E2; discriminate E2].
  exists r1, g1, r2, g2. split; [reflexivity|]. split; [reflexivity|].
  destruct (performClustering_outliers_any_mode (L := Ref.library) trio
              ["a"; "b"] (FBool false) (FBool true) 0%nat 7%nat g1 g2 r1 r2
              E1 E2) as (H1 & H2 & _).
  auto.
Defined.

Section Statistics.
Context {L : Library}.

Lemma fold_insert_lookup_key `{Countable K} {V} (f : K -> V) (l : list K)
    (a : K) :
  fold_left (fun m c => <[c := f c]> m) l (∅ : gmap K V) !! a
  = if bool_decide (a ∈ l) then Some (f a) else None.
Proof.
  destruct (decide (a ∈ l)) as [Hin|Hnin].
  - rewrite bool_decide_eq_true_2 by assumption. now apply fold_insert_key.
  - rewrite bool_decide_eq_false_2 by assumption.
    assert (Hgen : forall m0 : gmap K V, m0 !! a = None ->
              fold_left (fun m c => <[c := f c]> m) l m0 !! a = None).
    { induction l as [|c l IH]; intros m0 Hm0; simpl; [assumption|].
      apply not_elem_of_cons in Hnin as [Hne Hnin].
      apply IH; [assumption|]. now rewrite lookup_insert_ne by congruence. }
    apply Hgen, lookup_empty.
Qed.

(** The row the statistics loop stores for a cluster: one entry per
    selected column, named by it. *)
Lemma fold_insert_columns {V} (F : nat -> string -> V) (cols : list string)
    (col : string) :
  let row := fold_left (fun m '(j, c) => <[c := F j c]> m) (imap pair cols)
                       (∅ : gmap string V) in
  (col ∈ cols -> exists j, cols !! j = Some col /\ row !! col = Some (F j col)) /\
  (col ∉ cols -> row !! col = None).
Proof.
  intros row.
  destruct (fold_insert_indexed F (imap pair cols) ∅ col)
    as [(j & Hj & Hm)|[Hno Hm]]; fold row in Hm.
  - apply elem_of_imap_pair in Hj. split; [eauto|].
    intros Hnin. destruct Hnin. eapply list_elem_of_lookup_2; eassumption.
  - split.
    + intros Hin. apply list_elem_of_lookup in Hin as [j Hj].
      destruct (Hno j). now apply elem_of_imap_pair.
    + intros _. now rewrite Hm, lookup_empty.
Qed.

(** X12: [stats[i][col]], for a cluster [i] below [k] and a selected
    column of ordinary name, is the mean of [Number(d[col]) || 0] over the
    rows of the clustered data (the data without the outliers when the flag
    is truthy, all of it otherwise) whose label is [i], and [0] when there
    is no such row. *)
Theorem performClustering_raw_means (data : list DataRow)
    (cols : list string) (eo : flag) (g g' : rng) (r : ClusterResult.t) :
  performClustering data cols eo g = Ok (r, g') ->
  let kept (i : nat) :=
    negb (JS.includes (Z.of_nat i) (ClusterResult.outlierIndices r)) in
  let finalData := if truthy eo then JS.filteri kept data else data in
  forall i col, (0 <= i < ClusterResult.k r)%Z -> col ∈ cols ->
    ordinary col ->
    let members :=
      JS.filteri (inCluster (ClusterResult.clusters r) i) finalData in
    let vals := map (fun d => numeric d col) members in
    exists row,
      ClusterResult.stats r !! i = Some row /\
      row !! col = Some (match vals with
                         | [] => 0
                         | _ => ss.sum vals / JS.ofNat (length vals)
                         end).
Proof.
  intros Hrun kept finalData i col Hi Hcol _ members vals.
  destruct (performClustering_inv _ _ _ _ _ _ Hrun)
    as (t & g1 & ans & _ & _ & _ & _ & Hsel & _ & _ & _ & _ & _ & _ & _ & Hst
        & _).
  assert (Hfinal : r_finalData t = finalData).
  { unfold selectRows in Hsel. unfold finalData, kept.
    destruct (truthy eo); now injection Hsel. }
  rewrite clusterStats_ok, Hfinal in Hst. injection Hst as Hraw _.
  eexists. split.
  - rewrite <- Hraw, fold_insert_lookup_key.
    rewrite bool_decide_eq_true_2 by (apply elem_of_seqZ; lia). reflexivity.
  - destruct (fold_insert_columns
                (fun (_ : nat) c => rawStatOf (map (fun d => numeric d c)
                   (JS.filteri (inCluster (ClusterResult.clusters r) i)
                               finalData))) cols col) as [Hin _].
    destruct (Hin Hcol) as (j & _ & ->). reflexivity.
Qed.

End Statistics.

Lemma performClustering_raw_means_witness :
  exists r g' row,
    performClustering (L := Ref.library) trio ["a"; "b"] (FBool false) 0%nat
    = Ok (r, g') /\
    ClusterResult.clusters r = [0; 1; 1]%Z /\
    ClusterResult.stats r !! 1%Z = Some row /\
    row !! "b"%string = Some 1.5.
Proof.
  destruct (performClustering (L := Ref.library) trio ["a"; "b"] (FBool false)
              0%nat) as [[r g']|e] eqn:E; [|vm_compute in E; discriminate E].
  assert (Hcl : ClusterResult.clusters r = [0; 1; 1]%Z /\
                ClusterResult.k r = 2%Z).
  { pose proof E as E'. vm_compute in E'. injection E' as <- _. auto. }
  destruct Hcl as [Hcl Hk].
  destruct (performClustering_raw_means (L := Ref.library) trio ["a"; "b"]
              (FBool false) 0%nat g' r E 1%Z "b"%string) as (row & Hrow & Hb).
  - rewrite Hk. lia.
  - apply list_elem_of_further, list_elem_of_here.
  - discriminate.
  - exists r, g', row. split; [reflexivity|]. split; [assumption|].
    split; [assumption|]. rewrite Hb, Hcl. reflexivity.
Defined.

Section StatisticsDomain.
Context {L : Library}.

(** The keys of the two objects the statistics loop fills. *)
Lemma clusterStats_dom (finalData : list DataRow)
    (finalMatrix : list (list float)) (clusters : list Z) (cols : list string)
    (k : Z) (stats : gmap Z (gmap string float))
    (scaledStats : gmap Z (gmap string ScaledStat.t)) :
  clusterStats finalData finalMatrix clusters cols k = Ok (stats, scaledStats) ->
  (forall i, is_Some (stats !! i) <-> (0 <= i < k)%Z) /\
  (forall i, is_Some (scaledStats !! i) <-> (0 <= i < k)%Z) /\
  (forall i row col, stats !! i = Some row ->
     (is_Some (row !! col) <-> col ∈ cols)) /\
  (forall i row col, scaledStats !! i = Some row ->
     (is_Some (row !! col) <-> col ∈ cols)).
Proof.
  rewrite clusterStats_ok. intros [= Hraw Hscaled].
  assert (Hkey : forall i, bool_decide (i ∈ seqZ 0 k) = true <-> (0 <= i < k)%Z).
  { intros i. rewrite bool_decide_eq_true, elem_of_seqZ. lia. }
  assert (Hsome : forall {V} (v : V) (b : bool),
            is_Some (if b then Some v else None) <-> b = true).
  { intros V v []; split; intros H; try (now eauto); try discriminate.
    now destruct H. }
  assert (Hrow : forall {V} (F : nat -> string -> V) (col : string),
            is_Some (fold_left (fun m '(j, c) => <[c := F j c]> m)
                       (imap pair cols) (∅ : gmap string V) !! col)
            <-> col ∈ cols).
  { intros V F col. destruct (fold_insert_columns F cols col) as [Hin Hnin].
    split.
    - intros Hs. destruct (decide (col ∈ cols)) as [|Hn]; [assumption|].
      rewrite (Hnin Hn) in Hs. now destruct Hs.
    - intros Hc. destruct (Hin Hc) as (j & _ & ->). eauto. }
  split; [|split; [|split]].
  - intros i. rewrite <- Hraw, fold_insert_lookup_key, <- Hkey. apply Hsome.
  - intros i. rewrite <- Hscaled, fold_insert_lookup_key, <- Hkey. apply Hsome.
  - intros i row col. rewrite <- Hraw, fold_insert_lookup_key.
    destruct (bool_decide _); [|discriminate]. intros [= <-].
    apply (Hrow _ (fun (_ : nat) c => rawStatOf (map (fun d => numeric d c)
             (JS.filteri (inCluster clusters i) finalData)))).
  - intros i row col. rewrite <- Hscaled, fold_insert_lookup_key.
    destruct (bool_decide _); [|discriminate]. intros [= <-].
    apply (Hrow _ (fun j (_ : string) => scaledStatOf (column
             (JS.filteri (inCluster clusters i) finalMatrix) j))).
Qed.

(** X13: the keys of [stats] and of [scaledStats] are the clusters
    [0, ..., k - 1], and the keys of ordinary name of each of their entries
    are the selected columns of ordinary name. *)
Theorem performClustering_stats_keys (data : list DataRow)
    (cols : list string) (eo : flag) (g g' : rng) (r : ClusterResult.t) :
  performClustering data cols eo g = Ok (r, g') ->
  let k := ClusterResult.k r in
  (forall i, is_Some (ClusterResult.stats r !! i) <-> (0 <= i < k)%Z) /\
  (forall i, is_Some (ClusterResult.scaledStats r !! i) <-> (0 <= i < k)%Z) /\
  (forall i row col, ClusterResult.stats r !! i = Some row -> ordinary col ->
     (is_Some (row !! col) <-> col ∈ cols)) /\
  (forall i row col, ClusterResult.scaledStats r !! i = Some row ->
     ordinary col -> (is_Some (row !! col) <-> col ∈ cols)).
Proof.
  intros Hrun k.
  destruct (performClustering_inv _ _ _ _ _ _ Hrun)
    as (t & g1 & ans & _ & _ & _ & _ & _ & _ & _ & _ & _ & _ & _ & _ & Hst & _).
  destruct (clusterStats_dom _ _ _ _ _ _ _ Hst) as (H1 & H2 & H3 & H4).
  split; [assumption|]. split; [assumption|].
  split; intros i row col Hrow _; eauto.
Qed.

End StatisticsDomain.

Lemma performClustering_stats_keys_witness :
  exists r g',
    performClustering (L := Ref.library) trio ["a"; "b"] (FBool false) 0%nat
    = Ok (r, g') /\
    (forall i, is_Some (ClusterResult.stats r !! i)
               <-> (0 <= i < ClusterResult.k r)%Z) /\
    (forall i, is_Some (ClusterResult.scaledStats r !! i)
               <-> (0 <= i < ClusterResult.k r)%Z) /\
    (forall i row, ClusterResult.stats r !! i = Some row ->
       is_Some (row !! "a"%string) /\ ~ is_Some (row !! "c"%string)).
Proof.
  destruct (performClustering (L := Ref.library) trio ["a"; "b"] (FBool false)
              0%nat) as [[r g']|e] eqn:E; [|vm_compute in E; discriminate E].
  exists r, g'. split; [reflexivity|].
  destruct (performClustering_stats_keys (L := Ref.library) trio ["a"; "b"]
              (FBool false) 0%nat g' r E) as (H1 & H2 & H3 & _).
  split; [assumption|]. split; [assumption|]. intros i row Hrow. split.
  - apply (H3 i row "a"%string Hrow); [discriminate|apply list_elem_of_here].
  - intros Hc. apply (H3 i row "c"%string Hrow) in Hc; [|discriminate].
    apply elem_of_cons in Hc as [Hc|Hc]; [discriminate Hc|].
    apply elem_of_cons in Hc as [Hc|Hc]; [discriminate Hc|].
    now apply not_elem_of_nil in Hc.
Defined.

Section Sizes.
Context {L : Library} {C : LibraryContract L}.

Lemma NoDup_indices {A} (data : list A) :
  NoDup (imap (fun i _ => Z.of_nat i) data).
Proof.
  apply NoDup_alt. intros i j x Hi Hj. rewrite list_lookup_imap in Hi, Hj.
  destruct (data !! i); [|discriminate]. destruct (data !! j); [|discriminate].
  simpl in *. injection Hi as <-. injection Hj as Hj. lia.
Qed.

Lemma elem_of_indices_lt {A} (data : list A) (x : Z) :
  x ∈ imap (fun i _ => Z.of_nat i) data <-> (0 <= x < Z.of_nat (length data))%Z.
Proof.
  split.
  - intros Hx. apply list_elem_of_lookup in Hx as [i Hi].
    rewrite list_lookup_imap in Hi.
    destruct (data !! i) eqn:E; [|discriminate]. injection Hi as <-.
    apply lookup_lt_Some in E. lia.
  - intros Hx. replace x with (Z.of_nat (Z.to_nat x)) by lia.
    apply elem_of_indices. lia.
Qed.

Lemma length_List_filter_split {A} (q : A -> bool) (l : list A) :
  (length (List.filter (fun x => negb (q x)) l) + length (List.filter q l)
   = length l)%nat.
Proof.
  induction l as [|a l IH]; simpl; [reflexivity|].
  destruct (q a); simpl; lia.
Qed.

Lemma NoDup_List_filter {A} (q : A -> bool) (l : list A) :
  NoDup l -> NoDup (List.filter q l).
Proof.
  induction 1 as [|a l Ha _ IH]; simpl; [constructor|].
  destruct (q a); [|assumption]. constructor; [|assumption].
  rewrite elem_of_List_filter. tauto.
Qed.

(** The rows that are kept when a set of row positions is removed. *)
Lemma length_kept {A} (data : list A) (outliers : list Z) :
  NoDup outliers ->
  Forall (fun i => (0 <= i < Z.of_nat (length data))%Z) outliers ->
  length (JS.filteri (fun i => negb (JS.includes (Z.of_nat i) outliers)) data)
  = (length data - length outliers)%nat.
Proof.
  intros Hnd Hrange. unfold JS.filteri.
  etransitivity;
    [apply (length_filteri_indices
              (fun i => negb (JS.includes (Z.of_nat i) outliers))
              (fun i => negb (JS.includes i outliers)) id data data);
     reflexivity|].
  pose proof (length_List_filter_split (fun i => JS.includes i outliers)
                (imap (fun i _ => Z.of_nat (id i)) data)) as Hsplit.
  rewrite length_imap in Hsplit.
  assert (Hperm : List.filter (fun i => JS.includes i outliers)
                    (imap (fun i _ => Z.of_nat (id i)) data) ≡ₚ outliers).
  { apply NoDup_Permutation; [apply NoDup_List_filter, NoDup_indices|assumption|].
    intros x. rewrite elem_of_List_filter, includes_elem_of.
    rewrite (elem_of_indices_lt data x). rewrite Forall_forall in Hrange.
    split; [tauto|]. intros Hx. split; [now apply Hrange|assumption]. }
  apply Permutation_length in Hperm. lia.
Qed.

(** X14: the outlier indices are at most as many as the rows of the data;
    the labels are as many as the clustered rows (the rows but the outliers
    when the flag is truthy, all rows otherwise), and so are the silhouette
    samples unless there is at most one clustered row, when there is
    none. *)
Theorem performClustering_sizes (data : list DataRow) (cols : list string)
    (eo : flag) (g g' : rng) (r : ClusterResult.t) :
  performClustering data cols eo g = Ok (r, g') ->
  let clustered :=
    if truthy eo
    then (length data - length (ClusterResult.outlierIndices r))%nat
    else length data in
  (length (ClusterResult.outlierIndices r) <= length data)%nat /\
  length (ClusterResult.clusters r) = clustered /\
  length (ClusterResult.silhouetteSamples r)
  = (if Nat.leb clustered 1 then 0 else clustered)%nat.
Proof.
  intros Hrun clustered.
  destruct (performClustering_inv _ _ _ _ _ _ Hrun)
    as (t & g1 & ans & _ & _ & Hscaled & Hdet & Hsel & _ & Hkm & Hcl & _
        & Hsil & _).
  assert (Hrows : length (r_fullScaledMatrix t) = length data)
    by now rewrite Hscaled, length_scale, length_fullMatrixOf.
  pose proof (detectOutliers_range _ _ Hdet) as Hrange.
  rewrite Hrows in Hrange.
  pose proof (increasing_NoDup _ (detectOutliers_increasing _ _ Hdet)) as Hnd.
  assert (Hbound : (length (ClusterResult.outlierIndices r) <= length data)%nat).
  { destruct (detectOutliers_inv _ _ Hdet)
      as [[_ ->]|(_ & p & scores & m & s & Hp & _ & Hlen & _ & _ & ->)];
      [simpl; lia|].
    apply pcaPredict_rows in Hp. rewrite <- Hrows, <- Hp, <- Hlen.
    apply flagged_length. }
  assert (Hfinal : length (r_finalMatrix t) = clustered).
  { unfold selectRows in Hsel. unfold clustered.
    destruct (truthy eo); injection Hsel as _ <- _; [|assumption].
    rewrite <- Hrows. apply length_kept; [assumption|now rewrite Hrows]. }
  destruct (kmeans_labels _ _ _ _ _ Hkm) as [Hlen _].
  rewrite <- Hcl, Hfinal in Hlen.
  split; [assumption|]. split; [assumption|].
  destruct (calculateSilhouette_inv _ _ _ _ Hsil)
    as [(Hn & _ & ->)|(Hn & Hs & _)]; rewrite Hfinal in Hn.
  - now destruct (Nat.leb_spec clustered 1); [|lia].
  - rewrite Hs, Hfinal. now destruct (Nat.leb_spec clustered 1); [lia|].
Qed.

End Sizes.

Lemma performClustering_sizes_witness :
  exists r g',
    performClustering (L := Ref.library) trio ["a"; "b"] (FBool true) 0%nat
    = Ok (r, g') /\
    length (ClusterResult.clusters r)
    = (3 - length (ClusterResult.outlierIndices r))%nat.
Proof.
  destruct (performClustering (L := Ref.library) trio ["a"; "b"] (FBool true)
              0%nat) as [[r g']|e] eqn:E; [|vm_compute in E; discriminate E].
  exists r, g'. split; [reflexivity|].
  destruct (performClustering_sizes (L := Ref.library) trio ["a"; "b"]
              (FBool true) 0%nat g' r E) as (_ & Hlen & _).
  exact Hlen.
Defined.

(** ** The result of [calculatePearson] *)

Section PearsonKeys.
Context {L : Library}.

(** X15: the correlation matrix has a row of its own for a name exactly
    when it is a selected column of ordinary name, and an entry of its own
    for a pair of names exactly when both are such columns; its prototype
    is replaced exactly when [__proto__] is selected. *)
Theorem calculatePearson_only_selected (data : list DataRow)
    (cols : list string) (a b : string) :
  let object := pearsonObject data cols in
  (is_Some (ownRows object !! a) <-> a ∈ cols /\ ordinary a) /\
  (is_Some (entryOf (ownRows object) a b)
   <-> (a ∈ cols /\ ordinary a) /\ (b ∈ cols /\ ordinary b)) /\
  (is_Some (prototype object) <-> "__proto__"%string ∈ cols).
Proof.
  intros object. unfold object, ordinary. split; [|split].
  - unfold pearsonObject.
    destruct (fold_rows_lookup
                (fun col1 => fold_left (fun row col2 =>
                   setEntry col2 (pearsonEntry data col1 col2) row) cols ∅)
                cols (mkMatrixObject ∅ None) a) as [-> _]. simpl.
    rewrite lookup_empty.
    destruct (String.eqb_spec a "__proto__") as [Ea|Ha].
    + split; [intros [? ?]; discriminate|tauto].
    + destruct (decide (a ∈ cols)) as [Hin|Hnin].
      * rewrite bool_decide_eq_true_2 by assumption. split; eauto.
      * rewrite bool_decide_eq_false_2 by assumption.
        split; [intros [? ?]; discriminate|tauto].
  - rewrite pearsonObject_entry.
    destruct (String.eqb_spec a "__proto__") as [Ea|Ha]; simpl.
    { split; [intros [? ?]; discriminate|tauto]. }
    destruct (String.eqb_spec b "__proto__") as [Eb|Hb]; simpl.
    { split; [intros [? ?]; discriminate|tauto]. }
    destruct (decide (a ∈ cols)) as [Hin|Hnin];
      [rewrite (bool_decide_eq_true_2 (a ∈ cols)) by assumption
      |rewrite (bool_decide_eq_false_2 (a ∈ cols)) by assumption]; simpl.
    + destruct (decide (b ∈ cols)) as [Hinb|Hninb];
        [rewrite bool_decide_eq_true_2 by assumption
        |rewrite bool_decide_eq_false_2 by assumption].
      * split; eauto.
      * split; [intros [? ?]; discriminate|tauto].
    + split; [intros [? ?]; discriminate|tauto].
  - unfold pearsonObject.
    destruct (fold_rows_lookup
                (fun col1 => fold_left (fun row col2 =>
                   setEntry col2 (pearsonEntry data col1 col2) row) cols ∅)
                cols (mkMatrixObject ∅ None) a) as [_ ->]. simpl.
    destruct (decide ("__proto__"%string ∈ cols)) as [Hin|Hnin].
    + rewrite bool_decide_eq_true_2 by assumption. split; eauto.
    + rewrite bool_decide_eq_false_2 by assumption.
      split; [intros [? ?]; discriminate|tauto].
Qed.

Lemma before_dot_split (s : string) :
  s = JS.before_dot s \/ exists rest, s = JS.before_dot s +:+ "." +:+ rest.
Proof.
  induction s as [|c s IH]; simpl; [auto|].
  destruct (Ascii.eqb_spec c "."%char) as [->|Hne].
  - right. exists s. reflexivity.
  - destruct IH as [IH|[rest IH]].
    + left. now f_equal.
    + right. exists rest. rewrite IH at 1. reflexivity.
Qed.

Lemma before_dot_no_dot (s pre post : string) :
  JS.before_dot s <> pre +:+ "." +:+ post.
Proof.
  revert pre. induction s as [|c s IH]; intros pre; simpl.
  - destruct pre; discriminate.
  - destruct (Ascii.eqb_spec c "."%char) as [->|Hne].
    + destruct pre; discriminate.
    + destruct pre as [|c' pre]; simpl.
      * intros [= -> _]. congruence.
      * intros [= _ H]. now apply IH in H.
Qed.

Lemma before_dot_app (base ext : string) :
  (forall pre post, base <> pre +:+ "." +:+ post) ->
  JS.before_dot (base +:+ "." +:+ ext) = base.
Proof.
  induction base as [|c base IH]; intros Hno; simpl; [reflexivity|].
  destruct (Ascii.eqb_spec c "."%char) as [->|Hne].
  - destruct (Hno "" base). reflexivity.
  - f_equal. apply IH. intros pre post ->. apply (Hno (String c pre) post).
    reflexivity.
Qed.

(** X16: the dataset name is the file name up to its first dot: the file
    name is the dataset name, or the dataset name followed by a dot and
    the rest; the dataset name holds no dot, and a base name without a dot
    is recovered from the base name followed by a dot and any
    extension. *)
Theorem calculatePearson_datasetName (data : list DataRow)
    (cols : list string) (fileName : string) :
  let name := datasetName (calculatePearson data cols fileName) in
  (fileName = name \/ exists rest, fileName = name +:+ "." +:+ rest) /\
  (forall pre post, name <> pre +:+ "." +:+ post) /\
  (forall base ext,
     (forall pre post, base <> pre +:+ "." +:+ post) ->
     datasetName (calculatePearson data cols (base +:+ "." +:+ ext)) = base).
Proof.
  simpl. split; [apply before_dot_split|].
  split; [apply before_dot_no_dot|]. intros base ext. apply before_dot_app.
Qed.

End PearsonKeys.

Section PearsonSheet.
Context {L : Library}.

Lemma mapM_map {A B} (f : A -> res B) (g : A -> B) (l : list A) :
  (forall a, a ∈ l -> f a = Ok (g a)) -> mapM f l = Ok (map g l).
Proof.
  induction l as [|a l IH]; intros H; simpl; [reflexivity|].
  rewrite (H a) by left. simpl. rewrite IH; [reflexivity|].
  intros b Hb. apply H. now right.
Qed.

Lemma fold_insert_entries {V} (f : string -> V) (l : list string)
    (m0 : gmap string V) :
  fold_left (fun obj '(col, v) => <[col := v]> obj)
            (map (fun col => (col, f col)) l) m0
  = fold_left (fun m c => <[c := f c]> m) l m0.
Proof.
  revert m0. induction l as [|c l IH]; intros m0; simpl; [reflexivity|].
  apply IH.
Qed.

Lemma pearson_row (data : list DataRow) (cols : list string)
    (fileName a : string) :
  a ∈ cols ->
  matrix (calculatePearson data cols fileName) !! a
  = Some (fold_left (fun row col2 => <[col2 := pearsonEntry data a col2]> row)
                    cols ∅).
Proof.
  intros Ha. unfold calculatePearson. simpl.
  rewrite (fold_insert_lookup
             (fun col1 => fold_left (fun row col2 =>
                            <[col2 := pearsonEntry data col1 col2]> row) cols ∅)).
  now rewrite bool_decide_eq_true_2.
Qed.

(** X17: for selected columns of ordinary names, the sheet that
    [savePearsonResults] builds from the result of [calculatePearson] is
    built without an exception and has one row for each selected column, in
    order; the row of the column [a] holds the correlation of [a] and [b]
    under each selected column [b], the name [a] under the heading of the
    names unless a selected column has this very name, and nothing else. *)
Theorem pearsonRows_of_result (data : list DataRow) (cols : list string)
    (fileName : string) :
  Forall ordinary cols ->
  exists rows,
    App.pearsonRows (calculatePearson data cols fileName) = Ok rows /\
    length rows = length cols /\
    forall j a row, cols !! j = Some a -> rows !! j = Some row ->
      (forall b, b ∈ cols ->
         row !! b = Some (App.ECell (CNum (pearsonEntry data a b)))) /\
      ("指标"%string ∉ cols ->
         row !! "指标"%string = Some (App.ECell (CStr a))) /\
      (forall c, c ∉ cols -> c <> "指标"%string -> row !! c = None).
Proof.
  intros _. set (r := calculatePearson data cols fileName).
  assert (Hrow : forall a, a ∈ cols ->
            App.pearsonRow r a
            = Ok (fold_left (fun m c =>
                    <[c := App.ECell (CNum (pearsonEntry data a c))]> m)
                    cols (<["指标"%string := App.ECell (CStr a)]> ∅))).
  { intros a Ha. unfold App.pearsonRow. change (columns r) with cols.
    unfold r. rewrite (pearson_row data cols fileName a Ha).
    rewrite (mapM_map _ (fun col =>
               (col, App.ECell (CNum (pearsonEntry data a col))))).
    - simpl. now rewrite fold_insert_entries.
    - intros b Hb.
      rewrite (fold_insert_lookup (fun col2 => pearsonEntry data a col2)).
      now rewrite bool_decide_eq_true_2. }
  unfold App.pearsonRows. change (columns r) with cols.
  destruct (mapM_ok (App.pearsonRow r) cols) as [rows Hrows].
  { apply Forall_forall. intros a Ha. rewrite (Hrow a Ha). eauto. }
  exists rows. split; [assumption|].
  destruct (mapM_lookup _ _ _ Hrows) as [Hlen Hall].
  split; [assumption|]. intros j a row Ha Hj.
  destruct (Hall j a Ha) as (row' & Hj' & Hrun).
  rewrite Hj in Hj'. injection Hj' as <-.
  rewrite Hrow in Hrun by (eapply list_elem_of_lookup_2; eassumption).
  injection Hrun as <-.
  split; [|split].
  - intros b Hb. rewrite fold_insert_lookup.
    now rewrite bool_decide_eq_true_2.
  - intros Hno. rewrite fold_insert_lookup.
    rewrite bool_decide_eq_false_2 by assumption. apply lookup_insert_eq.
  - intros c Hc Hne. rewrite fold_insert_lookup.
    rewrite bool_decide_eq_false_2 by assumption.
    now rewrite lookup_insert_ne, lookup_empty by congruence.
Qed.

End PearsonSheet.

Lemma pearsonRows_of_result_witness :
  exists rows,
    App.pearsonRows (calculatePearson (L := Ref.library) skewed ["a"; "b"]
                                      "oil.xlsx") = Ok rows /\
    length rows = 2%nat.
Proof.
  destruct (pearsonRows_of_result (L := Ref.library) skewed ["a"; "b"]
              "oil.xlsx") as (rows & Hrows & Hlen & _).
  - repeat constructor; discriminate.
  - exists rows. auto.
Defined.

(** * The component [App] *)

(** ** The column buttons and the header statistics *)

Section Selection.

Lemma includes_string (col : string) (prev : list string) :
  existsb (String.eqb col) prev = true <-> col ∈ prev.
Proof.
  rewrite existsb_exists. split.
  - intros (c & Hc & Heq). apply String.eqb_eq in Heq as ->.
    now apply list_elem_of_In.
  - intros Hc. exists col. split; [now apply list_elem_of_In|].
    apply String.eqb_refl.
Qed.

Lemma toggleColumn_spec (prev : list string) (col : string) :
  NoDup prev ->
  NoDup (App.toggleColumn prev col) /\
  forall c, c ∈ App.toggleColumn prev col <->
            (c = col /\ col ∉ prev) \/ (c <> col /\ c ∈ prev).
Proof.
  intros Hnd. unfold App.toggleColumn.
  destruct (existsb (String.eqb col) prev) eqn:E.
  - apply includes_string in E. split; [now apply NoDup_List_filter|].
    intros c. rewrite elem_of_List_filter, negb_true_iff, String.eqb_neq.
    split; [tauto|]. intros [[-> Hn]|[Hne Hc]]; [contradiction|tauto].
  - assert (Hn : col ∉ prev).
    { intros Hc. apply includes_string in Hc. congruence. }
    split.
    + apply NoDup_app. split; [assumption|]. split; [|apply NoDup_singleton].
      intros c Hc Hc'. apply list_elem_of_singleton in Hc' as ->. contradiction.
    + intros c. rewrite elem_of_app, list_elem_of_singleton.
      destruct (decide (c = col)) as [->|Hne]; tauto.
Qed.

(** X18: after any sequence of clicks on the column buttons, no column is
    selected twice, a column is selected exactly when it was clicked an odd
    number of times, and two more clicks on a column that is not selected
    restore the selection. *)
Theorem clicked_columns (cols : list string) :
  NoDup (App.clicked cols) /\
  (forall col, col ∈ App.clicked cols <->
               Nat.odd (count_occ string_dec cols col) = true) /\
  (forall col, col ∉ App.clicked cols ->
     App.toggleColumn (App.toggleColumn (App.clicked cols) col) col
     = App.clicked cols).
Proof.
  assert (Hinv : NoDup (App.clicked cols) /\
            forall col, col ∈ App.clicked cols <->
                        Nat.odd (count_occ string_dec cols col) = true).
  { unfold App.clicked. induction cols as [|c cols IH] using rev_ind.
    - split; [constructor|]. intros col. simpl. split; [|discriminate].
      intros H. now apply not_elem_of_nil in H.
    - destruct IH as [Hnd Hodd]. rewrite fold_left_app. simpl.
      destruct (toggleColumn_spec (fold_left App.toggleColumn cols []) c Hnd)
        as [Hnd' Hin].
      split; [assumption|]. intros col.
      rewrite Hin, count_occ_app, Nat.odd_add. pose proof (Hodd col) as Hcol.
      simpl count_occ. destruct (string_dec c col) as [->|Hne].
      + change (Nat.odd 1) with true. rewrite xorb_true_r.
        destruct (Nat.odd (count_occ string_dec cols col)) eqn:E; simpl.
        * split; [|discriminate].
          intros [[_ H]|[H _]]; [destruct H; now apply Hcol|congruence].
        * split; [reflexivity|]. intros _. left. split; [reflexivity|].
          intros H. apply Hcol in H. discriminate.
      + change (Nat.odd 0) with false. rewrite xorb_false_r, <- Hcol.
        split; [intros [[-> _]|[_ H]]; [congruence|assumption]|].
        intros H. right. split; [congruence|assumption]. }
  destruct Hinv as [Hnd Hodd]. split; [assumption|]. split; [assumption|].
  intros col Hcol. generalize dependent (App.clicked cols). intros sel Hnd _ Hcol.
  unfold App.toggleColumn at 2.
  destruct (existsb (String.eqb col) sel) eqn:E;
    [apply includes_string in E; contradiction|].
  unfold App.toggleColumn.
  replace (existsb (String.eqb col) (sel ++ [col])) with true.
  - rewrite List.filter_app. simpl. rewrite String.eqb_refl. simpl.
    rewrite app_nil_r. clear E Hnd.
    induction sel as [|c sel IH]; simpl; [reflexivity|].
    apply not_elem_of_cons in Hcol as [Hne Hcol].
    destruct (String.eqb_spec c col); [congruence|]. simpl.
    f_equal. now apply IH.
  - symmetry. apply includes_string, elem_of_app. right. left.
Qed.

End Selection.

Section HeaderStats.
Context {L : Library}.






End HeaderStats.

(** ** The clustering button and the scatter plot *)

Section Button.
Context {L : Library}.

(** X20: the number typed at the clustering button is passed in the
    position of the flag of [performClustering]: the result records it as
    [excludeOutliers], the run is that of the flag [true] for a number other
    than zero and [NaN] (so for the default 3) and of the flag [false]
    otherwise, and any other number of the same truthiness gives the same
    result; the K of the result is the one [getSuggestedK] suggests, between
    2 and 10. *)
Theorem clusterButton_typed_k (data : list DataRow) (cols : list string)
    (k : float) (g g' : rng) (r : ClusterResult.t) :
  App.clusterButton data cols k g = Ok (r, g') ->
  ClusterResult.excludeOutliers r = FNum k /\
  performClustering data cols (FBool (negb (JS.falsy k))) g
  = Ok (withFlag r (FBool (negb (JS.falsy k))), g') /\
  (forall k', JS.falsy k' = JS.falsy k ->
     App.clusterButton data cols k' g = Ok (withFlag r (FNum k'), g')) /\
  (2 <= ClusterResult.k r <= 10)%Z /\
  exists matrix g1,
    getSuggestedK matrix g = Ok (ClusterResult.k r, ClusterResult.metrics r, g1).
Proof.
  unfold App.clusterButton. intros Hrun.
  destruct (performClustering_inv _ _ _ _ _ _ Hrun)
    as (t & g1 & ans & _ & _ & _ & _ & _ & HK & _ & _ & _ & _ & _ & _ & _ & _
        & Heo).
  split; [assumption|]. split.
  { apply (performClustering_flag_change _ _ _ _ _ _ _ Hrun). now left. }
  split.
  { intros k' Hk'. apply (performClustering_flag_change _ _ _ _ _ _ _ Hrun).
    left. simpl. now rewrite Hk'. }
  split; [|eauto].
  destruct (getSuggestedK_inv _ _ _ _ _ HK) as (_ & [->|Hb] & _); [lia|].
  apply candidates_range in Hb. lia.
Qed.

End Button.

Lemma clusterButton_typed_k_witness :
  exists r g',
    App.clusterButton (L := Ref.library) trio ["a"; "b"] 3 0%nat = Ok (r, g') /\
    ClusterResult.excludeOutliers r = FNum 3 /\
    performClustering (L := Ref.library) trio ["a"; "b"] (FBool true) 0%nat
    = Ok (withFlag r (FBool true), g') /\
    (2 <= ClusterResult.k r <= 10)%Z.
Proof.
  destruct (App.clusterButton (L := Ref.library) trio ["a"; "b"] 3 0%nat)
    as [[r g']|e] eqn:E; [|vm_compute in E; discriminate E].
  exists r, g'. split; [reflexivity|].
  destruct (clusterButton_typed_k (L := Ref.library) trio ["a"; "b"] 3 0%nat
              g' r E) as (Hflag & Hrun & _ & Hk & _).
  auto.
Defined.

Section ScatterPlot.
Context {L : Library} {C : LibraryContract L}.

(** The mark and the label of a point of the view. *)
Lemma view_point (data : list DataRow) (cols : list string) (eo : flag)
    (g g' : rng) (r : ClusterResult.t) (i : nat) (p : PcaPoint.t) :
  performClustering data cols eo g = Ok (r, g') ->
  ClusterResult.pcaData r !! i = Some p ->
  let outliers := ClusterResult.outlierIndices r in
  (i < length data)%nat /\
  PcaPoint.isOutlier p = JS.includes (Z.of_nat i) outliers /\
  (Z.of_nat i ∈ outliers -> truthy eo = true ->
   PcaPoint.cluster p = Some (-1)%Z) /\
  (Z.of_nat i ∉ outliers \/ truthy eo = false ->
   exists c, PcaPoint.cluster p = Some c /\ (0 <= c < ClusterResult.k r)%Z).
Proof.
  intros Hrun Hp outliers.
  destruct (performClustering_inv _ _ _ _ _ _ Hrun)
    as (t & g1 & ans & _ & _ & Hscaled & Hdet & Hsel & _ & Hkm & Hcl & _ & _
        & Hpca & Hview & _).
  destruct (kmeans_labels _ _ _ _ _ Hkm) as [Hlen Hall].
  rewrite <- Hcl in Hlen, Hall.
  apply pcaPredict_rows in Hpca.
  rewrite Hscaled, length_scale, length_fullMatrixOf in Hpca.
  assert (Hlt : (i < length data)%nat).
  { rewrite <- Hpca. apply lookup_lt_Some in Hp.
    now rewrite Hview, length_imap in Hp. }
  rewrite Hview, list_lookup_imap in Hp.
  destruct (r_fullProjected t !! i) as [q|]; [|discriminate].
  injection Hp as <-. fold outliers in Hsel |- *.
  split; [assumption|]. split; [reflexivity|].
  unfold selectRows in Hsel. split.
  - intros Hout Heo. rewrite Heo in Hsel. injection Hsel as Hmap _ _.
    unfold pcaPoint. simpl. rewrite indexOf_not_elem_of; [reflexivity|].
    rewrite <- Hmap. intros Hin. apply elem_of_List_filter in Hin as [_ Hin].
    apply negb_true_iff, includes_not_elem_of in Hin. contradiction.
  - intros Hcase. destruct (truthy eo) eqn:Heo; injection Hsel as Hmap Hfin _.
    + destruct Hcase as [Hout|?]; [|discriminate].
      apply pcaPoint_kept; [|rewrite Hlen|assumption].
      * rewrite <- Hmap. apply elem_of_List_filter. split.
        -- now apply elem_of_indices.
        -- now apply negb_true_iff, includes_not_elem_of.
      * rewrite <- Hfin, <- Hmap. unfold JS.filteri.
        apply (length_filteri_indices
                 (fun i => negb (JS.includes (Z.of_nat i) outliers))
                 (fun i => negb (JS.includes i outliers)) id).
        -- now rewrite Hscaled, length_scale, length_fullMatrixOf.
        -- reflexivity.
    + apply pcaPoint_kept; [|rewrite Hlen|assumption].
      * rewrite <- Hmap. now apply elem_of_indices.
      * now rewrite <- Hfin, <- Hmap, Hscaled, length_scale,
          length_fullMatrixOf, length_imap.
Qed.

(** X21: in the scatter plot of a result of [performClustering], the point
    of an outlier index is drawn as a cross, and any other point as a
    circle filled with the colour of its label modulo 7, the label being
    one of [0, ..., k - 1]; no point is drawn as the grey circle
    ['#94a3b8'] of the label [-1]. *)
Theorem CustomScatterDot_of_view (data : list DataRow) (cols : list string)
    (eo : flag) (g g' : rng) (r : ClusterResult.t) (i : nat) (p : PcaPoint.t) :
  performClustering data cols eo g = Ok (r, g') ->
  ClusterResult.pcaData r !! i = Some p ->
  let outliers := ClusterResult.outlierIndices r in
  (Z.of_nat i ∈ outliers -> App.CustomScatterDot p = App.Cross) /\
  (Z.of_nat i ∉ outliers ->
   exists c fill,
     PcaPoint.cluster p = Some c /\ (0 <= c < ClusterResult.k r)%Z /\
     App.colors !! Z.to_nat (c mod 7) = Some fill /\
     App.CustomScatterDot p = App.Circle (Some fill)) /\
  App.CustomScatterDot p <> App.Circle (Some "#94a3b8"%string).
Proof.
  intros Hrun Hp outliers.
  destruct (view_point _ _ _ _ _ _ _ _ Hrun Hp) as (_ & Hmark & _ & Hlabel).
  fold outliers in Hmark, Hlabel. unfold App.CustomScatterDot.
  assert (Hcircle : Z.of_nat i ∉ outliers ->
    exists c fill,
      PcaPoint.cluster p = Some c /\ (0 <= c < ClusterResult.k r)%Z /\
      App.colors !! Z.to_nat (c mod 7) = Some fill /\
      App.Circle (App.fillOf (PcaPoint.cluster p)) = App.Circle (Some fill)).
  { intros Hout. destruct Hlabel as (c & Hc & Hrange); [now left|].
    destruct (lookup_lt_is_Some_2 App.colors (Z.to_nat (c mod 7)))
      as [fill Hfill].
    { change (length App.colors) with 7%nat.
      pose proof (Z.mod_pos_bound c 7). lia. }
    exists c, fill. split; [assumption|]. split; [assumption|].
    split; [assumption|]. rewrite Hc. unfold App.fillOf.
    destruct (Z.eqb_spec c (-1)); [lia|].
    change (Z.of_nat (length App.colors)) with 7%Z.
    rewrite Z.rem_mod_nonneg by lia. unfold JS.at_.
    destruct (Z.ltb_spec (c mod 7) 0);
      [pose proof (Z.mod_pos_bound c 7); lia|].
    now rewrite Hfill. }
  destruct (decide (Z.of_nat i ∈ outliers)) as [Hout|Hout].
  - pose proof Hout as Hinc. apply includes_elem_of in Hinc.
    rewrite Hmark, Hinc. split; [reflexivity|]. split; [tauto|discriminate].
  - pose proof Hout as Hinc. apply includes_not_elem_of in Hinc.
    rewrite Hmark, Hinc. split; [tauto|]. split; [assumption|].
    destruct (Hcircle Hout) as (c & fill & _ & _ & Hfill & ->).
    intros [= ->]. apply list_elem_of_lookup_2 in Hfill.
    vm_compute in Hfill. repeat (apply elem_of_cons in Hfill as [Hfill|Hfill];
      [discriminate|]). now apply not_elem_of_nil in Hfill.
Qed.

End ScatterPlot.

Lemma CustomScatterDot_of_view_witness :
  exists r g' p,
    performClustering (L := Ref.library) trio ["a"; "b"] (FBool true) 0%nat
    = Ok (r, g') /\
    ClusterResult.pcaData r !! 2%nat = Some p /\
    App.CustomScatterDot p <> App.Circle (Some "#94a3b8"%string).
Proof.
  destruct (performClustering (L := Ref.library) trio ["a"; "b"] (FBool true)
              0%nat) as [[r g']|e] eqn:E; [|vm_compute in E; discriminate E].
  destruct (ClusterResult.pcaData r !! 2%nat) as [p|] eqn:Hp.
  - exists r, g', p. split; [reflexivity|]. split; [exact Hp|].
    destruct (CustomScatterDot_of_view (L := Ref.library) trio ["a"; "b"]
                (FBool true) 0%nat g' r 2 p E Hp) as (_ & _ & Hgrey).
    exact Hgrey.
  - pose proof E as E'. vm_compute in E'. injection E' as <- _.
    vm_compute in Hp. discriminate Hp.
Defined.

(** ** The statistics table *)

Section Keys.

Lemma list_ascii_of_string_app (s t : string) :
  list_ascii_of_string (s +:+ t)
  = list_ascii_of_string s ++ list_ascii_of_string t.
Proof. induction s as [|c s IH]; simpl; [reflexivity|]. now rewrite IH. Qed.

Lemma list_ascii_of_string_inj (s t : string) :
  list_ascii_of_string s = list_ascii_of_string t -> s = t.
Proof.
  intros H. rewrite <- (string_of_list_ascii_of_string s),
    <- (string_of_list_ascii_of_string t). now rewrite H.
Qed.

Lemma append_inj_r (s1 s2 t : string) : s1 +:+ t = s2 +:+ t -> s1 = s2.
Proof.
  intros H. apply (f_equal list_ascii_of_string) in H.
  rewrite !list_ascii_of_string_app in H. apply app_inv_tail in H.
  now apply list_ascii_of_string_inj.
Qed.

Lemma meanKey_inj (i j : Z) : App.meanKey i = App.meanKey j -> i = j.
Proof.
  unfold App.meanKey. intros H. apply String.app_inj in H.
  apply append_inj_r in H. now apply pretty_Z_inj in H.
Qed.

Lemma varKey_inj (i j : Z) : App.varKey i = App.varKey j -> i = j.
Proof.
  unfold App.varKey. intros H. apply String.app_inj in H.
  apply append_inj_r in H. now apply pretty_Z_inj in H.
Qed.

Lemma meanKey_varKey (i j : Z) : App.meanKey i <> App.varKey j.
Proof.
  unfold App.meanKey, App.varKey. intros H. apply String.app_inj in H.
  apply (f_equal list_ascii_of_string) in H.
  rewrite !list_ascii_of_string_app in H.
  apply (f_equal (@List.rev ascii)) in H. rewrite !rev_app_distr in H.
  simpl in H. discriminate.
Qed.

Lemma elem_of_keysOf {V} (obj : gmap Z V) (x : Z) :
  x ∈ keysOf obj <-> is_Some (obj !! x).
Proof.
  unfold keysOf. rewrite merge_sort_Permutation.
  rewrite list_elem_of_In, in_map_iff. split.
  - intros ([k v] & <- & Hin). apply list_elem_of_In, elem_of_map_to_list in Hin.
    simpl. eauto.
  - intros [v Hv]. exists (x, v). split; [reflexivity|].
    now apply list_elem_of_In, elem_of_map_to_list.
Qed.

End Keys.

Section Table.
Context {L : Library}.

(** The loop over the cluster ids, for a column that every cluster has:
    it stores the two numbers of each id under the id's two names. *)
Lemma varItem_lookup (scaledStats : gmap Z (gmap string ScaledStat.t))
    (col : string) (keys : list Z) (item0 : gmap string float) :
  (forall k, k ∈ keys ->
     exists row s, scaledStats !! k = Some row /\ row !! col = Some s) ->
  exists item,
    foldM (App.varStep scaledStats col) keys item0 = Ok item /\
    forall i,
      (i ∈ keys ->
       exists row s,
         scaledStats !! i = Some row /\ row !! col = Some s /\
         item !! App.meanKey i = Some (ScaledStat.mean s) /\
         item !! App.varKey i = Some (ScaledStat.variance s)) /\
      (i ∉ keys ->
       item !! App.meanKey i = item0 !! App.meanKey i /\
       item !! App.varKey i = item0 !! App.varKey i).
Proof.
  revert item0. induction keys as [|k keys IH]; intros item0 Hall; simpl.
  - exists item0. split; [reflexivity|]. intros i. split; [|auto].
    intros H. now apply not_elem_of_nil in H.
  - destruct (Hall k) as (row & s & Hrow & Hs); [left|].
    assert (Hstep : App.varStep scaledStats col item0 k
                    = Ok (<[App.varKey k := ScaledStat.variance s]>
                            (<[App.meanKey k := ScaledStat.mean s]> item0))).
    { unfold App.varStep. rewrite Hrow. simpl. now rewrite Hs. }
    rewrite Hstep. simpl.
    destruct (IH (<[App.varKey k := ScaledStat.variance s]>
                    (<[App.meanKey k := ScaledStat.mean s]> item0)))
      as (item & -> & Hitem).
    { intros k' Hk'. apply Hall. now right. }
    exists item. split; [reflexivity|]. intros i.
    destruct (Hitem i) as [Hin Hnin].
    destruct (decide (i ∈ keys)) as [Hi|Hi].
    + split; [intros _; now apply Hin|].
      intros Hn. destruct Hn. now right.
    + destruct (Hnin Hi) as [Hm Hv]. rewrite Hm, Hv. split.
      * intros Hik. apply elem_of_cons in Hik as [->|?]; [|contradiction].
        exists row, s. split; [assumption|]. split; [assumption|]. split.
        -- rewrite lookup_insert_ne by (intros E; symmetry in E;
             now apply meanKey_varKey in E).
           apply lookup_insert_eq.
        -- apply lookup_insert_eq.
      * intros Hn. apply not_elem_of_cons in Hn as [Hne _]. split.
        -- rewrite lookup_insert_ne by (intros E; symmetry in E;
             now apply meanKey_varKey in E).
           apply lookup_insert_ne. intros E. apply meanKey_inj in E. congruence.
        -- rewrite lookup_insert_ne
             by (intros E; apply varKey_inj in E; congruence).
           apply lookup_insert_ne. apply meanKey_varKey.
Qed.

(** X22: the statistics table of a result of [performClustering] renders
    without an exception: it has one row for each selected column, in
    order, and the row of a column holds, for each cluster [i] in
    [0, ..., k - 1], the mean and the variance of [scaledStats[i]] for this
    column. *)
Theorem statsTable_defined (data : list DataRow) (cols : list string)
    (eo : flag) (g g' : rng) (r : ClusterResult.t) :
  performClustering data cols eo g = Ok (r, g') ->
  exists table,
    App.statsTable r = Ok table /\
    map fst table = cols /\
    forall j col cells, table !! j = Some (col, cells) ->
      length cells = Z.to_nat (ClusterResult.k r) /\
      forall i m v, cells !! i = Some (m, v) ->
        exists row s,
          ClusterResult.scaledStats r !! Z.of_nat i = Some row /\
          row !! col = Some s /\
          m = ScaledStat.mean s /\ v = ScaledStat.variance s.
Proof.
  intros Hrun.
  destruct (performClustering_inv _ _ _ _ _ _ Hrun)
    as (t & g1 & ans & _ & _ & _ & _ & _ & _ & _ & _ & _ & _ & _ & _ & Hst
        & Hcols & _).
  destruct (clusterStats_dom _ _ _ _ _ _ _ Hst) as (_ & Hkeys & _ & Hrows).
  set (scaledStats := ClusterResult.scaledStats r) in *.
  set (k := ClusterResult.k r) in *.
  assert (Hentry : forall i col, i ∈ keysOf scaledStats -> col ∈ cols ->
            exists row s, scaledStats !! i = Some row /\ row !! col = Some s).
  { intros i col Hi Hcol. apply elem_of_keysOf in Hi as [row Hrow].
    destruct (proj2 (Hrows i row col Hrow) Hcol) as [s Hs]. eauto. }
  assert (Hitem : forall col, col ∈ cols ->
            exists item,
              foldM (App.varStep scaledStats col) (keysOf scaledStats) ∅
              = Ok item /\
              forall i, (0 <= i < k)%Z ->
                exists row s,
                  scaledStats !! i = Some row /\ row !! col = Some s /\
                  item !! App.meanKey i = Some (ScaledStat.mean s) /\
                  item !! App.varKey i = Some (ScaledStat.variance s)).
  { intros col Hcol.
    destruct (varItem_lookup scaledStats col (keysOf scaledStats) ∅)
      as (item & Hfold & Hitem); [intros i Hi; now apply Hentry|].
    exists item. split; [assumption|]. intros i Hi.
    destruct (Hitem i) as [Hin _].
    destruct Hin as (row & s & Hrow & Hs & Hm & Hv);
      [now apply elem_of_keysOf, Hkeys|].
    exists row, s. auto. }
  unfold App.statsTable, App.formattedVarData. fold scaledStats k.
  rewrite Hcols.
  destruct (mapM_ok
              (fun col => item ← foldM (App.varStep scaledStats col)
                                       (keysOf scaledStats) ∅;
                          Ok (App.mkVarItem col item)) cols) as [rows Hrowsok].
  { apply Forall_forall. intros col Hcol.
    destruct (Hitem col Hcol) as (item & -> & _). simpl. eauto. }
  rewrite Hrowsok. simpl.
  destruct (mapM_lookup _ _ _ Hrowsok) as [Hlen Hrow].
  assert (Hrow' : forall j row, rows !! j = Some row ->
            cols !! j = Some (App.name row) /\
            forall i, (0 <= i < k)%Z ->
              exists srow s,
                scaledStats !! i = Some srow /\ srow !! App.name row = Some s /\
                App.bars row !! App.meanKey i = Some (ScaledStat.mean s) /\
                App.bars row !! App.varKey i = Some (ScaledStat.variance s)).
  { intros j row Hj.
    destruct (lookup_lt_is_Some_2 cols j) as [col Hcol].
    { rewrite <- Hlen. eapply lookup_lt_Some; eassumption. }
    destruct (Hrow j col Hcol) as (row' & Hj' & Hrun').
    rewrite Hj in Hj'. injection Hj' as <-.
    destruct (Hitem col) as (item & Hfold & Hall);
      [eapply list_elem_of_lookup_2; eassumption|].
    rewrite Hfold in Hrun'. simpl in Hrun'. injection Hrun' as <-. simpl.
    auto. }
  destruct (mapM_ok
              (fun row =>
                 cells ← mapM (fun i => m ← App.toFixed row (App.meanKey i);
                                        v ← App.toFixed row (App.varKey i);
                                        Ok (m, v)) (seqZ 0 k);
                 Ok (App.name row, cells)) rows) as [table Htable].
  { apply Forall_forall. intros row Hin.
    apply list_elem_of_lookup in Hin as [j Hj].
    destruct (Hrow' j row Hj) as [_ Hcells].
    destruct (mapM_ok (fun i => m ← App.toFixed row (App.meanKey i);
                                v ← App.toFixed row (App.varKey i);
                                Ok (m, v)) (seqZ 0 k)) as [cells ->].
    - apply Forall_forall. intros i Hi. apply elem_of_seqZ in Hi.
      destruct (Hcells i) as (srow & s & _ & _ & Hm & Hv); [lia|].
      unfold App.toFixed. rewrite Hm. simpl. rewrite Hv. simpl. eauto.
    - simpl. eauto. }
  exists table. split; [assumption|].
  destruct (mapM_lookup _ _ _ Htable) as [Hlen' Hcell].
  split.
  { apply list_eq. intros j. rewrite lookup_map.
    destruct (rows !! j) as [row|] eqn:Hj.
    - destruct (Hcell j row Hj) as ([col cells] & -> & Hrun').
      destruct (Hrow' j row Hj) as [-> _]. simpl.
      destruct (mapM _ (seqZ 0 k)); simpl in Hrun'; [|discriminate].
      now injection Hrun' as <- _.
    - assert (Hnone : table !! j = None).
      { apply lookup_ge_None. rewrite Hlen'. now apply lookup_ge_None. }
      rewrite Hnone. simpl. symmetry. apply lookup_ge_None.
      rewrite <- Hlen. now apply lookup_ge_None. }
  intros j col cells Hj.
  destruct (lookup_lt_is_Some_2 rows j) as [row Hrowj].
  { rewrite <- Hlen'. eapply lookup_lt_Some; eassumption. }
  destruct (Hcell j row Hrowj) as (entry & Hentry' & Hrun').
  rewrite Hj in Hentry'. injection Hentry' as <-.
  destruct (mapM _ (seqZ 0 k)) as [cells'|] eqn:Hcells; simpl in Hrun';
    [|discriminate].
  injection Hrun' as <- <-.
  destruct (mapM_lookup _ _ _ Hcells) as [Hlenc Hc].
  split; [now rewrite Hlenc, length_seqZ|].
  intros i m v Hi.
  assert (Hik : (Z.of_nat i < k)%Z).
  { apply lookup_lt_Some in Hi. rewrite Hlenc, length_seqZ in Hi. lia. }
  destruct (Hc i (Z.of_nat i)) as (mv & Hmv & Hfix).
  { apply lookup_seqZ. lia. }
  rewrite Hi in Hmv. injection Hmv as <-.
  destruct (Hrow' j row Hrowj) as [_ Hall].
  destruct (Hall (Z.of_nat i)) as (srow & s & Hs1 & Hs2 & Hm & Hv); [lia|].
  unfold App.toFixed in Hfix. rewrite Hm in Hfix. simpl in Hfix.
  rewrite Hv in Hfix. simpl in Hfix. injection Hfix as <- <-.
  exists srow, s. auto.
Qed.

End Table.

Lemma statsTable_defined_witness :
  exists r g' table,
    performClustering (L := Ref.library) trio ["a"; "b"] (FBool false) 0%nat
    = Ok (r, g') /\
    App.statsTable r = Ok table /\ map fst table = ["a"; "b"]%string.
Proof.
  destruct (performClustering (L := Ref.library) trio ["a"; "b"] (FBool false)
              0%nat) as [[r g']|e] eqn:E; [|vm_compute in E; discriminate E].
  destruct (statsTable_defined (L := Ref.library) trio ["a"; "b"]
              (FBool false) 0%nat g' r E) as (table & Htable & Hnames & _).
  exists r, g', table. auto.
Defined.

(** ** The exported sheets *)

Section TaggedErrors.

(** A [map] whose callback can only fail with [e], and does on one element,
    fails with [e]. *)
Lemma mapM_throws {A B} (f : A -> res B) (e : exn) (l : list A) :
  (forall a, a ∈ l -> (exists b, f a = Ok b) \/ f a = Throw e) ->
  (exists a, a ∈ l /\ f a = Throw e) ->
  mapM f l = Throw e.
Proof.
  induction l as [|a l IH]; intros Hstep (a0 & Hin & Hthrow).
  - now apply not_elem_of_nil in Hin.
  - simpl. destruct (Hstep a) as [[b Hb]| ->]; [left| |reflexivity].
    rewrite Hb. simpl. rewrite IH; [reflexivity| |].
    + intros a1 Ha1. apply Hstep. now right.
    + apply elem_of_cons in Hin as [->|Hin]; [congruence|eauto].
Qed.

(** X23: [taggedData] throws the [TypeError] of a property read on
    [undefined] when the result has fewer plotted points than the data has
    rows. *)
Theorem taggedData_short_view (data : list DataRow)
    (clusterResult : ClusterResult.t) :
  (length (ClusterResult.pcaData clusterResult) < length data)%nat ->
  App.taggedData data clusterResult = Throw undefinedRead.
Proof.
  intros Hlen. unfold App.taggedData. apply mapM_throws.
  - intros [i d] _. unfold App.taggedRow.
    destruct (ClusterResult.pcaData clusterResult !! i); eauto.
  - destruct (lookup_lt_is_Some_2 data
                (length (ClusterResult.pcaData clusterResult)) Hlen) as [d Hd].
    exists (length (ClusterResult.pcaData clusterResult), d). split.
    + now apply elem_of_imap_pair.
    + unfold App.taggedRow. now rewrite lookup_ge_None_2.
Qed.

End TaggedErrors.

Lemma taggedData_short_view_witness :
  App.taggedData trio blank = Throw undefinedRead.
Proof.
  apply (taggedData_short_view trio blank). simpl. lia.
Defined.

Section TaggedRows.
Context {L : Library} {C : LibraryContract L}.

Lemma view_length (data : list DataRow) (cols : list string) (eo : flag)
    (g g' : rng) (r : ClusterResult.t) :
  performClustering data cols eo g = Ok (r, g') ->
  length (ClusterResult.pcaData r) = length data.
Proof.
  intros Hrun.
  destruct (performClustering_inv _ _ _ _ _ _ Hrun)
    as (t & g1 & ans & _ & _ & Hscaled & _ & _ & _ & _ & _ & _ & _
        & Hpca & Hview & _).
  apply pcaPredict_rows in Hpca.
  now rewrite Hview, length_imap, Hpca, Hscaled, length_scale,
    length_fullMatrixOf.
Qed.

(** X24: for a result of [performClustering] on the same data, [taggedData]
    is built without an exception and has one row for each row of the
    data; the row [i] has [Is_Outlier] equal to [Yes] exactly when [i] is an
    outlier index, [Cluster_Label] equal to the text [Excluded (Outlier)]
    for an outlier of a run with a truthy flag, and to a label in
    [0, ..., k - 1] otherwise, and every cell of the data row under any
    other name than the four added ones. *)
Theorem taggedData_labels (data : list DataRow) (cols : list string)
    (eo : flag) (g g' : rng) (r : ClusterResult.t) :
  performClustering data cols eo g = Ok (r, g') ->
  let outliers := ClusterResult.outlierIndices r in
  exists rows,
    App.taggedData data r = Ok rows /\ length rows = length data /\
    forall i d row, data !! i = Some d -> rows !! i = Some row ->
      (row !! "Is_Outlier"%string
       = Some (App.ECell (CStr (if JS.includes (Z.of_nat i) outliers
                                then "Yes" else "No")))) /\
      (Z.of_nat i ∈ outliers -> truthy eo = true ->
       row !! "Cluster_Label"%string
       = Some (App.ECell (CStr "Excluded (Outlier)"))) /\
      (Z.of_nat i ∉ outliers \/ truthy eo = false ->
       exists c, row !! "Cluster_Label"%string = Some (App.ELabel c) /\
                 (0 <= c < ClusterResult.k r)%Z) /\
      (forall col,
         col ∉ ["Cluster_Label"; "Is_Outlier"; "PCA_X"; "PCA_Y"]%string ->
         row !! col = App.ECell <$> d !! col).
Proof.
  intros Hrun outliers. pose proof (view_length _ _ _ _ _ _ Hrun) as Hsize.
  unfold App.taggedData.
  destruct (mapM_ok (fun '(i, d) => App.taggedRow r i d) (imap pair data))
    as [rows Hrows].
  { apply Forall_forall. intros [i d] Hin. apply elem_of_imap_pair in Hin.
    destruct (lookup_lt_is_Some_2 (ClusterResult.pcaData r) i) as [p Hp].
    { rewrite Hsize. eapply lookup_lt_Some; eassumption. }
    unfold App.taggedRow. rewrite Hp. eauto. }
  exists rows. split; [assumption|].
  destruct (mapM_lookup _ _ _ Hrows) as [Hlen Hrow].
  rewrite length_imap in Hlen. split; [assumption|].
  intros i d row Hd Hi.
  destruct (Hrow i (i, d)) as (row' & Hi' & Htag).
  { now rewrite list_lookup_imap, Hd. }
  rewrite Hi in Hi'. injection Hi' as <-.
  unfold App.taggedRow in Htag.
  destruct (ClusterResult.pcaData r !! i) as [p|] eqn:Hp; [|discriminate].
  injection Htag as <-.
  destruct (view_point _ _ _ _ _ _ _ _ Hrun Hp) as (_ & Hmark & Hex & Hin).
  fold outliers in Hmark, Hex, Hin.
  split; [|split; [|split]].
  - rewrite lookup_insert_ne by discriminate.
    rewrite lookup_insert_ne by discriminate.
    now rewrite lookup_insert_eq, Hmark.
  - intros Hout Heo. rewrite !lookup_insert_ne by discriminate.
    now rewrite lookup_insert_eq, (Hex Hout Heo).
  - intros Hcase. destruct (Hin Hcase) as (c & Hc & Hrange). exists c.
    split; [|assumption]. rewrite !lookup_insert_ne by discriminate.
    rewrite lookup_insert_eq, Hc. unfold App.label.
    destruct (Z.eqb_spec c (-1)); [lia|reflexivity].
  - intros col Hcol. rewrite !not_elem_of_cons in Hcol.
    destruct Hcol as (H1 & H2 & H3 & H4 & _).
    rewrite !lookup_insert_ne by congruence. apply lookup_fmap.
Qed.

End TaggedRows.

Lemma taggedData_labels_witness :
  exists r g' rows,
    performClustering (L := Ref.library) trio ["a"; "b"] (FBool false) 0%nat
    = Ok (r, g') /\
    App.taggedData trio r = Ok rows /\ length rows = 3%nat.
Proof.
  destruct (performClustering (L := Ref.library) trio ["a"; "b"] (FBool false)
              0%nat) as [[r g']|e] eqn:E; [|vm_compute in E; discriminate E].
  destruct (taggedData_labels (L := Ref.library) trio ["a"; "b"]
              (FBool false) 0%nat g' r E) as (rows & Hrows & Hlen & _).
  exists r, g', rows. auto.
Defined.

Section ClusterSheet.
Context {L : Library}.

Lemma Sorted_seqZ (m len : Z) : Sorted Z.le (seqZ m len).
Proof.
  destruct (Z.le_gt_cases len 0) as [Hle|Hpos].
  - rewrite seqZ_nil by assumption. constructor.
  - replace len with (Z.of_nat (Z.to_nat len)) by lia.
    generalize (Z.to_nat len). clear. intros n. revert m.
    induction n as [|n IH]; intros m.
    + rewrite seqZ_nil by lia. constructor.
    + rewrite seqZ_cons by lia. constructor.
      * replace (Z.pred (Z.of_nat (S n))) with (Z.of_nat n) by lia. apply IH.
      * replace (Z.pred (Z.of_nat (S n))) with (Z.of_nat n) by lia.
        destruct n as [|n]; [rewrite seqZ_nil by lia; constructor|].
        rewrite seqZ_cons by lia. constructor. lia.
Qed.

(** The keys of an object whose keys are [0, ..., k - 1]. *)
Lemma keysOf_range {V} (obj : gmap Z V) (k : Z) :
  (forall i, is_Some (obj !! i) <-> (0 <= i < k)%Z) ->
  keysOf obj = seqZ 0 k.
Proof.
  intros Hkeys. unfold keysOf.
  apply (Sorted_unique Z.le).
  - apply Sorted_merge_sort. intros x y. lia.
  - apply Sorted_seqZ.
  - rewrite merge_sort_Permutation. apply NoDup_Permutation.
    + apply NoDup_fst_map_to_list.
    + apply NoDup_seqZ.
    + intros x. rewrite elem_of_seqZ, <- (Hkeys x).
      rewrite list_elem_of_In, in_map_iff. split.
      * intros ([i v] & <- & Hin).
        apply list_elem_of_In, elem_of_map_to_list in Hin. simpl. eauto.
      * intros [v Hv]. exists (x, v). split; [reflexivity|].
        now apply list_elem_of_In, elem_of_map_to_list.
Qed.

(** X25: the sheet of the cluster centers, for a result of
    [performClustering], has one row for each cluster [0, ..., k - 1], in
    order; the row [i] holds [stats[i][col]] under each selected column of
    ordinary name, and the name of the cluster under [Cluster] unless a
    selected column is called [Cluster]. *)
Theorem statsData_of_result (data : list DataRow) (cols : list string)
    (eo : flag) (g g' : rng) (r : ClusterResult.t) :
  performClustering data cols eo g = Ok (r, g') ->
  length (App.statsData r) = Z.to_nat (ClusterResult.k r) /\
  forall i row, App.statsData r !! i = Some row ->
    (forall col, col ∈ cols -> ordinary col ->
       exists means v,
         ClusterResult.stats r !! Z.of_nat i = Some means /\
         means !! col = Some v /\ row !! col = Some (App.ECell (CNum v))) /\
    ("Cluster"%string ∉ cols ->
       row !! "Cluster"%string
       = Some (App.ECell (CStr ("簇 " +:+ pretty (Z.of_nat i))))).
Proof.
  intros Hrun.
  destruct (performClustering_inv _ _ _ _ _ _ Hrun)
    as (t & g1 & ans & _ & _ & _ & _ & _ & _ & _ & _ & _ & _ & _ & _ & Hst & _).
  destruct (clusterStats_dom _ _ _ _ _ _ _ Hst) as (Hkeys & _ & Hrows & _).
  unfold App.statsData. rewrite (keysOf_range _ _ Hkeys).
  split; [now rewrite length_map, length_seqZ|].
  intros i row Hi. rewrite lookup_map in Hi.
  destruct (seqZ 0 (ClusterResult.k r) !! i) as [k|] eqn:Hk; [|discriminate].
  apply lookup_seqZ in Hk as [-> Hlt]. simpl in Hi. injection Hi as <-.
  destruct (proj2 (Hkeys (Z.of_nat i))) as [means Hmeans]; [lia|].
  replace (0 + Z.of_nat i)%Z with (Z.of_nat i) by lia.
  rewrite Hmeans. simpl. split.
  - intros col Hcol _.
    destruct (proj2 (Hrows (Z.of_nat i) means col Hmeans) Hcol) as [v Hv].
    exists means, v. split; [reflexivity|]. split; [assumption|].
    apply lookup_union_Some_l. now rewrite lookup_fmap, Hv.
  - intros Hno. rewrite lookup_union_r.
    + apply lookup_singleton_eq.
    + rewrite lookup_fmap.
      destruct (means !! "Cluster"%string) as [v|] eqn:Hv; [|reflexivity].
      destruct Hno. apply (Hrows (Z.of_nat i) means _ Hmeans). eauto.
Qed.

End ClusterSheet.

Lemma statsData_of_result_witness :
  exists r g',
    performClustering (L := Ref.library) trio ["a"; "b"] (FBool false) 0%nat
    = Ok (r, g') /\
    length (App.statsData r) = Z.to_nat (ClusterResult.k r).
Proof.
  destruct (performClustering (L := Ref.library) trio ["a"; "b"] (FBool false)
              0%nat) as [[r g']|e] eqn:E; [|vm_compute in E; discriminate E].
  exists r, g'. split; [reflexivity|].
  now destruct (statsData_of_result (L := Ref.library) trio ["a"; "b"]
                  (FBool false) 0%nat g' r E).
Defined.

(** * The completion of the factory names *)

Section Trim.
Import Factory.

Lemma trimStart_head (s : ustring) :
  match trimStart s with
  | [] => True
  | c :: _ => isWhiteSpace c = false
  end.
Proof.
  induction s as [|c s IH]; simpl; [exact I|].
  destruct (isWhiteSpace c) eqn:E; [exact IH|exact E].
Qed.

Lemma trimStart_fixed (c : N) (s : ustring) :
  isWhiteSpace c = false -> trimStart (c :: s) = c :: s.
Proof. intros E. simpl. now rewrite E. Qed.

Lemma trimEnd_cons (c : N) (s : ustring) :
  isWhiteSpace c = false -> trimEnd (c :: s) = c :: trimEnd s.
Proof. intros E. simpl. destruct (trimEnd s); [now rewrite E|reflexivity]. Qed.

Lemma trimEnd_idem (s : ustring) : trimEnd (trimEnd s) = trimEnd s.
Proof.
  induction s as [|c s IH]; simpl; [reflexivity|].
  destruct (trimEnd s) as [|d t] eqn:E.
  - destruct (isWhiteSpace c) eqn:Ec; simpl; [reflexivity|now rewrite Ec].
  - simpl in IH |- *. now rewrite IH.
Qed.

Lemma trim_clean (s : ustring) : clean (trim s).
Proof.
  unfold clean, trim. split; [|apply trimEnd_idem].
  pose proof (trimStart_head s) as H.
  destruct (trimStart s) as [|c t]; [reflexivity|].
  rewrite (trimEnd_cons c t H). now apply trimStart_fixed.
Qed.

Lemma trim_of_clean (s : ustring) : clean s -> trim s = s.
Proof. intros [H1 H2]. unfold trim. now rewrite H1, H2. Qed.

Lemma clean_head (c : N) (s : ustring) :
  clean (c :: s) -> isWhiteSpace c = false.
Proof.
  intros [H _]. pose proof (trimStart_head (c :: s)) as Hh.
  now rewrite H in Hh.
Qed.

Lemma trimEnd_app (x y : ustring) :
  trimEnd y <> [] -> trimEnd (x ++ y) = x ++ trimEnd y.
Proof.
  intros Hy. induction x as [|c x IH]; simpl; [reflexivity|].
  rewrite IH. destruct (x ++ trimEnd y) eqn:E; [|reflexivity].
  apply app_eq_nil in E as [_ E]. contradiction.
Qed.


Lemma elem_of_trimStart (x : N) (s : ustring) : x ∈ trimStart s -> x ∈ s.
Proof.
  induction s as [|c s IH]; simpl; [auto|].
  destruct (isWhiteSpace c); [|auto]. intros H. right. auto.
Qed.

Lemma elem_of_trimEnd (x : N) (s : ustring) : x ∈ trimEnd s -> x ∈ s.
Proof.
  induction s as [|c s IH]; simpl; [auto|].
  destruct (trimEnd s) as [|d t].
  - destruct (isWhiteSpace c); [intros H; now apply not_elem_of_nil in H|].
    intros H. apply list_elem_of_singleton in H as ->. left.
  - intros H. apply elem_of_cons in H as [->|H]; [left|right; auto].
Qed.

Lemma elem_of_trim (x : N) (s : ustring) : x ∈ trim s -> x ∈ s.
Proof. intros H. now apply elem_of_trimStart, elem_of_trimEnd. Qed.

Lemma beforeParen_no_paren (s : ustring) : paren ∉ beforeParen s.
Proof.
  induction s as [|c s IH]; simpl; [apply not_elem_of_nil|].
  destruct (N.eqb_spec c paren); [apply not_elem_of_nil|].
  apply not_elem_of_cons. split; [congruence|assumption].
Qed.


(** The prefix taken from the previous text: clean, and without ['(']. *)
Lemma prefix_clean (prevVal : ustring) :
  clean (trim (beforeParen prevVal)) /\ paren ∉ trim (beforeParen prevVal).
Proof.
  split; [apply trim_clean|]. intros H. apply elem_of_trim in H.
  now apply beforeParen_no_paren in H.
Qed.

Lemma abbreviated_paren (s : ustring) :
  abbreviated s = true -> exists s', s = paren :: s'.
Proof.
  unfold abbreviated. destruct s as [|c s]; simpl; [discriminate|].
  destruct (N.eqb_spec c paren) as [->|]; [eauto|discriminate].
Qed.

(** The text of a completed name: the name itself, or the abbreviation
    again when there was no prefix. *)
Lemma trim_completed (prevVal currentVal : ustring) :
  clean currentVal -> abbreviated currentVal = true ->
  trim (completed prevVal currentVal)
  = match trim (beforeParen prevVal) with
    | [] => currentVal
    | _ => completed prevVal currentVal
    end.
Proof.
  intros Hc Hab. unfold completed.
  destruct (prefix_clean prevVal) as [HP _].
  destruct (abbreviated_paren _ Hab) as [s' Hs'].
  assert (Hend : trimEnd ([space] ++ currentVal) = [space] ++ currentVal).
  { simpl. destruct Hc as [_ ->]. now rewrite Hs'. }
  destruct (trim (beforeParen prevVal)) as [|p P] eqn:E.
  - simpl app. unfold trim. simpl trimStart.
    change (isWhiteSpace space) with true. cbn iota.
    apply (trim_of_clean _ Hc).
  - unfold trim. rewrite <- app_comm_cons, trimStart_fixed
      by (now apply (clean_head p P)).
    rewrite app_comm_cons, trimEnd_app; [now rewrite Hend|].
    rewrite Hend. discriminate.
Qed.


(** A completed name with a prefix is not an abbreviation. *)
Lemma completed_not_abbreviated (prevVal currentVal : ustring) :
  clean currentVal -> abbreviated currentVal = true ->
  trim (beforeParen prevVal) <> [] ->
  abbreviated (trim (completed prevVal currentVal)) = false.
Proof.
  intros Hc Hab HP. rewrite trim_completed by assumption.
  destruct (prefix_clean prevVal) as [_ Hno]. unfold completed.
  destruct (trim (beforeParen prevVal)) as [|p P]; [congruence|].
  unfold abbreviated. simpl.
  destruct (N.eqb_spec p paren) as [->|]; [|reflexivity].
  destruct Hno. left.
Qed.

End Trim.

Section FactoryNames.
Import Factory.
Variable NumberToString : float -> ustring.
Variable factoryCol : string.

Lemma fixStep_lookup (data : list ref) (h : store) (i : nat) (l : ref) :
  fixStep NumberToString factoryCol data h i !!! l
  = match data !! i, data !! (i - 1)%nat with
    | Some cur, Some prev =>
        if decide (l = cur)
        then completedRow NumberToString factoryCol (h !!! prev) (h !!! cur)
        else h !!! l
    | _, _ => h !!! l
    end.
Proof.
  unfold fixStep, completedRow.
  destruct (data !! i) as [cur|]; [|reflexivity].
  destruct (data !! (i - 1)%nat) as [prev|]; [|reflexivity].
  destruct (abbreviated _).
  - destruct (decide (l = cur)) as [->|Hne].
    + apply lookup_total_insert_eq.
    + now apply lookup_total_insert_ne.
  - now destruct (decide (l = cur)) as [->|Hne].
Qed.

Lemma completedRow_other (prev cur : Row) (col : string) :
  col <> factoryCol ->
  completedRow NumberToString factoryCol prev cur !! col = cur !! col.
Proof.
  intros Hne. unfold completedRow. destruct (abbreviated _); [|reflexivity].
  now apply lookup_insert_ne.
Qed.

Lemma completedRow_name (prev cur : Row) :
  completedRow NumberToString factoryCol prev cur !! factoryCol
  = cur !! factoryCol \/
  exists s, completedRow NumberToString factoryCol prev cur !! factoryCol
            = Some (VStr s).
Proof.
  unfold completedRow. destruct (abbreviated _); [|auto].
  right. eexists. apply lookup_insert_eq.
Qed.

(** Whatever the steps, a loop of [fixStep] writes strings to the factory
    column of the rows it visits, and nothing else. *)
Lemma fixSteps_frame (data : list ref) (steps : list nat) (h : store) :
  let h' := fold_left (fixStep NumberToString factoryCol data) steps h in
  (forall l col, col <> factoryCol -> (h' !!! l) !! col = (h !!! l) !! col) /\
  (forall l, (forall i, i ∈ steps -> data !! i <> Some l) ->
             h' !!! l = h !!! l) /\
  (forall l, (h' !!! l) !! factoryCol = (h !!! l) !! factoryCol \/
             exists s, (h' !!! l) !! factoryCol = Some (VStr s)).
Proof.
  revert h. induction steps as [|i steps IH]; intros h; simpl.
  - auto.
  - destruct (IH (fixStep NumberToString factoryCol data h i))
      as (Hother & Hskip & Hname).
    split; [|split].
    + intros l col Hcol. rewrite (Hother l col Hcol), fixStep_lookup.
      destruct (data !! i) as [cur|]; [|reflexivity].
      destruct (data !! (i - 1)%nat) as [prev|]; [|reflexivity].
      destruct (decide (l = cur)) as [->|]; [|reflexivity].
      now apply completedRow_other.
    + intros l Hl. rewrite Hskip by (intros j Hj; apply Hl; now right).
      rewrite fixStep_lookup. specialize (Hl i (list_elem_of_here _ _)).
      destruct (data !! i) as [cur|]; [|reflexivity].
      destruct (data !! (i - 1)%nat) as [prev|]; [|reflexivity].
      destruct (decide (l = cur)) as [->|]; [congruence|reflexivity].
    + intros l. destruct (Hname l) as [Hsame|Hstr]; [|auto].
      rewrite Hsame, fixStep_lookup.
      destruct (data !! i) as [cur|]; [|auto].
      destruct (data !! (i - 1)%nat) as [prev|]; [|auto].
      destruct (decide (l = cur)) as [->|]; [|auto].
      apply completedRow_name.
Qed.

(** X26: [fixFactoryNames] returns an array of the same rows in the same
    order; it leaves every other column of every row as it was, leaves
    untouched each row that stands at no position after the first, and the
    factory column of a row afterwards is what it was or a string. *)
Theorem fixFactoryNames_frame (data : list ref) (h : store) :
  let '(newData, h') := fixFactoryNames NumberToString data factoryCol h in
  newData = data /\
  (forall l col, col <> factoryCol -> (h' !!! l) !! col = (h !!! l) !! col) /\
  (forall l, l ∉ drop 1 data -> h' !!! l = h !!! l) /\
  (forall l, (h' !!! l) !! factoryCol = (h !!! l) !! factoryCol \/
             exists s, (h' !!! l) !! factoryCol = Some (VStr s)).
Proof.
  unfold fixFactoryNames.
  destruct (fixSteps_frame data (seq 1 (length data - 1)) h)
    as (Hother & Hskip & Hname).
  split; [reflexivity|]. split; [assumption|]. split; [|assumption].
  intros l Hl. apply Hskip. intros i Hi Hdata.
  apply list_elem_of_In, in_seq in Hi. apply Hl.
  apply list_elem_of_lookup. exists (i - 1)%nat. rewrite lookup_drop.
  now replace (1 + (i - 1))%nat with i by lia.
Qed.

(** With a row object per position, the state after [k] iterations: the
    rows up to [k] are completed, each against the completed row before it;
    the first row and the rows after [k] are as they were. *)
Lemma fixSteps_rows (data : list ref) (h : store) (k : nat) :
  NoDup data -> (k <= length data - 1)%nat ->
  let hk := fold_left (fixStep NumberToString factoryCol data) (seq 1 k) h in
  forall i l, data !! i = Some l ->
    ((i = 0 \/ k < i)%nat -> hk !!! l = h !!! l) /\
    ((1 <= i <= k)%nat -> forall prev, data !! (i - 1)%nat = Some prev ->
       hk !!! l
       = completedRow NumberToString factoryCol (hk !!! prev) (h !!! l)).
Proof.
  intros Hnd. induction k as [|k IH]; intros Hk.
  - simpl. intros i l Hi. split; [reflexivity|lia].
  - specialize (IH ltac:(lia)). cbv zeta in IH |- *.
    rewrite seq_S, fold_left_app. cbn [fold_left].
    change (1 + k)%nat with (S k).
    set (hk := fold_left (fixStep NumberToString factoryCol data) (seq 1 k) h)
      in *.
    destruct (lookup_lt_is_Some_2 data (S k)) as [cur Hcur]; [lia|].
    destruct (lookup_lt_is_Some_2 data k) as [prev Hprev]; [lia|].
    assert (Hstep : forall l,
              fixStep NumberToString factoryCol data hk (S k) !!! l
              = if decide (l = cur)
                then completedRow NumberToString factoryCol (hk !!! prev)
                                  (hk !!! cur)
                else hk !!! l).
    { intros l. rewrite fixStep_lookup. simpl. rewrite Nat.sub_0_r.
      now rewrite Hcur, Hprev. }
    assert (Hne : forall i l, data !! i = Some l -> i <> S k -> l <> cur).
    { intros i l Hi Hik ->. apply Hik.
      eapply NoDup_lookup; eassumption. }
    intros i l Hi. rewrite Hstep. split.
    + intros Hcase.
      destruct (decide (l = cur)) as [->|_];
        [destruct (Hne i cur Hi); [lia|reflexivity]|].
      apply (IH i l Hi). lia.
    + intros Hrange prev' Hprev'. rewrite Hstep.
      destruct (decide (prev' = cur)) as [->|_];
        [destruct (Hne (i - 1)%nat cur Hprev'); [lia|reflexivity]|].
      destruct (decide (i = S k)) as [->|Hik].
      * assert (l = cur) by congruence. subst l.
        simpl in Hprev'. rewrite Nat.sub_0_r in Hprev'.
        assert (prev' = prev) by congruence. subst prev'.
        destruct (decide (cur = cur)); [|congruence].
        now rewrite (proj1 (IH (S k) cur Hcur)) by lia.
      * destruct (decide (l = cur)) as [->|_];
          [destruct (Hne i cur Hi Hik); reflexivity|].
        apply (IH i l Hi); [lia|assumption].
Qed.

Lemma fixFactoryNames_rows (data : list ref) (h : store) :
  NoDup data ->
  let h' := snd (fixFactoryNames NumberToString data factoryCol h) in
  (forall first, data !! 0%nat = Some first -> h' !!! first = h !!! first) /\
  (forall i prev cur, data !! i = Some prev -> data !! S i = Some cur ->
     h' !!! cur
     = completedRow NumberToString factoryCol (h' !!! prev) (h !!! cur)).
Proof.
  intros Hnd. unfold fixFactoryNames. simpl.
  pose proof (fixSteps_rows data h (length data - 1) Hnd (le_n _)) as Hrows.
  simpl in Hrows. split.
  - intros first Hfirst. apply (Hrows 0%nat first Hfirst). now left.
  - intros i prev cur Hprev Hcur.
    apply (Hrows (S i) cur Hcur).
    + apply lookup_lt_Some in Hcur. lia.
    + simpl. now rewrite Nat.sub_0_r.
Qed.


Lemma text_insert (v : ustring) (row : Row) :
  text NumberToString factoryCol (<[factoryCol := VStr v]> row) = trim v.
Proof. unfold text. now rewrite lookup_insert_eq. Qed.



(** Completing a completed row against the same row leaves it. *)
Lemma completedRow_idem (prev cur : Row) :
  completedRow NumberToString factoryCol prev
    (completedRow NumberToString factoryCol prev cur)
  = completedRow NumberToString factoryCol prev cur.
Proof.
  unfold completedRow.
  destruct (abbreviated (text NumberToString factoryCol cur)) eqn:Hab;
    [|now rewrite Hab].
  rewrite text_insert.
  destruct (trim (beforeParen (text NumberToString factoryCol prev)))
    as [|p P] eqn:HP.
  - rewrite trim_completed, HP by (apply trim_clean || assumption).
    rewrite Hab. apply insert_insert_eq.
  - rewrite completed_not_abbreviated;
      [reflexivity|apply trim_clean|assumption|now rewrite HP].
Qed.

(** X29: completing the names a second time changes nothing: on the rows
    the first call returns, a second call leaves every row as the first
    left it. *)
Theorem fixFactoryNames_idempotent (data : list ref) (h : store) :
  NoDup data ->
  let '(newData, h1) := fixFactoryNames NumberToString data factoryCol h in
  let '(newData', h2) := fixFactoryNames NumberToString newData factoryCol h1 in
  newData' = data /\ forall l, h2 !!! l = h1 !!! l.
Proof.
  intros Hnd.
  destruct (fixFactoryNames_rows data h Hnd) as [Hfirst1 Hrows1].
  change (fst (fixFactoryNames NumberToString data factoryCol h)) with data.
  destruct (fixFactoryNames NumberToString data factoryCol h)
    as [newData h1] eqn:E1.
  assert (newData = data) by (unfold fixFactoryNames in E1; congruence).
  subst newData. simpl in Hfirst1, Hrows1.
  destruct (fixFactoryNames_rows data h1 Hnd) as [Hfirst2 Hrows2].
  pose proof (fixSteps_frame data (seq 1 (length data - 1)) h1) as Hframe.
  unfold fixFactoryNames in Hfirst2, Hrows2 |- *.
  cbv zeta in Hframe, Hfirst2, Hrows2 |- *. cbn [snd] in Hfirst2, Hrows2.
  set (h2 := fold_left (fixStep NumberToString factoryCol data)
               (seq 1 (length data - 1)) h1) in *.
  destruct Hframe as (_ & Hskip & _).
  split; [reflexivity|].
  assert (Hdata : forall i l, data !! i = Some l -> h2 !!! l = h1 !!! l).
  { induction i as [|i IH]; intros l Hl; [now apply Hfirst2|].
    destruct (lookup_lt_is_Some_2 data i) as [prev Hprev].
    { apply lookup_lt_Some in Hl. lia. }
    rewrite (Hrows2 i prev l Hprev Hl), (IH prev Hprev).
    rewrite (Hrows1 i prev l Hprev Hl). apply completedRow_idem. }
  intros l. destruct (decide (l ∈ data)) as [Hin|Hnin].
  - apply list_elem_of_lookup in Hin as [i Hi]. now apply (Hdata i).
  - apply Hskip. intros i _ Hi. apply Hnin.
    eapply list_elem_of_lookup_2; eassumption.
Qed.

End FactoryNames.

Lemma NoDup_012 : NoDup [0; 1; 2]%nat.
Proof. apply (bool_decide_unpack _). vm_compute. exact I. Qed.



Lemma fixFactoryNames_idempotent_witness :
  let '(newData, h1) :=
    Factory.fixFactoryNames noDigits [0; 1; 2]%nat "f" names in
  let '(newData', h2) :=
    Factory.fixFactoryNames noDigits newData "f" h1 in
  newData' = [0; 1; 2]%nat /\ forall l, h2 !!! l = h1 !!! l.
Proof.
  exact (fixFactoryNames_idempotent noDigits "f" [0; 1; 2]%nat names NoDup_012).
Defined.
